(** * OntRemote SCPI layer: typed endpoints, result decoding, event feed

    A shallow embedding of [jdsu/OntRemote/Scpi.py] and of the decoding half
    of [jdsu/OntRemote/util.py], with the properties of the endpoint layer
    proved over it; and of the text functions of the connection
    ([_base.py], [_core.py]) and the measurement control ([_meas.py]).

    Conventions.
    - A Python [str] is a [string]; its characters are code points below 256.
    - A Python [int] is a [Z].
    - Python's [float] and its [time] and [calendar] modules are library
      code; what the endpoints need from them is the interface [PyRuntime].
      The constructor of the event decoder, which reads the schema with
      [json.loads], is the interface [SchemaReader].
    - The connection object [_con] is the interface [Transport]; every call
      of [sendScpi] and [receiveScpi] is recorded in a trace.
    - A method is a function from the object's fields and the world to a
      result and the new fields and world.  State changes made before an
      exception is raised are kept, as in Python. *)

From Stdlib Require Import ZArith List String Ascii Bool Lia DecimalString.
From Stdlib Require DecimalPos.
From stdpp Require Import base option list gmap strings.

Local Open Scope string_scope.
Local Open Scope Z_scope.

(** ** Python string built-ins *)

Module Py.

(** The double-quote character and the one-character string holding it. *)
Definition dquote : ascii := ascii_of_nat 34.
Definition dq : string := String dquote EmptyString.

(** [s[0]] and [s[-1]]; [None] stands for [IndexError]. *)
Definition first_char (s : string) : option ascii :=
  match s with
  | EmptyString => None
  | String c _ => Some c
  end.

Fixpoint last_char (s : string) : option ascii :=
  match s with
  | EmptyString => None
  | String c EmptyString => Some c
  | String _ rest => last_char rest
  end.

(** [s[:-1]] *)
Fixpoint drop_last (s : string) : string :=
  match s with
  | EmptyString => EmptyString
  | String _ EmptyString => EmptyString
  | String c rest => String c (drop_last rest)
  end.

(** [s[1:]] *)
Definition drop_first (s : string) : string :=
  match s with
  | EmptyString => EmptyString
  | String _ rest => rest
  end.

(** [s[1:-1]] *)
Definition slice_1_m1 (s : string) : string := drop_last (drop_first s).

(** [s[:n]] for [n >= 0] *)
Fixpoint take (n : nat) (s : string) : string :=
  match n, s with
  | O, _ => EmptyString
  | S _, EmptyString => EmptyString
  | S n', String c rest => String c (take n' rest)
  end.

(** [s.find(c)] for a one-character needle: index of the first occurrence,
    [-1] when there is none. *)
Fixpoint find_from (c : ascii) (s : string) (i : Z) : Z :=
  match s with
  | EmptyString => -1
  | String d rest => if Ascii.eqb d c then i else find_from c rest (i + 1)
  end.

Definition find (c : ascii) (s : string) : Z := find_from c s 0.

(** [s.split(c)] for a one-character separator. *)
Fixpoint split_go (c : ascii) (s : string) (cur : string -> string) : list string :=
  match s with
  | EmptyString => [cur EmptyString]
  | String d rest =>
      if Ascii.eqb d c then cur EmptyString :: split_go c rest (fun t => t)
      else split_go c rest (fun t => cur (String d t))
  end.

Definition split (c : ascii) (s : string) : list string := split_go c s (fun t => t).

(** [sep.join(parts)] *)
Fixpoint join (sep : string) (parts : list string) : string :=
  match parts with
  | [] => EmptyString
  | [p] => p
  | p :: rest => p ++ sep ++ join sep rest
  end.

(** [s.rstrip(c)] for a one-character set. *)
Fixpoint rstrip (c : ascii) (s : string) : string :=
  match s with
  | EmptyString => EmptyString
  | String d rest =>
      match rstrip c rest with
      | EmptyString => if Ascii.eqb d c then EmptyString else String d EmptyString
      | r => String d r
      end
  end.

(** [s.startswith(p)] *)
Fixpoint startswith (p s : string) : bool :=
  match p, s with
  | EmptyString, _ => true
  | String _ _, EmptyString => false
  | String a p', String b s' => Ascii.eqb a b && startswith p' s'
  end.

(** [s.replace(old, new)] for a non-empty [old]: scan from the left, replace
    every non-overlapping occurrence.  [skip] counts the characters of a
    matched occurrence that are still to be dropped. *)
Fixpoint replace_go (old new : string) (skip : nat) (s : string) : string :=
  match s with
  | EmptyString => EmptyString
  | String c rest =>
      match skip with
      | S k => replace_go old new k rest
      | O =>
          if startswith old s
          then new ++ replace_go old new (Nat.pred (String.length old)) rest
          else String c (replace_go old new O rest)
      end
  end.

Definition replace (old new s : string) : string := replace_go old new O s.

(** [s.lower()] on the ASCII letters. *)
Definition lower_char (c : ascii) : ascii :=
  let n := nat_of_ascii c in
  if (Nat.leb 65 n && Nat.leb n 90)%bool then ascii_of_nat (n + 32) else c.

Fixpoint lower (s : string) : string :=
  match s with
  | EmptyString => EmptyString
  | String c rest => String (lower_char c) (lower rest)
  end.

(** [s.rfind(p)]: index of the last occurrence, [-1] when there is none. *)
Fixpoint rfind_from (p s : string) (i : Z) (best : Z) : Z :=
  match s with
  | EmptyString => if startswith p s then i else best
  | String _ rest => rfind_from p rest (i + 1) (if startswith p s then i else best)
  end.

Definition rfind (p s : string) : Z := rfind_from p s 0 (-1).

(** *** [int(s)] for a string argument, base 10

    Surrounding white space is ignored, one sign is allowed, and single
    underscores may separate digits.  [None] stands for [ValueError].
    (The limit on the number of digits of recent interpreters is not
    modelled.) *)
Definition is_space (c : ascii) : bool :=
  let n := nat_of_ascii c in
  ((Nat.leb 9 n && Nat.leb n 13) || (Nat.leb 28 n && Nat.leb n 32)
   || Nat.eqb n 133 || Nat.eqb n 160)%bool.

Fixpoint lstrip_space (s : string) : string :=
  match s with
  | EmptyString => EmptyString
  | String c rest => if is_space c then lstrip_space rest else s
  end.

Fixpoint rstrip_space (s : string) : string :=
  match s with
  | EmptyString => EmptyString
  | String d rest =>
      match rstrip_space rest with
      | EmptyString => if is_space d then EmptyString else String d EmptyString
      | r => String d r
      end
  end.

Definition strip_space (s : string) : string := rstrip_space (lstrip_space s).

Definition digit_value (c : ascii) : option Z :=
  let n := nat_of_ascii c in
  if (Nat.leb 48 n && Nat.leb n 57)%bool then Some (Z.of_nat (n - 48)) else None.

Definition underscore : ascii := "_"%char.

(** Digits with single underscores between them; [acc] is the value read so
    far and [after_digit] tells whether the previous character was a digit. *)
Fixpoint digits_go (s : string) (acc : Z) (after_digit : bool) : option Z :=
  match s with
  | EmptyString => if after_digit then Some acc else None
  | String c rest =>
      match digit_value c with
      | Some d => digits_go rest (10 * acc + d) true
      | None =>
          if (Ascii.eqb c underscore && after_digit)%bool
          then match rest with
               | EmptyString => None
               | String c' _ =>
                   match digit_value c' with
                   | Some _ => digits_go rest acc false
                   | None => None
                   end
               end
          else None
      end
  end.

Definition digits (s : string) : option Z :=
  match s with
  | EmptyString => None
  | String c _ =>
      match digit_value c with
      | Some _ => digits_go s 0 false
      | None => None
      end
  end.

(** [str(n)] for an integer, which is also what [%d] inserts. *)
Definition str_int (n : Z) : string := NilZero.string_of_int (Z.to_int n).

Definition int (s : string) : option Z :=
  match strip_space s with
  | String "-"%char rest => Z.opp <$> digits rest
  | String "+"%char rest => digits rest
  | t => digits t
  end.

(** [s.split(sep)] for a separator of any positive length: the occurrences
    are found from the left and do not overlap.  [skip] counts the
    characters of a matched separator that are still to be dropped. *)
Fixpoint split_str_go (sep : string) (skip : nat) (s : string) (cur : string -> string)
    : list string :=
  match s with
  | EmptyString => [cur EmptyString]
  | String c rest =>
      match skip with
      | S k => split_str_go sep k rest cur
      | O =>
          if startswith sep s
          then cur EmptyString
               :: split_str_go sep (Nat.pred (String.length sep)) rest (fun t => t)
          else split_str_go sep O rest (fun t => cur (String c t))
      end
  end.

Definition split_str (sep s : string) : list string := split_str_go sep O s (fun t => t).

(** [c.isdigit()]: the decimal digits and the superscripts 2, 3 and 1. *)
Definition isdigit (c : ascii) : bool :=
  let n := nat_of_ascii c in
  ((Nat.leb 48 n && Nat.leb n 57) || Nat.eqb n 178 || Nat.eqb n 179 || Nat.eqb n 185)%bool.

(** [''.join([ch for ch in s if p(ch)])] *)
Fixpoint keep (p : ascii -> bool) (s : string) : string :=
  match s with
  | EmptyString => EmptyString
  | String c rest => if p c then String c (keep p rest) else keep p rest
  end.

(** [l[:stop]] for an integer [stop]: a negative one counts from the end. *)
Definition slice_to {A} (stop : Z) (l : list A) : list A :=
  if stop <? 0
  then firstn (Z.to_nat (Z.of_nat (List.length l) + stop)) l
  else firstn (Z.to_nat stop) l.

(** [s.upper()] on the ASCII letters. *)
Definition upper_char (c : ascii) : ascii :=
  let n := nat_of_ascii c in
  if (Nat.leb 97 n && Nat.leb n 122)%bool then ascii_of_nat (n - 32) else c.

Fixpoint upper (s : string) : string :=
  match s with
  | EmptyString => EmptyString
  | String c rest => String (upper_char c) (upper rest)
  end.

(** [s.find(p)] for a needle of any length: index of the first occurrence,
    [-1] when there is none. *)
Fixpoint find_str_from (p s : string) (i : Z) : Z :=
  if startswith p s then i
  else match s with
       | EmptyString => -1
       | String _ rest => find_str_from p rest (i + 1)
       end.

Definition find_str (p s : string) : Z := find_str_from p s 0.

(** The truth value of a string: empty or not. *)
Definition truthy (s : string) : bool :=
  match s with
  | EmptyString => false
  | String _ _ => true
  end.

End Py.

(** ** Exceptions and outcomes *)

Inductive exn : Type :=
| OntRemoteError (msg : string)
| OntEventDecoderError (msg : string)
| ValueError
| IndexError
| TypeError
| AttributeError
| KeyError
| AssertionError
| RecursionError
(** not an exception of Python: the mark of a [while] loop that ran longer
    than the bound the embedding gives it *)
| Unfinished.

Inductive outcome (A : Type) : Type :=
| Ok (a : A)
| Raise (e : exn).
Arguments Ok {A} a.
Arguments Raise {A} e.

Definition is_Ok {A} (r : outcome A) : bool :=
  match r with Ok _ => true | Raise _ => false end.

(** ** The Python library functions the endpoints rely on *)

Class PyRuntime : Type := {
  (** the values of Python's [float] *)
  pyfloat : Type;
  (** [float(s)] for a string; [None] stands for [ValueError] *)
  float_of_str : string -> option pyfloat;
  (** [str(x)] for a float *)
  str_of_float : pyfloat -> string;
  (** [calendar.timegm(time.strptime(s, '%Y-%m-%d %H:%M:%S'))];
      [None] stands for [ValueError] *)
  strptime_timegm : string -> option Z
}.

(** ** The connection [_con]

    [dev_send] and [dev_receive] are [OntRemote.sendScpi] and
    [OntRemote.receiveScpi].  Both may change the state of the connection
    and of the instrument behind it, and both turn every failure below them
    into an [OntRemoteError]: that is the [Fault] reply.  [dev_version] is
    the attribute [_versionInfo]. *)
Inductive reply (A : Type) : Type :=
| Reply (a : A)
| Fault (msg : string).
Arguments Reply {A} a.
Arguments Fault {A} msg.

Definition outcome_of_reply {A} (r : reply A) : outcome A :=
  match r with
  | Reply a => Ok a
  | Fault msg => Raise (OntRemoteError msg)
  end.

Class Transport : Type := {
  conn : Type;
  dev_send : string -> conn -> reply unit * conn;
  dev_receive : string -> conn -> reply string * conn;
  dev_version : conn -> option (Z * Z * Z * Z)
}.

Inductive io : Type :=
| Sent (cmd : string)
| Queried (cmd : string).

Section World.
Context `{Transport}.

Record world : Type := World { dev : conn; trace : list io }.

(** A method of an object with fields [S]. *)
Definition M (S A : Type) : Type := S -> world -> outcome A * S * world.

Definition ret {S A} (a : A) : M S A := fun s w => (Ok a, s, w).

Definition raise {S A} (e : exn) : M S A := fun s w => (Raise e, s, w).

Definition bind {S A B} (m : M S A) (k : A -> M S B) : M S B :=
  fun s w =>
    match m s w with
    | (Ok a, s', w') => k a s' w'
    | (Raise e, s', w') => (Raise e, s', w')
    end.

Definition self {S} : M S S := fun s w => (Ok s, s, w).

Definition update {S} (f : S -> S) : M S unit := fun s w => (Ok tt, f s, w).

Definition lift_option {S A} (e : exn) (o : option A) : M S A :=
  match o with
  | Some a => ret a
  | None => raise e
  end.

Definition lift_outcome {S A} (r : outcome A) : M S A :=
  match r with
  | Ok a => ret a
  | Raise e => raise e
  end.

(** [self._con.sendScpi(cmd)] *)
Definition sendScpi {S} (cmd : string) : M S unit :=
  fun s w =>
    let '(r, d) := dev_send cmd (dev w) in
    (outcome_of_reply r, s, World d (trace w ++ [Sent cmd])).

(** [self._con.receiveScpi(cmd)] *)
Definition receiveScpi {S} (cmd : string) : M S string :=
  fun s w =>
    let '(r, d) := dev_receive cmd (dev w) in
    (outcome_of_reply r, s, World d (trace w ++ [Queried cmd])).

(** Run a method of another object [T] from a method of [S]. *)
Definition call {S T A} (m : M T A) (t : T) : M S (A * T) :=
  fun s w =>
    match m t w with
    | (Ok a, t', w') => (Ok (a, t'), s, w')
    | (Raise e, _, w') => (Raise e, s, w')
    end.

End World.

Notation "'let!' x ':=' m 'in' k" := (bind m (fun x => k))
  (at level 10, x pattern, m at level 100, k at level 200).
Notation "m ';;' k" := (bind m (fun _ => k))
  (at level 100, k at level 200, right associativity).

(** ** Python values handled by the endpoints *)

Section Values.
Context `{PyRuntime}.

Inductive pyval : Type :=
| VNone
| VBool (b : bool)
| VInt (z : Z)
| VFloat (x : pyfloat)
| VStr (s : string).

(** The classes [type(value)] can give for a scalar endpoint's value. *)
Inductive pytype : Type := TInt | TFloat | TStr.

(** [str(v)], which is what the directive [%s] inserts. *)
Definition py_str (v : pyval) : string :=
  match v with
  | VNone => "None"
  | VBool true => "True"
  | VBool false => "False"
  | VInt z => Py.str_int z
  | VFloat x => str_of_float x
  | VStr s => s
  end.

(** [fmt % (arg,)] for a format with [%s] directives only. *)
Definition format_s (fmt arg : string) : string := Py.replace "%s" arg fmt.

(** The conversion every endpoint tries first:
    [float(tok) if tok.find('.') > -1 else int(tok)];
    [None] stands for the [ValueError] of either conversion. *)
Definition to_number (tok : string) : option pyval :=
  if -1 <? Py.find "."%char tok
  then VFloat <$> float_of_str tok
  else VInt <$> Py.int tok.

(** [type(v)] after [to_number] succeeded or the token was kept. *)
Definition type_of (v : pyval) : pytype :=
  match v with
  | VFloat _ => TFloat
  | VStr _ => TStr
  | _ => TInt
  end.

(** [value[1:-1].replace(dq dq, dq)] when the value starts with a quote. *)
Definition unquote (value : string) : string :=
  Py.replace (Py.dq ++ Py.dq) Py.dq (Py.slice_1_m1 value).

End Values.

(** ** class [Parameter] (the module is named [ScalarParameter]) *)

Module ScalarParameter.
Section Methods.
Context `{PyRuntime} `{Transport}.

(** The function [_txCmd] is bound to. *)
Inductive tx : Type := TxSend | TxReceive.

(** The bound methods that [_configureType] stores in the instance
    attributes [set] and [get], hiding the methods of the class. *)
Inductive set_impl : Type := Bound__set | Bound__setScpiString.
Inductive get_impl : Type := Bound__getNumeric | Bound__getString.

Record t : Type := Make {
  _name : string;
  _type : option pytype;
  _storedValue : pyval;
  _formatString : string;
  _txCmd : tx;
  attr_set : option set_impl;
  attr_get : option get_impl
}.

Definition with_type (ty : option pytype) (p : t) : t :=
  Make (_name p) ty (_storedValue p) (_formatString p) (_txCmd p) (attr_set p) (attr_get p).
Definition with_storedValue (v : pyval) (p : t) : t :=
  Make (_name p) (_type p) v (_formatString p) (_txCmd p) (attr_set p) (attr_get p).
Definition with_set (m : set_impl) (p : t) : t :=
  Make (_name p) (_type p) (_storedValue p) (_formatString p) (_txCmd p) (Some m) (attr_get p).
Definition with_get (m : get_impl) (p : t) : t :=
  Make (_name p) (_type p) (_storedValue p) (_formatString p) (_txCmd p) (attr_set p) (Some m).

(** [Parameter(ontRemote, scpiName, opcQuery)] *)
Definition __init__ (scpiName : string) (opcQuery : bool) : t :=
  {| _name := Py.rstrip "?"%char scpiName;
     _type := None;
     _storedValue := VNone;
     _formatString := if opcQuery then " %s;*OPC?" else " %s";
     _txCmd := if opcQuery then TxReceive else TxSend;
     attr_set := None;
     attr_get := None |}.

(** [self._txCmd(cmd)]; the reply of an acknowledged write is dropped. *)
Definition txCmd (cmd : string) : M t unit :=
  let! p := self in
  match _txCmd p with
  | TxSend => sendScpi cmd
  | TxReceive => let! _ := receiveScpi cmd in ret tt
  end.

Definition _configureType : M t pyval :=
  let! p := self in
  let cmd := _name p ++ "?" in
  let! value := receiveScpi cmd in
  update (with_set Bound__set);;
  match to_number value with
  | Some v =>
      update (with_get Bound__getNumeric);;
      update (with_type (Some (type_of v)));;
      ret v
  | None =>
      let! c := lift_option IndexError (Py.first_char value) in
      (if Ascii.eqb c Py.dquote then update (with_set Bound__setScpiString) else ret tt);;
      update (with_get Bound__getString);;
      update (with_type (Some TStr));;
      ret (VStr value)
  end.

Definition _setScpiString (value : pyval) : M t unit :=
  match value with
  | VStr s =>
      let prefix := Py.dq in
      let postfix := Py.dq in
      let value := Py.replace Py.dq (Py.dq ++ Py.dq) s in
      let! p := self in
      let cmd := _name p ++ format_s (_formatString p) (prefix ++ value ++ postfix) in
      txCmd cmd
  | _ => raise AttributeError
  end.

Definition _set (value : pyval) : M t unit :=
  let! p := self in
  let cmd := _name p ++ format_s (_formatString p) (py_str value) in
  txCmd cmd.

Definition _getString : M t pyval :=
  let! p := self in
  let cmd := _name p ++ "?" in
  let! value := receiveScpi cmd in
  let! c := lift_option IndexError (Py.first_char value) in
  ret (VStr (if Ascii.eqb c Py.dquote then unquote value else value)).

Definition _getNumeric : M t pyval :=
  let! p := self in
  let cmd := _name p ++ "?" in
  let! value := receiveScpi cmd in
  lift_option ValueError (to_number value).

(** [self.set(value)]: the instance attribute when there is one, the method
    of the class otherwise.  The method of the class calls [self.set] again
    after [_configureType]; [depth] bounds the nesting of these calls. *)
Fixpoint set_at (depth : nat) (value : pyval) : M t unit :=
  let! p := self in
  match attr_set p with
  | Some Bound__set => _set value
  | Some Bound__setScpiString => _setScpiString value
  | None =>
      match _type p with
      | None =>
          let! tmp := _configureType in
          match depth with
          | S d => set_at d value
          | O => raise RecursionError
          end
      | Some _ => raise AssertionError
      end
  end.

(** The interpreter's limit on nested calls is far above what [set] needs. *)
Definition recursion_limit : nat := 1000.

Definition set (value : pyval) : M t unit := set_at recursion_limit value.

(** [self.get()] *)
Definition get : M t pyval :=
  let! p := self in
  match attr_get p with
  | Some Bound__getNumeric => _getNumeric
  | Some Bound__getString => _getString
  | None =>
      match _type p with
      | None =>
          let! value := _configureType in
          match value with
          | VStr s =>
              let! c := lift_option IndexError (Py.first_char s) in
              ret (VStr (if Ascii.eqb c Py.dquote then unquote s else s))
          | _ => ret value
          end
      | Some _ => raise AssertionError
      end
  end.

(** [float(s)] and [int(s)] as [range] uses them. *)
Definition range : M t (pyval * pyval) :=
  let! p := self in
  let cmd := _name p ++ "?" in
  let! result := receiveScpi (cmd ++ " min;" ++ cmd ++ " max") in
  let result := Py.split ";"%char result in
  let! r0 := lift_option IndexError (result !! 0%nat) in
  if -1 <? Py.find "."%char r0
  then
    let! a := lift_option ValueError (float_of_str r0) in
    let! r1 := lift_option IndexError (result !! 1%nat) in
    let! b := lift_option ValueError (float_of_str r1) in
    ret (VFloat a, VFloat b)
  else
    let! a := lift_option ValueError (Py.int r0) in
    let! r1 := lift_option IndexError (result !! 1%nat) in
    let! b := lift_option ValueError (Py.int r1) in
    ret (VInt a, VInt b).

Definition store : M t unit :=
  let! v := get in
  update (with_storedValue v).

Definition restore : M t unit :=
  let! p := self in
  match _storedValue p with
  | VNone =>
      raise (OntRemoteError
        "Parameter.restore(): the member function store() must have been called before.")
  | v => set v
  end.

(** [type()] *)
Definition type : M t pytype :=
  let! p := self in
  match _type p with
  | None =>
      let! v := get in
      update (with_type (Some (type_of v)));;
      ret (type_of v)
  | Some ty => ret ty
  end.

Definition cat : M t (list string) :=
  let! p := self in
  let cmd := _name p ++ ":CAT?" in
  let! result := receiveScpi cmd in
  let result := Py.split ","%char result in
  ret (match result with
       | EmptyString :: rest => rest
       | _ => result
       end).

End Methods.
End ScalarParameter.

(** ** class BlockParameter *)

Module BlockParameter.
Section Methods.
Context `{PyRuntime} `{Transport}.

Inductive tx : Type := TxSend | TxReceive.

(** What the caller passes as [values] and what [get] returns: one value
    (a [str], [int] or [float]) or a list of values. *)
Inductive blockval : Type :=
| BScalar (v : pyval)
| BList (l : list pyval).

(** The bound methods [_configureType] stores in the instance attributes
    [set] and [_parseValues]. *)
Inductive set_impl : Type := Bound__set | Bound__setScpiString.
Inductive parse_impl : Type :=
| Bound__parseNumericValues
| Bound__parseStringValues
| Bound__parseDiscreteValues.

Record t : Type := Make {
  _name : string;
  _type : option pytype;
  _storedValue : option blockval;
  _postfixString : string;
  _txCmd : tx;
  attr_set : option set_impl;
  attr__parseValues : option parse_impl
}.

Definition with_type (ty : option pytype) (p : t) : t :=
  Make (_name p) ty (_storedValue p) (_postfixString p) (_txCmd p)
       (attr_set p) (attr__parseValues p).
Definition with_storedValue (v : option blockval) (p : t) : t :=
  Make (_name p) (_type p) v (_postfixString p) (_txCmd p)
       (attr_set p) (attr__parseValues p).
Definition with_set (m : set_impl) (p : t) : t :=
  Make (_name p) (_type p) (_storedValue p) (_postfixString p) (_txCmd p)
       (Some m) (attr__parseValues p).
Definition with__parseValues (m : parse_impl) (p : t) : t :=
  Make (_name p) (_type p) (_storedValue p) (_postfixString p) (_txCmd p)
       (attr_set p) (Some m).

(** The name with a trailing block node and question marks cut off. *)
Definition block_name (node scpiName : string) : string :=
  let tmpName := Py.lower scpiName in
  let tmpName := Py.rstrip "?"%char tmpName in
  let endPos := Py.rfind node tmpName in
  if 0 <? endPos
  then Py.take (Z.to_nat endPos) scpiName
  else Py.take (String.length tmpName) scpiName.

Definition __init__ (scpiName : string) (opcQuery : bool) : t :=
  {| _name := block_name ":bloc" scpiName;
     _type := None;
     _storedValue := None;
     _postfixString := if opcQuery then ";*OPC?" else EmptyString;
     _txCmd := if opcQuery then TxReceive else TxSend;
     attr_set := None;
     attr__parseValues := None |}.

Definition txCmd (cmd : string) : M t unit :=
  let! p := self in
  match _txCmd p with
  | TxSend => sendScpi cmd
  | TxReceive => let! _ := receiveScpi cmd in ret tt
  end.

(** ['%d,%d' % (a, b)] *)
Definition fmt_dd (a b : Z) : string := Py.str_int a ++ "," ++ Py.str_int b.

(** [len(values)] after a single value was wrapped in a list; a value that
    is neither a string nor a number has no length. *)
Definition as_list (values : blockval) : outcome (list pyval) :=
  match values with
  | BList l => Ok l
  | BScalar VNone => Raise TypeError
  | BScalar v => Ok [v]
  end.

Definition _configureType (item : string) : M t unit :=
  update (with_set Bound__set);;
  match to_number item with
  | Some v =>
      update (with__parseValues Bound__parseNumericValues);;
      update (with_type (Some (type_of v)))
  | None =>
      let! c := lift_option IndexError (Py.first_char item) in
      (if Ascii.eqb c Py.dquote
       then update (with_set Bound__setScpiString);;
            update (with__parseValues Bound__parseStringValues)
       else update (with__parseValues Bound__parseDiscreteValues));;
      update (with_type (Some TStr))
  end.

(** One item of a string block write: quotes are added where missing. *)
Definition quoted_item (item : pyval) : outcome string :=
  match item with
  | VStr s =>
      match Py.first_char s, Py.last_char s with
      | Some a, Some b =>
          let prefix := if Ascii.eqb a Py.dquote then EmptyString else Py.dq in
          let postfix := if Ascii.eqb b Py.dquote then EmptyString else Py.dq in
          Ok ("," ++ prefix ++ s ++ postfix)
      | _, _ => Raise IndexError
      end
  | _ => Raise TypeError
  end.

Fixpoint quoted_items (items : list pyval) : outcome string :=
  match items with
  | [] => Ok EmptyString
  | item :: rest =>
      match quoted_item item with
      | Ok s =>
          match quoted_items rest with
          | Ok r => Ok (s ++ r)
          | Raise e => Raise e
          end
      | Raise e => Raise e
      end
  end.

Definition _setScpiString (index : Z) (values : blockval) : M t unit :=
  let! values :=
    lift_outcome match values with
                | BScalar (VStr s) => Ok [VStr s]
                | BScalar _ => Raise TypeError
                | BList l => Ok l
                end in
  let! p := self in
  let cmd := _name p ++ " " ++ fmt_dd index (Z.of_nat (length values)) in
  let! items := lift_outcome (quoted_items values) in
  txCmd (cmd ++ items ++ _postfixString p).

Definition _set (index : Z) (values : blockval) : M t unit :=
  let! values := lift_outcome (as_list values) in
  let! p := self in
  let cmd := _name p ++ " " ++ fmt_dd index (Z.of_nat (length values)) in
  let items := String.concat EmptyString (map (fun item => "," ++ py_str item) values) in
  txCmd (cmd ++ items ++ _postfixString p).

(** [self.set(index, values)]: the instance attribute, or the method of the
    class, which probes the type with a windowed read and calls [self.set]
    again. *)
Fixpoint set_at (depth : nat) (index : Z) (values : blockval) : M t unit :=
  let! p := self in
  match attr_set p with
  | Some Bound__set => _set index values
  | Some Bound__setScpiString => _setScpiString index values
  | None =>
      let! l := lift_outcome (as_list values) in
      let values := BList l in
      let cmd := _name p ++ "? " ++ fmt_dd index (Z.of_nat (length l)) in
      let! response := receiveScpi cmd in
      let response := Py.split ","%char response in
      let! r0 := lift_option IndexError (response !! 0%nat) in
      _configureType r0;;
      match depth with
      | S d => set_at d index values
      | O => raise RecursionError
      end
  end.

Definition recursion_limit : nat := 1000.

Definition set (index : Z) (values : blockval) : M t unit :=
  set_at recursion_limit index values.

(** What [_parseValues] is applied to: the list of tokens of a reply, or,
    on the path of [get] that repeats the query, the reply itself. *)
Inductive tokens : Type :=
| Tokens (l : list string)
| Text (s : string).

(** The items a [for] loop or [map] sees. *)
Definition items_of (v : tokens) : list string :=
  match v with
  | Tokens l => l
  | Text s => map (fun c => String c EmptyString) (list_ascii_of_string s)
  end.

Definition _parseDiscreteValues (valueList : tokens) : M t blockval :=
  ret match valueList with
      | Tokens l => BList (map VStr l)
      | Text s => BScalar (VStr s)
      end.

Definition _parseStringValues (valueList : tokens) : M t blockval :=
  ret (BList (map (fun item => VStr (Py.slice_1_m1 item)) (items_of valueList))).

(** [list(map(f, l))]: the first item [f] refuses raises [ValueError]. *)
Fixpoint map_or_ValueError {A} (f : string -> option A) (l : list string) : option (list A) :=
  match l with
  | [] => Some []
  | x :: rest =>
      match f x with
      | Some a => cons a <$> map_or_ValueError f rest
      | None => None
      end
  end.

Definition _parseNumericValues (valueList : tokens) : M t blockval :=
  let items := items_of valueList in
  let! v0 := lift_option IndexError (items !! 0%nat) in
  if -1 <? Py.find "."%char v0
  then let! l := lift_option ValueError (map_or_ValueError float_of_str items) in
       ret (BList (map VFloat l))
  else let! l := lift_option ValueError (map_or_ValueError Py.int items) in
       ret (BList (map VInt l)).

Fixpoint _parseValues_at (depth : nat) (valueList : tokens) : M t blockval :=
  let! p := self in
  match attr__parseValues p with
  | Some Bound__parseNumericValues => _parseNumericValues valueList
  | Some Bound__parseStringValues => _parseStringValues valueList
  | Some Bound__parseDiscreteValues => _parseDiscreteValues valueList
  | None =>
      let! item := lift_option IndexError (items_of valueList !! 0%nat) in
      _configureType item;;
      match depth with
      | S d => _parseValues_at d valueList
      | O => raise RecursionError
      end
  end.

Definition _parseValues (valueList : tokens) : M t blockval :=
  _parseValues_at recursion_limit valueList.

(** [get(index, length)]; [length = None] reads to the end. *)
Definition get (index : Z) (length : option Z) : M t blockval :=
  let! p := self in
  let cmd := match length with
             | None => _name p ++ ":BLOC?"
             | Some n => _name p ++ "? " ++ fmt_dd index n
             end in
  let! response := receiveScpi cmd in
  let response := Py.split ","%char response in
  let! response :=
    match length with
    | None =>
        if 0 <? index
        then match drop (Z.to_nat index) response with
             | [] =>
                 let cmd := _name p ++ "? " ++ fmt_dd index 1 in
                 let! response := receiveScpi cmd in
                 ret (Text response)
             | rest => ret (Tokens rest)
             end
        else ret (Tokens response)
    | Some _ => ret (Tokens response)
    end in
  _parseValues response.

Definition store : M t unit :=
  let! v := get 0 None in
  update (with_storedValue (Some v)).

Definition restore : M t unit :=
  let! p := self in
  match _storedValue p with
  | None =>
      raise (OntRemoteError
        "BlockParameter.restore(): the member function store() must have been called before.")
  | Some v => set 0 v
  end.

Definition type : M t (option pytype) :=
  let! p := self in
  match _type p with
  | None => let! _ := get 0 (Some 1) in let! p := self in ret (_type p)
  | Some ty => ret (Some ty)
  end.

(** [cat(index)]; the index is formatted with [%s]. *)
Definition cat (index : pyval) : M t (list string) :=
  let! p := self in
  let cmd := _name p ++ ":CAT? " ++ py_str index in
  let! result := receiveScpi cmd in
  ret (Py.split ","%char result).

End Methods.
End BlockParameter.

(** ** class ParameterGroup *)

Module ParameterGroup.
Section Methods.
Context `{PyRuntime} `{Transport}.

(** A member of the group: the one object that the entry of [__dict__] and
    the entry of [_parameterList] both refer to. *)
Inductive member : Type :=
| Scalar (p : ScalarParameter.t)
| Block (p : BlockParameter.t).

(** [_parameterList] holds the members in the order of registration, each
    with the name that is its key in [__dict__]. *)
Record t : Type := Make {
  description : string;
  _parameterList : list (string * member)
}.

Definition __init__ (groupDescription : string) : t :=
  {| description := groupDescription; _parameterList := [] |}.

(** An item of [parameters]: a tuple of two, of three, or of another
    length. *)
Inductive definition : Type :=
| Def2 (name scpiName : string)
| Def3 (name scpiName : string) (queryOpc : bool)
| DefOther.

(** [name in self.__dict__]: the attributes the constructor sets and the
    names registered so far. *)
Definition in_dict (name : string) (g : t) : bool :=
  bool_decide
    (name ∈ (["_con"; "description"; "_parameterList"] ++ map fst (_parameterList g))%list).

Definition _isBlockParameter (name : string) : bool :=
  let name := Py.rstrip "?"%char name in
  let name := Py.lower name in
  let pos := Py.rfind ":bloc" name in
  (0 <? pos) && (Z.of_nat (String.length name) - pos =? 5).

Definition new_member (scpiName : string) (queryOpc : bool) : member :=
  if _isBlockParameter scpiName
  then Block (BlockParameter.__init__ scpiName queryOpc)
  else Scalar (ScalarParameter.__init__ scpiName queryOpc).

Definition register (name : string) (m : member) (g : t) : t :=
  Make (description g) (_parameterList g ++ [(name, m)]).

Fixpoint addParameters (parameters : list definition) : M t unit :=
  match parameters with
  | [] => ret tt
  | item :: rest =>
      let! g := self in
      let! (name, scpiName, queryOpc) :=
        match item with
        | Def2 name scpiName => ret (name, scpiName, false)
        | Def3 name scpiName queryOpc => ret (name, scpiName, queryOpc)
        | DefOther =>
            raise (OntRemoteError
                     ("ParameterGroup " ++ description g
                      ++ ":  unexpected parameter list item: item should provide name and scpiName. Optionally *OPC query can be enabled."))
        end in
      if in_dict name g
      then raise (OntRemoteError
                    ("ParameterGroup " ++ description g
                     ++ ": Registered name must be unique: " ++ name))
      else
        update (register name (new_member scpiName queryOpc));;
        addParameters rest
  end.

(** [param.store()] and [param.restore()] on a member. *)
Definition member_store : M member unit :=
  fun m w =>
    match m with
    | Scalar p => let '(r, p', w') := ScalarParameter.store p w in (r, Scalar p', w')
    | Block p => let '(r, p', w') := BlockParameter.store p w in (r, Block p', w')
    end.

Definition member_restore : M member unit :=
  fun m w =>
    match m with
    | Scalar p => let '(r, p', w') := ScalarParameter.restore p w in (r, Scalar p', w')
    | Block p => let '(r, p', w') := BlockParameter.restore p w in (r, Block p', w')
    end.

(** [for param in self._parameterList: f(param)]: the first exception ends
    the loop. *)
Fixpoint each (f : M member unit) (l : list (string * member)) (w : world)
    : outcome unit * list (string * member) * world :=
  match l with
  | [] => (Ok tt, [], w)
  | (name, m) :: rest =>
      match f m w with
      | (Ok _, m', w') =>
          let '(r, rest', w'') := each f rest w' in (r, (name, m') :: rest', w'')
      | (Raise e, m', w') => (Raise e, (name, m') :: rest, w')
      end
  end.

Definition store : M t unit :=
  fun g w =>
    let '(r, l, w') := each member_store (_parameterList g) w in
    (r, Make (description g) l, w').

Definition restore : M t unit :=
  fun g w =>
    let '(r, l, w') := each member_restore (_parameterList g) w in
    (r, Make (description g) l, w').

End Methods.
End ParameterGroup.

(** ** Results *)

Section DecodeResult.
Context `{PyRuntime}.

(** The value of a valid result: a number when the token converts, the
    token without its first and last character when it starts with a quote,
    the token itself otherwise.  An empty token has no first character. *)
Definition decode_value (value : string) : outcome pyval :=
  match to_number value with
  | Some v => Ok v
  | None =>
      match Py.first_char value with
      | None => Raise IndexError
      | Some c =>
          if Ascii.eqb c Py.dquote
          then Ok (VStr (Py.slice_1_m1 value))
          else Ok (VStr value)
      end
  end.

Definition _decodeResult (result : string) (scpiName : string) : outcome (bool * pyval) :=
  let result := Py.split ","%char result in
  match result with
  | [flag; value] =>
      match Py.int flag with
      | None =>
          Raise (OntRemoteError ("ScpiResult " ++ scpiName ++ ": Problem decoding valid flag"))
      | Some n =>
          let valid := n =? 1 in
          if valid
          then match decode_value value with
               | Ok v => Ok (valid, v)
               | Raise e => Raise e
               end
          else Ok (valid, VNone)
      end
  | _ =>
      Raise (OntRemoteError ("ScpiResult " ++ scpiName ++ ": Unexpected number of return values"))
  end.

End DecodeResult.

(** *** class Result *)

Module Result.
Section Methods.
Context `{PyRuntime} `{Transport}.

Record t : Type := Make { name : string }.

Definition __init__ (scpiName : string) : t := {| name := Py.rstrip "?"%char scpiName |}.

Definition get : M t pyval :=
  let! r := self in
  let cmd := name r ++ "?" in
  let! result := receiveScpi cmd in
  let! (valid, value) := lift_outcome (_decodeResult result (name r)) in
  if valid : bool then ret value else ret VNone.

Definition final : M t pyval :=
  let! r := self in
  let cmd := ":SENS:DATA:FIN? " ++ Py.dq ++ name r ++ Py.dq in
  let! result := receiveScpi cmd in
  let! (valid, value) := lift_outcome (_decodeResult result (name r)) in
  if valid : bool then ret value else ret VNone.

End Methods.
End Result.

(** *** class BlockResult *)

Module BlockResult.
Section Methods.
Context `{PyRuntime} `{Transport}.

Record t : Type := Make { name : string }.

Definition __init__ (scpiName : string) : t :=
  {| name := BlockParameter.block_name ":bloc" scpiName |}.

(** What [get] returns: [None], a list of values, or, on the path that
    repeats the query, the reply as it came. *)
Inductive returned : Type :=
| RNone
| RValues (values : list pyval)
| RText (reply : string).

Definition _readValues (cmd : string) : M t (bool * list pyval) :=
  let! values := receiveScpi cmd in
  let values := Py.split ","%char values in
  let! v0 := lift_option IndexError (values !! 0%nat) in
  match Py.int v0 with
  | None =>
      raise (OntRemoteError ("BlockResult " ++ cmd ++ ": Problem decoding valid flag"))
  | Some resultCount =>
      let valid := -1 <? resultCount in
      if valid
      then
        let values := drop 1 values in
        if negb (resultCount =? Z.of_nat (length values))
        then
          (* the message has three directives and is given one argument *)
          raise TypeError
        else
          match values with
          | [] => ret (valid, [])
          | first :: _ =>
              if -1 <? Py.find "."%char first
              then match BlockParameter.map_or_ValueError float_of_str values with
                   | Some l => ret (valid, map VFloat l)
                   | None =>
                       let! c := lift_option IndexError (Py.first_char first) in
                       if Ascii.eqb c Py.dquote
                       then ret (valid, map (fun item => VStr (Py.slice_1_m1 item)) values)
                       else ret (valid, map VStr values)
                   end
              else match BlockParameter.map_or_ValueError Py.int values with
                   | Some l => ret (valid, map VInt l)
                   | None =>
                       let! c := lift_option IndexError (Py.first_char first) in
                       if Ascii.eqb c Py.dquote
                       then ret (valid, map (fun item => VStr (Py.slice_1_m1 item)) values)
                       else ret (valid, map VStr values)
                   end
          end
      else ret (valid, [])
  end.

Definition get (index : Z) (length : option Z) : M t returned :=
  let! r := self in
  let cmd := match length with
             | None => name r ++ ":BLOC?"
             | Some n => name r ++ "? " ++ BlockParameter.fmt_dd index n
             end in
  let! (valid, values) := _readValues cmd in
  if valid : bool
  then
    match length with
    | None =>
        if 0 <? index
        then match drop (Z.to_nat index) values with
             | [] =>
                 let cmd := name r ++ "? " ++ BlockParameter.fmt_dd index 1 in
                 let! values := receiveScpi cmd in
                 ret (RText values)
             | rest => ret (RValues rest)
             end
        else ret (RValues values)
    | Some _ => ret (RValues values)
    end
  else ret RNone.

(** [final(index, length)]: the values after the measurement was stopped,
    cut to the window on this side of the connection. *)
Definition final (index : Z) (length : option Z) : M t returned :=
  let! r := self in
  let cmd := ":SENS:DATA:FIN? " ++ Py.dq ++ name r ++ Py.dq in
  let! (valid, values) := _readValues cmd in
  if valid : bool
  then
    let values := if 0 <? index then drop (Z.to_nat index) values else values in
    let values :=
      match length with
      | Some n => if n <? Z.of_nat (List.length values) then Py.slice_to n values else values
      | None => values
      end in
    match values with
    | [] =>
        (* the message has two directives and is given one argument *)
        raise TypeError
    | _ :: _ => ret (RValues values)
    end
  else ret RNone.

(** [length()] *)
Definition length : M t Z :=
  let! r := self in
  let cmd := name r ++ ":LENG?" in
  let! result := receiveScpi cmd in
  match Py.int result with
  | Some n => ret n
  | None =>
      (* the message has two directives and is given one argument *)
      raise TypeError
  end.

End Methods.
End BlockResult.

(** *** class ExtendedBlockResult *)

Module ExtendedBlockResult.
Section Methods.
Context `{PyRuntime} `{Transport}.

Record t : Type := Make { name : string }.

Definition __init__ (scpiName : string) : t :=
  {| name := BlockParameter.block_name ":ebloc" scpiName |}.

Inductive returned : Type :=
| RNone
| RValues (values : list pyval)
| RText (reply : string).

(** One turn of the loop over [range(resultCount)]. *)
Definition read_item (values : list string) (ii : nat) : outcome pyval :=
  match values !! (2 * ii)%nat, values !! (2 * ii + 1)%nat with
  | Some flag, Some value =>
      match Py.int flag with
      | None =>
          (* the message has two directives and is given one argument *)
          Raise TypeError
      | Some n => if n =? 1 then decode_value value else Ok VNone
      end
  | _, _ => Raise IndexError
  end.

Fixpoint read_items (values : list string) (iis : list nat) : outcome (list pyval) :=
  match iis with
  | [] => Ok []
  | ii :: rest =>
      match read_item values ii with
      | Ok v =>
          match read_items values rest with
          | Ok vs => Ok (v :: vs)
          | Raise e => Raise e
          end
      | Raise e => Raise e
      end
  end.

Definition _readValues (cmd : string) : M t (bool * list pyval) :=
  let! values := receiveScpi cmd in
  let values := Py.split ","%char values in
  let! v0 := lift_option IndexError (values !! 0%nat) in
  match Py.int v0 with
  | None =>
      raise (OntRemoteError ("ExtendedBlockResult " ++ cmd ++ ": Problem decoding valid flag"))
  | Some resultCount =>
      let valid := -1 <? resultCount in
      if valid
      then
        let values := drop 1 values in
        let half := Z.of_nat (length values) / 2 in
        if negb (resultCount =? half)
        then
          raise (OntRemoteError
                   ("ExtendedBlockResult " ++ cmd ++ ": Inconsistent result reported: length: "
                    ++ Py.str_int resultCount ++ " / No of items: " ++ Py.str_int half))
        else
          match values with
          | [] => ret (valid, [])
          | _ :: _ =>
              let! resultValues :=
                lift_outcome (read_items values (seq 0 (Z.to_nat resultCount))) in
              ret (valid, resultValues)
          end
      else ret (valid, [])
  end.

Definition get (index : Z) (length : option Z) : M t returned :=
  let! r := self in
  let cmd := match length with
             | None => name r ++ ":EBLOC?"
             | Some n => name r ++ ":ERANG? " ++ BlockParameter.fmt_dd index n
             end in
  let! (valid, values) := _readValues cmd in
  if valid : bool
  then
    match length with
    | None =>
        if 0 <? index
        then match drop (Z.to_nat index) values with
             | [] =>
                 let cmd := name r ++ ":ERANG? " ++ BlockParameter.fmt_dd index 1 in
                 let! values := receiveScpi cmd in
                 ret (RText values)
             | rest => ret (RValues rest)
             end
        else ret (RValues values)
    | Some _ => ret (RValues values)
    end
  else ret RNone.

(** [final(index, length)] *)
Definition final (index : Z) (length : option Z) : M t returned :=
  let! r := self in
  let cmd := ":SENS:DATA:FIN? " ++ Py.dq ++ name r ++ Py.dq in
  let! (valid, values) := _readValues cmd in
  if valid : bool
  then
    let values := if 0 <? index then drop (Z.to_nat index) values else values in
    let values :=
      match length with
      | Some n => if n <? Z.of_nat (List.length values) then Py.slice_to n values else values
      | None => values
      end in
    match values with
    | [] =>
        (* the message has two directives and is given one argument *)
        raise TypeError
    | _ :: _ => ret (RValues values)
    end
  else ret RNone.

(** [length()] *)
Definition length : M t Z :=
  let! r := self in
  let cmd := name r ++ ":LENG?" in
  let! result := receiveScpi cmd in
  match Py.int result with
  | Some n => ret n
  | None =>
      (* the message has two directives and is given one argument *)
      raise TypeError
  end.

End Methods.
End ExtendedBlockResult.

(** *** class ResultGroup *)

Module ResultGroup.
Section Methods.
Context `{PyRuntime} `{Transport}.

Record t : Type := Make {
  description : string;
  nameList : list (string * string);
  _cmd : string
}.

(** The loop of [get] over [nameList], with [index] counting the replies. *)
Fixpoint collect (result : list string) (names : list (string * string)) (index : nat)
    (resDict : gmap string pyval) : outcome (gmap string pyval) :=
  match names with
  | [] => Ok resDict
  | (resultName, scpiName) :: rest =>
      match result !! index with
      | None => Raise IndexError
      | Some item =>
          match _decodeResult item scpiName with
          | Ok (valid, value) =>
              collect result rest (S index)
                (<[resultName := if valid : bool then value else VNone]> resDict)
          | Raise e => Raise e
          end
      end
  end.

Definition get : M t (gmap string pyval) :=
  let! g := self in
  match _cmd g with
  | EmptyString =>
      raise (OntRemoteError ("ResultGroup " ++ description g ++ ": No results registered"))
  | cmd =>
      let! result := receiveScpi cmd in
      let result := Py.split ";"%char result in
      lift_outcome (collect result (nameList g) 0 ∅)
  end.

(** *** Registration

    The group object with the set [_names] that only [addResults] reads. *)
Record registry : Type := Registry {
  fields : t;
  _names : gset string
}.

(** [ResultGroup(ontRemote, groupDescription)] *)
Definition __init__ (groupDescription : string) : registry :=
  {| fields := {| description := groupDescription; nameList := []; _cmd := EmptyString |};
     _names := ∅ |}.

(** An item of [results]: the SCPI nodes alone, or a pair of a name and the
    nodes. *)
Inductive item : Type :=
| Plain (scpiNodes : string)
| Named (resultName scpiNodes : string).

(** [_scpiRootComponents]: the part before the mark [:...] and, when there
    is one, the part after it. *)
Definition _scpiRootComponents (description rootName : string)
    : outcome (string * option string) :=
  match Py.last_char rootName with
  | None => Raise IndexError
  | Some c =>
      let rootName := if Ascii.eqb c "?"%char then Py.drop_last rootName else rootName in
      let insertMark := ":..." in
      let scpiComponents := Py.split_str insertMark rootName in
      match scpiComponents with
      | [] => Ok (EmptyString, None) (* [split] never returns an empty list *)
      | [a] => Ok (a, None)
      | [a; b] =>
          match b with
          | EmptyString => Ok (a, None)
          | _ => Ok (a, Some b)
          end
      | _ =>
          Raise (OntRemoteError
                   ("ResultGroup " ++ description
                    ++ ": Only one wild card position supported, but "
                    ++ Py.str_int (Z.of_nat (length scpiComponents))
                    ++ " detected: " ++ rootName))
      end
  end.

Definition _scpiCmd (description rootName scpiName : string) : outcome string :=
  match Py.last_char scpiName with
  | None => Raise IndexError
  | Some c =>
      let scpiName := if Ascii.eqb c "?"%char then Py.drop_last scpiName else scpiName in
      match Py.last_char scpiName with
      | None => Raise IndexError
      | Some c =>
          let scpiName := if Ascii.eqb c ":"%char then Py.drop_last scpiName else scpiName in
          match Py.first_char scpiName with
          | None => Raise IndexError
          | Some c =>
              let scpiName :=
                if Ascii.eqb c ":"%char then Py.drop_first scpiName else scpiName in
              match _scpiRootComponents description rootName with
              | Raise e => Raise e
              | Ok (c0, None) =>
                  Ok (Py.replace "::" ":" (c0 ++ ":" ++ scpiName ++ "?"))
              | Ok (c0, Some c1) =>
                  Ok (Py.replace "::" ":" (c0 ++ ":" ++ scpiName ++ ":" ++ c1 ++ "?"))
              end
          end
      end
  end.

Definition add_name (resultName : string) (g : registry) : registry :=
  Registry (fields g) ({[resultName]} ∪ _names g).

Definition append_item (entry : string * string) (g : registry) : registry :=
  Registry (Make (description (fields g)) (nameList (fields g) ++ [entry]) (_cmd (fields g)))
           (_names g).

Definition with_cmd (cmd : string) (g : registry) : registry :=
  Registry (Make (description (fields g)) (nameList (fields g)) cmd) (_names g).

(** The loop of [addResults] over [results]; [cmd] is the text collected so
    far. *)
Fixpoint add_items (resultRoot : string) (results : list item) (cmd : string)
    : M registry string :=
  match results with
  | [] => ret cmd
  | it :: rest =>
      let '(item0, item1) := match it with
                            | Plain s => (s, s)
                            | Named resultName s => (resultName, s)
                            end in
      let! g := self in
      if bool_decide (item0 ∈ _names g)
      then raise (OntRemoteError
                    ("ResultGroup " ++ description (fields g)
                     ++ ": Result name must be unique: " ++ item0))
      else
        update (add_name item0);;
        let! scpi := lift_outcome (_scpiCmd (description (fields g)) resultRoot item1) in
        update (append_item (item0, scpi));;
        add_items resultRoot rest (cmd ++ scpi ++ ";")
  end.

Definition addResults (resultRoot : string) (results : list item) : M registry unit :=
  let! cmd := add_items resultRoot results EmptyString in
  let! g := self in
  let old := match _cmd (fields g) with
             | EmptyString => EmptyString
             | c => c ++ ";"
             end in
  update (with_cmd (old ++ Py.drop_last cmd)).

(** [get] on the group object. *)
Definition registry_get : M registry (gmap string pyval) :=
  fun g w =>
    match get (fields g) w with
    | (r, f, w') => (r, Registry f (_names g), w')
    end.

End Methods.
End ResultGroup.

(** ** Events *)

(** The values of an event dictionary: [None], an integer, the pair
    [(raw, label)] of a decoded field, and the ordered mapping of the
    additional fields. *)
Inductive evval : Type :=
| EvNone
| EvInt (z : Z)
| EvField (raw : Z) (label : string)
| EvInfo (fields : list (string * (Z * string))).

(** ** [parseVersionInfo]

    The version string the instrument reports, [name-major.minor.bugFix-build],
    as the tuple that [_versionInfo] holds. *)
Definition parseVersionInfo (versionInfo : string) : outcome (Z * Z * Z * Z) :=
  match Py.first_char versionInfo with
  | None => Raise IndexError
  | Some c =>
      let versionInfo :=
        if Ascii.eqb c Py.dquote then Py.slice_1_m1 versionInfo else versionInfo in
      match rev (Py.split "-"%char versionInfo) with
      | build :: version :: _ =>
          match Py.int (Py.keep Py.isdigit build) with
          | None => Raise ValueError
          | Some buildNo =>
              match Py.split "."%char version with
              | major :: minor :: bugFix :: _ =>
                  match Py.int major, Py.int minor, Py.int bugFix with
                  | Some a, Some b, Some c => Ok (a, b, c, buildNo)
                  | _, _, _ => Raise ValueError
                  end
              | _ => Raise ValueError
              end
          end
      | _ => Raise IndexError
      end
  end.

(** ** class OntEventDecoder

    The tables are those the constructor builds from the schema.  Shifts,
    masks and format ids are the integers of a well-typed schema. *)

Module OntEventDecoder.

Record t : Type := Make {
  _strict : bool;
  (** [bool(self._formatDict)] *)
  _formatDict_nonempty : bool;
  _fidShift : Z;
  _fidMask : Z;
  _decoderDict : gmap Z (list (Z * Z));
  _tagDict : gmap Z (list (string * string));
  _enumDict : gmap string (gmap Z string)
}.

Definition TAG_eventID : string := "eventID".
Definition TAG_additionalInfo : string := "additionalInfo".

(** [(value >> shift) & mask]; a negative shift count is a [ValueError]. *)
Definition extract (value shift mask : Z) : outcome Z :=
  if shift <? 0 then Raise ValueError else Ok (Z.land (Z.shiftr value shift) mask).

Fixpoint extract_all (value : Z) (decoderList : list (Z * Z)) : outcome (list Z) :=
  match decoderList with
  | [] => Ok []
  | (shiftValue, mask) :: rest =>
      match extract value shiftValue mask with
      | Ok v =>
          match extract_all value rest with
          | Ok vs => Ok (v :: vs)
          | Raise e => Raise e
          end
      | Raise e => Raise e
      end
  end.

Definition _decode (d : t) (value : Z) : outcome (Z * list Z) :=
  match extract value (_fidShift d) (_fidMask d) with
  | Raise e => Raise e
  | Ok formatIndex =>
      match _decoderDict d !! formatIndex with
      | None => Raise (OntEventDecoderError ("Unexpected format id: " ++ Py.str_int formatIndex))
      | Some decoderList =>
          match extract_all value decoderList with
          | Ok resultList => Ok (formatIndex, resultList)
          | Raise e => Raise e
          end
      end
  end.

Definition _interpretedValue (d : t) (value : Z) (typeTag : string) : string :=
  match _enumDict d !! typeTag with
  | Some table => default EmptyString (table !! value)
  | None => EmptyString
  end.

(** Assignment to a key of an [OrderedDict]: a known key keeps its place. *)
Fixpoint od_set {V} (k : string) (v : V) (od : list (string * V)) : list (string * V) :=
  match od with
  | [] => [(k, v)]
  | (k', v') :: rest => if String.eqb k' k then (k, v) :: rest else (k', v') :: od_set k v rest
  end.

(** The loop of [decodeEvent] over [zip(tags, values)]. *)
Fixpoint fill (d : t) (pairs : list ((string * string) * Z))
    (result : gmap string evval) (addInfoDict : list (string * (Z * string)))
    : gmap string evval * list (string * (Z * string)) :=
  match pairs with
  | [] => (result, addInfoDict)
  | ((tag0, tag1), value) :: rest =>
      if String.eqb tag0 TAG_eventID
      then fill d rest (<[tag0 := EvField value (_interpretedValue d value tag1)]> result)
                addInfoDict
      else fill d rest result (od_set tag0 (value, _interpretedValue d value tag1) addInfoDict)
  end.

Definition decodeEvent (d : t) (value : Z) : outcome (gmap string evval) :=
  match _decode d value with
  | Raise (OntEventDecoderError msg) =>
      if _strict d then Raise (OntEventDecoderError msg) else Ok ∅
  | Raise e => Raise e
  | Ok (fmtIndex, values) =>
      match _tagDict d !! fmtIndex with
      | None => Raise KeyError
      | Some tags =>
          let '(result, addInfoDict) := fill d (zip tags values) ∅ [] in
          match addInfoDict with
          | [] => Ok result
          | _ :: _ => Ok (<[TAG_additionalInfo := EvInfo addInfoDict]> result)
          end
      end
  end.

End OntEventDecoder.

(** The constructor [OntEventDecoder(evtFormatString, strict)] reads the
    schema with [json.loads] and fills the tables; the event feed uses it
    through this interface. *)
Class SchemaReader `{PyRuntime} : Type := {
  OntEventDecoder__init__ : pyval -> bool -> outcome OntEventDecoder.t
}.

(** [str(l)] for a list of strings, which is what [%s] inserts for it. *)
Class PyRepr : Type := {
  str_of_list : list string -> string
}.

(** ** class EventList *)

Module EventList.
Section Methods.
Context `{PyRuntime} `{!SchemaReader} `{Transport}.

Definition event : Type := gmap string evval.

(** The function [_decode] is bound to. *)
Inductive decode_impl : Type := Bound__decodeInit | Bound__decodeEvent | Bound__decodeEmpty.

Record t : Type := Make {
  name : string;
  _maxNumberPerCmd : Z;
  _decoder : option OntEventDecoder.t;
  _enableDecoding : bool;
  _decode : decode_impl;
  _strict : bool
}.

Definition with_decoder (d : option OntEventDecoder.t) (e : t) : t :=
  Make (name e) (_maxNumberPerCmd e) d (_enableDecoding e) (_decode e) (_strict e).
Definition with_decode (m : decode_impl) (e : t) : t :=
  Make (name e) (_maxNumberPerCmd e) (_decoder e) (_enableDecoding e) m (_strict e).

Definition _decodeMinVersion : Z * Z * Z := (37, 0, 2).
Definition _nsecPerSec : Z := 1000000000.
Definition _nsecPerMsec : Z := 1000000.

Definition __init__ (scpiName : string) (enableDecoding : bool) : t :=
  {| name := scpiName;
     _maxNumberPerCmd := 100;
     _decoder := None;
     _enableDecoding := enableDecoding;
     _decode := Bound__decodeInit;
     _strict := false |}.

Definition resetReadPosition : M t unit :=
  let! e := self in
  sendScpi (name e ++ ":FIRS").

Definition entriesToRead : M t Z :=
  let! e := self in
  let! r := receiveScpi (name e ++ ":NUMB?") in
  lift_option ValueError (Py.int r).

(** [res[i]] and [int(res[i])] *)
Definition item (res : list string) (i : nat) : outcome string :=
  match res !! i with
  | Some s => Ok s
  | None => Raise IndexError
  end.

Definition int_item (res : list string) (i : nat) : outcome Z :=
  match res !! i with
  | Some s =>
      match Py.int s with
      | Some z => Ok z
      | None => Raise ValueError
      end
  | None => Raise IndexError
  end.

(** [_getTime(dateTime)]: [None] when the date or one of the two fractions
    does not convert. *)
Definition _getTime (dateTime : list string) : outcome (option Z) :=
  match dateTime with
  | d0 :: d1 :: d2 :: d3 :: d4 :: d5 :: rest =>
      let timeString := d0 ++ "-" ++ d1 ++ "-" ++ d2 ++ " " ++ d3 ++ ":" ++ d4 ++ ":" ++ d5 in
      match strptime_timegm timeString with
      | None => Ok None
      | Some seconds =>
          match rest with
          | [] => Raise IndexError
          | d6 :: rest' =>
              match Py.int d6 with
              | None => Ok None
              | Some msec =>
                  match rest' with
                  | [] => Raise IndexError
                  | d7 :: _ =>
                      match Py.int d7 with
                      | None => Ok None
                      | Some nsec =>
                          Ok (Some (seconds * _nsecPerSec + msec * _nsecPerMsec + nsec))
                      end
                  end
              end
          end
      end
  | _ => Raise IndexError
  end.

(** [l[a:b]] for [0 <= a <= b] *)
Definition slice {A} (a b : nat) (l : list A) : list A := firstn (b - a) (skipn a l).

Definition ev_opt (o : option Z) : evval :=
  match o with
  | Some z => EvInt z
  | None => EvNone
  end.

Definition obind {A B} (r : outcome A) (k : A -> outcome B) : outcome B :=
  match r with
  | Ok a => k a
  | Raise e => Raise e
  end.

(** The dictionary [get] and [next] build for one record. *)
Definition event_dict (id : Z) (startValue stopValue : option Z)
    (durationValue eventType value : Z) : event :=
  <["id" := EvInt id]>
    (<["startTime" := ev_opt startValue]>
       (<["stopTime" := ev_opt stopValue]>
          (<["duration" := EvInt durationValue]>
             (<["type" := EvInt eventType]>
                (<["count" := EvInt value]> ∅))))).

(** The record at offset [ii] of a page: its id and its dictionary. *)
Definition record_at (res : list string) (ii : nat) : outcome (Z * event) :=
  obind (int_item res (ii + 1)) (fun id =>
  obind (_getTime (slice (ii + 2) (ii + 10) res)) (fun startValue =>
  obind (_getTime (slice (ii + 10) (ii + 18) res)) (fun stopValue =>
  obind (int_item res (ii + 18)) (fun days =>
  obind (int_item res (ii + 19)) (fun hours =>
  obind (int_item res (ii + 20)) (fun minutes =>
  obind (int_item res (ii + 21)) (fun seconds =>
  obind (int_item res (ii + 22)) (fun msec =>
  obind (int_item res (ii + 23)) (fun nsec =>
  let durationValue :=
    ((((days * 24 + hours) * 60 + minutes) * 60 + seconds) * _nsecPerSec)
    + msec * _nsecPerMsec + nsec in
  obind (int_item res (ii + 24)) (fun eventType =>
  obind (int_item res (ii + 25)) (fun value =>
  Ok (id, event_dict id startValue stopValue durationValue eventType value)))))))))))).

(** [self._con._versionInfo >= EventList._decodeMinVersion]; comparing
    [None] with a tuple is a [TypeError]. *)
Definition version_ok : M t bool :=
  fun e w =>
    match dev_version (dev w) with
    | None => (Raise TypeError, e, w)
    | Some (major, minor, bugFix, _) =>
        let '(a, b, c) := _decodeMinVersion in
        (Ok ((a <? major) || ((major =? a) && ((b <? minor) || ((minor =? b) && (c <=? bugFix))))),
         e, w)
    end.

(** The name of the parameter that holds the schema: the name of the
    event list with a last node [SEC], [MIN] or [HOUR] cut off and the node
    [FORM] added. *)
Definition form_name (eventListName : string) : string :=
  let scpiNodes := Py.split ":"%char eventListName in
  let scpiNodes :=
    match last scpiNodes with
    | Some l =>
        if (String.eqb l "SEC" || String.eqb l "MIN" || String.eqb l "HOUR")%bool
        then removelast scpiNodes
        else scpiNodes
    | None => scpiNodes
    end in
  let scpiNodes := (scpiNodes ++ ["FORM"])%list in
  Py.join ":" scpiNodes.

(** [_getFormParameter]: the parameter, or [None] when the instrument does
    not know it. *)
Definition _getFormParameter (eventListName : string) : M t (option ScalarParameter.t) :=
  let formParaName := form_name eventListName in
  let queryCmd := "*EXIST? " ++ Py.dq ++ formParaName ++ Py.dq in
  let! r := receiveScpi queryCmd in
  let! result := lift_option ValueError (Py.int r) in
  if result =? 0 then ret None
  else ret (Some (ScalarParameter.__init__ formParaName false)).

Definition _buildDecoder : M t unit :=
  update (with_decoder None);;
  let! e := self in
  let! go := (if _enableDecoding e then version_ok else ret false) in
  if go : bool
  then
    let! formParameter := _getFormParameter (name e) in
    match formParameter with
    | Some p =>
        let! (formatString, _) := call ScalarParameter.get p in
        match OntEventDecoder__init__ formatString (_strict e) with
        | Ok d => update (with_decoder (Some d))
        | Raise (OntEventDecoderError text) => raise (OntRemoteError text)
        | Raise ex => raise ex
        end
    | None => ret tt
    end
  else ret tt.

(** The truth value of [self._decoder]. *)
Definition active_decoder (e : t) : option OntEventDecoder.t :=
  match _decoder e with
  | Some d => if OntEventDecoder._formatDict_nonempty d then Some d else None
  | None => None
  end.

(** [event.update(addData)] *)
Definition dict_update (ev addData : event) : event := addData ∪ ev.

Definition _decodeEvent (ev : event) : M t event :=
  let! e := self in
  if bool_decide (ev = ∅) then ret ev
  else
    match active_decoder e with
    | Some d =>
        let! id := lift_outcome match ev !! "id" with
                                | Some (EvInt id) => Ok id
                                | Some _ => Raise TypeError
                                | None => Raise KeyError
                                end in
        let! addData := lift_outcome (OntEventDecoder.decodeEvent d id) in
        ret (dict_update ev addData)
    | None => ret ev
    end.

Definition _decodeEmpty (ev : event) : M t event := ret ev.

Definition _decodeInit (ev : event) : M t event :=
  _buildDecoder;;
  let! e := self in
  match active_decoder e with
  | Some _ => update (with_decode Bound__decodeEvent);; _decodeEvent ev
  | None => update (with_decode Bound__decodeEmpty);; _decodeEmpty ev
  end.

(** [self._decode(event)] *)
Definition decode (ev : event) : M t event :=
  let! e := self in
  match _decode e with
  | Bound__decodeInit => _decodeInit ev
  | Bound__decodeEvent => _decodeEvent ev
  | Bound__decodeEmpty => _decodeEmpty ev
  end.

(** The argument [filter] of [get]: a callable or an event id. *)
Inductive filter_arg : Type :=
| FilterCallable (f : event -> bool)
| FilterId (id : Z).

Definition passes (filter : option filter_arg) (id : Z) (ev : event) : bool :=
  match filter with
  | None => true
  | Some (FilterCallable f) => f ev
  | Some (FilterId wanted) => id =? wanted
  end.

(** The loop over the records of one page. *)
Fixpoint page_events (res : list string) (offsets : list nat) (filter : option filter_arg)
    (result : list event) : M t (list event) :=
  match offsets with
  | [] => ret result
  | ii :: rest =>
      let! (id, ev) := lift_outcome (record_at res ii) in
      let! ev := decode ev in
      page_events res rest filter (if passes filter id ev then (result ++ [ev])%list else result)
  end.

(** [range(0, perCallCount * 25, 25)] *)
Definition offsets (perCallCount : Z) : list nat :=
  map (fun k => (25 * k)%nat) (seq 0 (Z.to_nat perCallCount)).

(** The [while number > 0] loop of [get].  Every turn takes at least one
    record off [number], so [bound] turns are enough when
    [number <= bound]. *)
Fixpoint get_loop (bound : nat) (number : Z) (filter : option filter_arg)
    (result : list event) : M t (list event) :=
  if 0 <? number
  then
    match bound with
    | O => raise Unfinished
    | S bound' =>
        let! e := self in
        let perCallCount := Z.min number (_maxNumberPerCmd e) in
        let! scpiResponse := receiveScpi (name e ++ "? " ++ Py.str_int perCallCount) in
        let res := Py.split ","%char scpiResponse in
        let! received := lift_outcome (int_item res 0) in
        if negb (received =? perCallCount)
        then raise (OntRemoteError
                      ("EventList " ++ name e ++ ": Unexpected number of events - requested: "
                       ++ Py.str_int perCallCount ++ " / received: " ++ Py.str_int received))
        else if negb (Z.of_nat (length res) =? 1 + 25 * perCallCount)
        then raise (OntRemoteError
                      ("EventList " ++ name e ++ ": Unexpected event structure - items expected: "
                       ++ Py.str_int (1 + 25 * perCallCount) ++ " / items received: "
                       ++ Py.str_int (Z.of_nat (length res))))
        else
          let number := number - perCallCount in
          let! result := page_events res (offsets perCallCount) filter result in
          get_loop bound' number filter result
    end
  else ret result.

Definition get (number : Z) (filter : option filter_arg) : M t (list event) :=
  let! e := self in
  let! r := receiveScpi (name e ++ ":NUMB?") in
  let! availableNo := lift_option ValueError (Py.int r) in
  let number := Z.min number availableNo in
  get_loop (Z.to_nat number) number filter [].

(** The [while number > 0] loop of [skip]. *)
Fixpoint skip_loop (bound : nat) (number skipCount : Z) : M t Z :=
  if 0 <? number
  then
    match bound with
    | O => raise Unfinished
    | S bound' =>
        let! e := self in
        let perCallCount := Z.min number (_maxNumberPerCmd e) in
        let! _ := receiveScpi (name e ++ "? " ++ Py.str_int perCallCount) in
        skip_loop bound' (number - perCallCount) (skipCount + perCallCount)
    end
  else ret skipCount.

Definition skip (number : Z) : M t Z :=
  if number <? 1 then ret number
  else
    let! e := self in
    let! r := receiveScpi (name e ++ ":NUMB?") in
    let! noOfEntries := lift_option ValueError (Py.int r) in
    let number := Z.min number noOfEntries in
    skip_loop (Z.to_nat number) number 0.

(** [next()]: the record at the read position, or the empty dictionary when
    nothing is left to read. *)
Definition next `{PyRepr} : M t event :=
  let! e := self in
  let! r := receiveScpi (name e ++ ":NUMB?") in
  let! count := lift_option ValueError (Py.int r) in
  if 0 <? count
  then
    let! scpiResponse := receiveScpi (name e ++ "? 1") in
    let res := Py.split ","%char scpiResponse in
    let! unexpected :=
      (if negb (Z.of_nat (length res) =? 26) then ret true
       else let! received := lift_outcome (int_item res 0) in
            ret (negb (received =? 1))) in
    if unexpected : bool
    then raise (OntRemoteError
                  ("EventList " ++ name e
                   ++ ": Unexpected event structure - data received: " ++ str_of_list res))
    else
      let! (id, ev) := lift_outcome (record_at res 0) in
      decode ev
  else ret ∅.

End Methods.
End EventList.

(** ** The connection

    What the connection does with the text of a query before it is sent,
    [_OntTcpConnection._splitQuery], and with the name of a measurement
    port, [OntRemote._parsePortString] and [OntRemote._getTcpPort]. *)

Module Connection.

(** [item.upper().find('*OPC?') >= 0] *)
Definition is_opc (item : string) : bool := 0 <=? Py.find_str "*OPC?" (Py.upper item).

(** The loop of [_splitQuery] over the items of the query. *)
Fixpoint _splitQuery_loop (queryParts : list string) (retval : list string)
    (nonOpcItems : string) : list string :=
  match queryParts with
  | [] => if Py.truthy nonOpcItems then (retval ++ [nonOpcItems])%list else retval
  | item :: rest =>
      if is_opc item
      then
        let retval :=
          if Py.truthy nonOpcItems then (retval ++ [nonOpcItems])%list else retval in
        _splitQuery_loop rest (retval ++ [item])%list EmptyString
      else
        _splitQuery_loop rest retval
          (if Py.truthy nonOpcItems then Py.join ";" [nonOpcItems; item] else item)
  end.

Definition _splitQuery (scpiQuery : string) : list string :=
  _splitQuery_loop (Py.split ";"%char scpiQuery) [] EmptyString.

(** [_parsePortString(ontPort)]: mainframe, slot and port. *)
Definition _parsePortString (ontPort : string) : outcome (Z * Z * Z) :=
  let ids := Py.split "/"%char ontPort in
  if negb (Z.of_nat (length ids) =? 4)
  then Raise (OntRemoteError
                ("Invalid format of ONT measurement port: '" ++ ontPort
                 ++ "' - expected: '/0/SlotNo/PortNo'"))
  else
    match ids !! 1%nat, ids !! 2%nat, ids !! 3%nat with
    | Some a, Some b, Some c =>
        match Py.int a with
        | None => Raise ValueError
        | Some mainframe =>
            match Py.int b with
            | None => Raise ValueError
            | Some slot =>
                match Py.int c with
                | None => Raise ValueError
                | Some port => Ok (mainframe, slot, port)
                end
            end
        end
    | _, _, _ => Raise IndexError
    end.

(** The first loop of [_getTcpPort]: the first description that begins
    with the name of the port decides; [None] when there is none. *)
Fixpoint _getTcpPort_search (searchString : string) (portDescriptionList : list string)
    : option (outcome (Z * string * bool)) :=
  match portDescriptionList with
  | [] => None
  | portDescription :: rest =>
      if Py.find_str searchString portDescription =? 0
      then
        Some match Py.split ":"%char portDescription with
             | portId :: tcpPort :: userName :: protection :: _ =>
                 let pwdRequired := Py.find_str "protected" protection =? 0 in
                 match Py.int tcpPort with
                 | Some n => Ok (n, userName, pwdRequired)
                 | None => Raise ValueError
                 end
             | _ => Raise ValueError
             end
      else _getTcpPort_search searchString rest
  end.

(** [_getTcpPort(ipAddr, ontPortString, prtmList)]: the TCP port, the user
    name and whether a password is required. *)
Definition _getTcpPort (ipAddr ontPortString prtmList : string)
    : outcome (Z * string * bool) :=
  let portDescriptionList := Py.split ","%char prtmList in
  match _getTcpPort_search ontPortString portDescriptionList with
  | Some r => r
  | None =>
      let portsAvailable :=
        map (fun portDescription => hd EmptyString (Py.split ":"%char portDescription))
            portDescriptionList in
      Raise (OntRemoteError
               (ipAddr ++ ": Requested measurement port not found: " ++ ontPortString
                ++ ". Ports available: " ++ Py.join ", " portsAvailable))
  end.

End Connection.

(** ** class Measurement

    The measurement control of a port, on the same connection.  Gating
    times are integers; [time.sleep] between two polls is not modelled. *)

Module Measurement.
Section Methods.
Context `{Transport}.

Record t : Type := Make { _sweTime : option string }.

Definition __init__ : t := {| _sweTime := None |}.

Definition isRunning : M t bool :=
  let! resStr := receiveScpi ":STAT:OPER:COND?" in
  let! status := lift_option ValueError (Py.int resStr) in
  ret (0 <? Z.land status 16).

Definition _sweTimeScpi (gatingTime : Z) : outcome string :=
  if gatingTime =? -1
  then Ok ":SENS:SWE:TIME MAX;*OPC?"
  else if 0 <? gatingTime
  then Ok (":SENS:SWE:TIME " ++ Py.str_int gatingTime ++ ";*OPC?")
  else Raise (OntRemoteError ("Invalid gatingTime: " ++ Py.str_int gatingTime)).

Definition startCmd : string := ":INIT:IMM:ALL;*OPC?".

(** [start(gatingTime)]; [None] is the argument left out. *)
Definition start (gatingTime : option Z) : M t unit :=
  let! scpiCmd :=
    match gatingTime with
    | None => ret startCmd
    | Some g =>
        let! cmd := lift_outcome (_sweTimeScpi g) in
        ret (cmd ++ ";" ++ startCmd)
    end in
  let! _ := receiveScpi scpiCmd in
  ret tt.

(** The loop of [stop]; it returns what is left of [maxWait]. *)
Fixpoint stop_wait (maxWait : nat) (doWait : bool) : M t nat :=
  match maxWait with
  | S maxWait' =>
      if doWait
      then let! doWait := isRunning in stop_wait maxWait' doWait
      else ret maxWait
  | O => ret O
  end.

Definition stop : M t unit :=
  sendScpi ":ABOR";;
  let! maxWait := stop_wait 60 true in
  if Nat.eqb maxWait 0
  then raise (OntRemoteError "Timeout while waiting for measurement stop.")
  else ret tt.

Definition getGatingTime : M t Z :=
  let! resStr := receiveScpi ":SENS:SWE:TIME?" in
  lift_option ValueError (Py.int resStr).

Definition setGatingTime (gatingTime : Z) : M t unit :=
  let! scpiCmd := lift_outcome (_sweTimeScpi gatingTime) in
  let! _ := receiveScpi scpiCmd in
  ret tt.

Definition _restart : M t unit :=
  let! _ := receiveScpi ":ABOR;*WAI;:INIT:IMM:ALL;*OPC?" in
  ret tt.

End Methods.
End Measurement.

(** ** Scalar endpoints: operations in sequence *)

Section ScalarOps.
Context `{PyRuntime} `{Transport}.
Import ScalarParameter.

(** The public operations of a scalar endpoint. *)
Inductive op : Type :=
| OpGet
| OpSet (value : pyval)
| OpRange
| OpStore
| OpRestore
| OpType
| OpCat.

Definition forget {S A} (m : M S A) : M S unit := let! _ := m in ret tt.

Definition run_op (o : op) : M t unit :=
  match o with
  | OpGet => forget get
  | OpSet v => set v
  | OpRange => forget range
  | OpStore => store
  | OpRestore => restore
  | OpType => forget type
  | OpCat => forget cat
  end.

(** A caller that goes on after an exception: the operations run one after
    the other on the same object and connection, whatever each returns. *)
Fixpoint run_ops (ops : list op) (p : t) (w : world) : t * world :=
  match ops with
  | [] => (p, w)
  | o :: rest => let '(_, p', w') := run_op o p w in run_ops rest p' w'
  end.

(** The state the constructor leaves: no type, no instance attribute. *)
Definition unbound (p : t) : Prop :=
  _type p = None /\ attr_set p = None /\ attr_get p = None.

(** The state after [_configureType] has run to its end. *)
Definition resolved (p : t) : Prop :=
  is_Some (_type p) /\ is_Some (attr_set p) /\ is_Some (attr_get p).

(** The trace entry of [_txCmd(cmd)]. *)
Definition io_of_tx (x : tx) (cmd : string) : io :=
  match x with
  | TxSend => Sent cmd
  | TxReceive => Queried cmd
  end.

(** Same type and same bound methods. *)
Definition same_binding (p p' : t) : Prop :=
  _type p' = _type p /\ attr_set p' = attr_set p /\ attr_get p' = attr_get p
  /\ _name p' = _name p /\ _formatString p' = _formatString p /\ _txCmd p' = _txCmd p.

End ScalarOps.

(** ** Vector endpoints: operations in sequence *)

Section BlockOps.
Context `{PyRuntime} `{Transport}.
Import BlockParameter.

Inductive block_op : Type :=
| BOpGet (index : Z) (length : option Z)
| BOpSet (index : Z) (values : blockval)
| BOpStore
| BOpRestore
| BOpType
| BOpCat (index : pyval).

Definition run_block_op (o : block_op) : M t unit :=
  match o with
  | BOpGet index length => forget (get index length)
  | BOpSet index values => set index values
  | BOpStore => store
  | BOpRestore => restore
  | BOpType => forget type
  | BOpCat index => forget (cat index)
  end.

Fixpoint run_block_ops (ops : list block_op) (p : t) (w : world) : t * world :=
  match ops with
  | [] => (p, w)
  | o :: rest => let '(_, p', w') := run_block_op o p w in run_block_ops rest p' w'
  end.

End BlockOps.

(** ** Worked instances

    A runtime, a schema reader and a scripted instrument on which the
    methods can be evaluated. *)

Module Demo.

(** The decimal tokens [float] accepts: digits with at most one point and
    an optional exponent, after an optional sign. *)
Definition digits_or_empty (s : string) : bool :=
  match s with
  | EmptyString => true
  | _ => bool_decide (is_Some (Py.digits s))
  end.

Definition mantissa_ok (m : string) : bool :=
  match Py.split "."%char m with
  | [a] => bool_decide (is_Some (Py.digits a))
  | [a; b] =>
      digits_or_empty a && digits_or_empty b
      && negb (String.eqb a EmptyString && String.eqb b EmptyString)
  | _ => false
  end.

Definition unsigned (s : string) : string :=
  match s with
  | String "-"%char rest => rest
  | String "+"%char rest => rest
  | _ => s
  end.

Definition float_syntax (s : string) : bool :=
  match Py.split "e"%char (Py.lower (unsigned (Py.strip_space s))) with
  | [m] => mantissa_ok m
  | [m; x] => mantissa_ok m && bool_decide (is_Some (Py.digits (unsigned x)))
  | _ => false
  end.

(** A float is kept as the token that denotes it. *)
#[export] Instance runtime : PyRuntime := {|
  pyfloat := string;
  float_of_str := fun s => if float_syntax s then Some (Py.strip_space s) else None;
  str_of_float := fun x => x;
  strptime_timegm := fun _ => None
|}.

(** An instrument without event schema. *)
#[export] Instance reader : SchemaReader := {|
  OntEventDecoder__init__ := fun _ _ => Raise (OntEventDecoderError "no schema")
|}.

(** An instrument that answers each query from a table and accepts every
    command. *)
Record device : Type := Device {
  answers : list (string * string);
  version : option (Z * Z * Z * Z)
}.

Fixpoint answer (table : list (string * string)) (query : string) : reply string :=
  match table with
  | [] => Fault "no answer"
  | (q, a) :: rest => if String.eqb q query then Reply a else answer rest query
  end.

#[export] Instance transport : Transport := {|
  conn := device;
  dev_send := fun _ d => (Reply tt, d);
  dev_receive := fun query d => (answer (answers d) query, d);
  dev_version := version
|}.

Definition world_of (table : list (string * string)) : world :=
  World (Device table (Some (37, 0, 2, 0))) [].

(** A list of strings as text, for strings that need no escape. *)
#[export] Instance repr : PyRepr := {|
  str_of_list := fun l => "[" ++ Py.join ", " (map (fun s => "'" ++ s ++ "'") l) ++ "]"
|}.

End Demo.

(** * Properties *)

(** ** The string built-ins on examples *)

Example split_ex1 : Py.split ","%char "2,1,5,0,7" = ["2"; "1"; "5"; "0"; "7"].
Proof. reflexivity. Qed.
Example split_ex2 : Py.split ","%char "" = [""].
Proof. reflexivity. Qed.
Example split_ex3 : Py.split ","%char ",a," = [""; "a"; ""].
Proof. reflexivity. Qed.
Example rstrip_ex : Py.rstrip "?"%char ":A:B??" = ":A:B" /\ Py.rstrip "?"%char "a?b" = "a?b".
Proof. split; reflexivity. Qed.
Example replace_ex :
  Py.replace (Py.dq ++ Py.dq) Py.dq ("a" ++ Py.dq ++ Py.dq ++ Py.dq ++ "b") = "a" ++ Py.dq ++ Py.dq ++ "b".
Proof. reflexivity. Qed.
Example int_ex :
  Py.int " -12 " = Some (-12) /\ Py.int "1_000" = Some 1000 /\ Py.int "1__0" = None
  /\ Py.int "" = None /\ Py.int "+7" = Some 7 /\ Py.int "5_" = None /\ Py.int "0,9" = None
  /\ Py.int "007" = Some 7 /\ Py.int "- 5" = None.
Proof. repeat split; reflexivity. Qed.
Example str_int_ex :
  Py.str_int 0 = "0" /\ Py.str_int 180 = "180" /\ Py.str_int (-3) = "-3".
Proof. repeat split; reflexivity. Qed.
Example rfind_ex : Py.rfind ":bloc" ":a:bloc:x:bloc" = 9 /\ Py.rfind ":bloc" "abc" = -1.
Proof. split; reflexivity. Qed.


(** ** Characters of a token *)

(** [c in s] *)
Fixpoint contains (c : ascii) (s : string) : bool :=
  match s with
  | EmptyString => false
  | String d rest => Ascii.eqb d c || contains c rest
  end.

Lemma find_from_contains c s i :
  0 <= i ->
  (contains c s = false -> Py.find_from c s i = -1)
  /\ (contains c s = true -> i <= Py.find_from c s i).
Proof.
  revert i. induction s as [|d s IH]; intros i Hi; cbn [contains Py.find_from].
  - split; [reflexivity|discriminate].
  - destruct (Ascii.eqb d c); cbn [orb].
    + split; [discriminate|lia].
    + destruct (IH (i + 1) ltac:(lia)) as [IH1 IH2].
      split; [exact IH1|]. intros Hc. specialize (IH2 Hc). lia.
Qed.

Lemma find_absent c s : Py.find c s = -1 <-> contains c s = false.
Proof.
  unfold Py.find. destruct (find_from_contains c s 0 ltac:(lia)) as [H1 H2].
  split; [|exact H1]. intros Hf.
  destruct (contains c s); [|reflexivity]. specialize (H2 eq_refl). lia.
Qed.

(** ** Quoting of SCPI strings *)

Section Quoting.
Context `{PyRuntime} `{Transport}.
Import ScalarParameter.

(** The token [_setScpiString] puts after the name: every quote of the
    value doubled, and the whole between quotes. *)
Definition quoted (s : string) : string :=
  Py.dq ++ Py.replace Py.dq (Py.dq ++ Py.dq) s ++ Py.dq.

Lemma double_cons c s :
  Py.replace Py.dq (Py.dq ++ Py.dq) (String c s)
  = if Ascii.eqb Py.dquote c
    then String Py.dquote (String Py.dquote (Py.replace Py.dq (Py.dq ++ Py.dq) s))
    else String c (Py.replace Py.dq (Py.dq ++ Py.dq) s).
Proof.
  change (Py.dq ++ Py.dq) with (String Py.dquote Py.dq).
  unfold Py.replace, Py.dq.
  cbn [Py.replace_go Py.startswith String.length Nat.pred andb].
  destruct (Ascii.eqb Py.dquote c); reflexivity.
Qed.

Lemma collapse_pair r :
  Py.replace (Py.dq ++ Py.dq) Py.dq (String Py.dquote (String Py.dquote r))
  = String Py.dquote (Py.replace (Py.dq ++ Py.dq) Py.dq r).
Proof.
  change (Py.dq ++ Py.dq) with (String Py.dquote Py.dq).
  unfold Py.replace, Py.dq.
  cbn [Py.replace_go Py.startswith String.length Nat.pred andb].
  rewrite Ascii.eqb_refl. reflexivity.
Qed.

Lemma collapse_other c r :
  c <> Py.dquote ->
  Py.replace (Py.dq ++ Py.dq) Py.dq (String c r)
  = String c (Py.replace (Py.dq ++ Py.dq) Py.dq r).
Proof.
  intros Hc. change (Py.dq ++ Py.dq) with (String Py.dquote Py.dq).
  unfold Py.replace, Py.dq.
  cbn [Py.replace_go Py.startswith String.length Nat.pred andb].
  destruct (Ascii.eqb_spec Py.dquote c) as [E|_]; [congruence|reflexivity].
Qed.

Lemma collapse_double s :
  Py.replace (Py.dq ++ Py.dq) Py.dq (Py.replace Py.dq (Py.dq ++ Py.dq) s) = s.
Proof.
  induction s as [|c s IH]; [reflexivity|].
  rewrite double_cons.
  destruct (Ascii.eqb_spec Py.dquote c) as [<-|Hc].
  - rewrite collapse_pair, IH. reflexivity.
  - rewrite collapse_other by congruence. rewrite IH. reflexivity.
Qed.

Lemma drop_last_app_char s c : Py.drop_last (s ++ String c EmptyString) = s.
Proof.
  induction s as [|d s IH]; [reflexivity|].
  change (String d s ++ String c EmptyString) with (String d (s ++ String c EmptyString)).
  destruct (s ++ String c EmptyString) as [|a r] eqn:E.
  - destruct s; discriminate E.
  - cbn [Py.drop_last]. f_equal. exact IH.
Qed.

Lemma slice_quoted s : Py.slice_1_m1 (quoted s) = Py.replace Py.dq (Py.dq ++ Py.dq) s.
Proof.
  unfold quoted, Py.slice_1_m1.
  change (Py.dq ++ ?x) with (String Py.dquote x).
  cbn [Py.drop_first]. apply drop_last_app_char.
Qed.

Lemma unquote_quoted s : unquote (quoted s) = s.
Proof. unfold unquote. rewrite slice_quoted. apply collapse_double. Qed.

Lemma format_s_plain tok : format_s " %s" tok = " " ++ tok.
Proof.
  unfold format_s, Py.replace. cbn. f_equal.
  induction tok as [|c tok IH]; [reflexivity|].
  change (String c tok ++ EmptyString) with (String c (tok ++ EmptyString)).
  congruence.
Qed.

Lemma format_s_opc tok : format_s " %s;*OPC?" tok = " " ++ tok ++ ";*OPC?".
Proof. reflexivity. Qed.

(** C3.  For every string [s]: the string-set path writes the name followed
    by [s] with its quotes doubled and wrapped in quotes; stripping the
    first and last character of that token and collapsing the doubled
    quotes gives [s]; and when the instrument answers the query with that
    token, the string-get path returns [s] unchanged. *)
Theorem C3_quote_unquote_roundtrip (s : string) :
  (forall p w,
     _setScpiString (VStr s) p w
     = txCmd (_name p ++ format_s (_formatString p) (quoted s)) p w)
  /\ unquote (quoted s) = s
  /\ (forall p w d,
        dev_receive (_name p ++ "?") (dev w) = (Reply (quoted s), d) ->
        _getString p w
        = (Ok (VStr s), p, World d (trace w ++ [Queried (_name p ++ "?")]))).
Proof.
  split; [reflexivity|]. split; [apply unquote_quoted|].
  intros p w d Hd.
  unfold _getString, bind, self, receiveScpi, lift_option, ret. cbn.
  rewrite Hd. cbn.
  change (Py.first_char (quoted s)) with (Some Py.dquote). cbn.
  rewrite unquote_quoted. reflexivity.
Qed.

End Quoting.

(** ** Scalar results *)

Section ScalarResults.
Context `{PyRuntime} `{Transport}.

(** *** The classes of the specification

    The classification as section 4.1 of the specification words it, to
    compare the code with: a token is Float if it contains a decimal point,
    else Integer if it is digits with an optional sign, else String; and a
    String token that begins with a quote is the text between its first and
    last character with every doubled quote collapsed. *)
Definition is_digit (c : ascii) : bool :=
  match Py.digit_value c with
  | Some _ => true
  | None => false
  end.

Fixpoint all_digits (s : string) : bool :=
  match s with
  | EmptyString => true
  | String c rest => is_digit c && all_digits rest
  end.

Definition signed_digits (token : string) : bool :=
  match token with
  | String "-"%char rest => Py.truthy rest && all_digits rest
  | String "+"%char rest => Py.truthy rest && all_digits rest
  | _ => Py.truthy token && all_digits token
  end.

Definition spec_classify (token : string) : pytype :=
  if contains "."%char token then TFloat
  else if signed_digits token then TInt
  else TStr.

Definition spec_string (token : string) : string :=
  match Py.first_char token with
  | Some c => if Ascii.eqb c Py.dquote then unquote token else token
  | None => token
  end.

(** *** [int] on digits with an optional sign *)

Lemma digit_not_space c : is_digit c = true -> Py.is_space c = false.
Proof. destruct c as [[] [] [] [] [] [] [] []]; try reflexivity; discriminate. Qed.

Lemma digits_go_all s acc after :
  all_digits s = true -> s <> EmptyString \/ after = true ->
  is_Some (Py.digits_go s acc after).
Proof.
  revert acc after. induction s as [|c s IH]; intros acc after Hs Hne.
  - destruct Hne as [Hne| ->]; [contradiction|]. cbn. eauto.
  - cbn [all_digits] in Hs. apply andb_true_iff in Hs as [Hc Hs].
    cbn [Py.digits_go]. unfold is_digit in Hc.
    destruct (Py.digit_value c) as [d|]; [|discriminate].
    apply IH; [exact Hs|right; reflexivity].
Qed.

Lemma digits_all s : Py.truthy s = true -> all_digits s = true -> is_Some (Py.digits s).
Proof.
  intros Ht Hs. destruct s as [|c s]; [discriminate|].
  unfold Py.digits. pose proof Hs as Hs'. cbn [all_digits] in Hs'.
  apply andb_true_iff in Hs' as [Hc _]. unfold is_digit in Hc.
  destruct (Py.digit_value c) as [d|] eqn:Hd; [|discriminate].
  apply digits_go_all; [exact Hs|left; discriminate].
Qed.

Lemma rstrip_space_digits s : all_digits s = true -> Py.rstrip_space s = s.
Proof.
  induction s as [|c s IH]; intros Hs; [reflexivity|].
  cbn [all_digits] in Hs. apply andb_true_iff in Hs as [Hc Hs].
  cbn [Py.rstrip_space]. rewrite (IH Hs). destruct s; [|reflexivity].
  rewrite (digit_not_space c Hc). reflexivity.
Qed.

Lemma int_digits s : Py.truthy s = true -> all_digits s = true -> is_Some (Py.int s).
Proof.
  intros Ht Hs. destruct s as [|c s]; [discriminate|].
  pose proof Hs as Hs'. cbn [all_digits] in Hs'. apply andb_true_iff in Hs' as [Hc _].
  assert (Py.strip_space (String c s) = String c s) as E.
  { unfold Py.strip_space. cbn [Py.lstrip_space]. rewrite (digit_not_space c Hc).
    apply rstrip_space_digits. exact Hs. }
  unfold Py.int. rewrite E.
  destruct (digits_all (String c s) Ht Hs) as [z Hz].
  destruct (Ascii.eqb_spec c "-") as [-> |Hm]; [discriminate Hc|].
  destruct (Ascii.eqb_spec c "+") as [-> |Hp]; [discriminate Hc|].
  assert (match String c s with
          | String "-"%char rest => Z.opp <$> Py.digits rest
          | String "+"%char rest => Py.digits rest
          | t => Py.digits t
          end = Py.digits (String c s)) as ->.
  { clear -Hm Hp. destruct c as [[] [] [] [] [] [] [] []]; try reflexivity; congruence. }
  eauto.
Qed.

Lemma int_signed c s :
  c = "-"%char \/ c = "+"%char ->
  Py.truthy s = true -> all_digits s = true -> is_Some (Py.int (String c s)).
Proof.
  intros Hc Ht Hs.
  assert (Py.strip_space (String c s) = String c s) as E.
  { unfold Py.strip_space.
    assert (Py.lstrip_space (String c s) = String c s) as ->
      by (destruct Hc as [->| ->]; reflexivity).
    cbn [Py.rstrip_space]. rewrite (rstrip_space_digits s Hs).
    destruct s; [discriminate|reflexivity]. }
  unfold Py.int. rewrite E. destruct (digits_all s Ht Hs) as [z Hz].
  destruct Hc as [->| ->]; cbv iota; rewrite Hz; cbn; eauto.
Qed.

(** A token of digits with an optional sign is an integer for [int]. *)
Lemma int_signed_digits token : signed_digits token = true -> is_Some (Py.int token).
Proof.
  intros Hs. destruct token as [|c s]; [discriminate|].
  destruct (Ascii.eqb_spec c "-") as [-> |Hm].
  { cbn in Hs. apply andb_true_iff in Hs as [Ht Hd]. apply int_signed; auto. }
  destruct (Ascii.eqb_spec c "+") as [-> |Hp].
  { cbn in Hs. apply andb_true_iff in Hs as [Ht Hd]. apply int_signed; auto. }
  assert (signed_digits (String c s) = Py.truthy (String c s) && all_digits (String c s))
    as E.
  { clear -Hm Hp. destruct c as [[] [] [] [] [] [] [] []]; try reflexivity; congruence. }
  rewrite E in Hs. apply andb_true_iff in Hs as [Ht Hd]. apply int_digits; assumption.
Qed.

Lemma has_point_find token : (-1 <? Py.find "."%char token) = contains "."%char token.
Proof.
  destruct (contains "."%char token) eqn:E.
  - apply Z.ltb_lt. unfold Py.find.
    destruct (find_from_contains "."%char token 0 ltac:(lia)) as [_ Hc].
    specialize (Hc E). lia.
  - apply find_absent in E. rewrite E. reflexivity.
Qed.

(** Where the code and the classes of the specification meet: a token
    that is not empty, that [float] reads when the specification calls it a
    Float, and that [int] does not read when the specification calls it a
    String.  The value is then of the class the specification gives. *)
Lemma decode_value_spec_class value :
  value <> EmptyString ->
  (spec_classify value = TFloat -> is_Some (float_of_str value)) ->
  (spec_classify value = TStr -> Py.int value = None) ->
  exists v,
    decode_value value = Ok v
    /\ type_of v = spec_classify value
    /\ (forall z, v = VInt z -> Py.int value = Some z)
    /\ (forall x, v = VFloat x -> float_of_str value = Some x)
    /\ (forall s, v = VStr s ->
                  (Py.first_char value = Some Py.dquote ->
                   unquote value = Py.slice_1_m1 value) ->
                  s = spec_string value).
Proof.
  intros Hne Hfloat Hstr. unfold decode_value, to_number, spec_classify in *.
  rewrite has_point_find. destruct (contains "."%char value) eqn:Hp.
  - destruct (Hfloat eq_refl) as [x Hx]. rewrite Hx. cbn.
    exists (VFloat x). split; [reflexivity|]. split; [reflexivity|].
    split; [discriminate|]. split; [intros y [= <-]; reflexivity|discriminate].
  - destruct (signed_digits value) eqn:Hd.
    + destruct (int_signed_digits value Hd) as [z Hz]. rewrite Hz. cbn.
      exists (VInt z). split; [reflexivity|]. split; [reflexivity|].
      split; [intros y [= <-]; reflexivity|]. split; discriminate.
    + rewrite (Hstr eq_refl). cbn. unfold spec_string.
      destruct (Py.first_char value) as [c|] eqn:Hc.
      2: { destruct value; [contradiction|discriminate Hc]. }
      destruct (Ascii.eqb_spec c Py.dquote) as [-> |Hq].
      * exists (VStr (Py.slice_1_m1 value)). split; [reflexivity|]. split; [reflexivity|].
        split; [discriminate|]. split; [discriminate|].
        intros s [= <-] Hu. symmetry. apply Hu. reflexivity.
      * exists (VStr value). split; [reflexivity|]. split; [reflexivity|].
        split; [discriminate|]. split; [discriminate|].
        intros s [= <-] _. reflexivity.
Qed.

Lemma decodeResult_tokens r flag value scpiName :
  Py.split ","%char r = [flag; value] ->
  _decodeResult r scpiName
  = match Py.int flag with
    | None =>
        Raise (OntRemoteError ("ScpiResult " ++ scpiName ++ ": Problem decoding valid flag"))
    | Some n =>
        if n =? 1
        then match decode_value value with
             | Ok v => Ok (true, v)
             | Raise e => Raise e
             end
        else Ok (false, VNone)
    end.
Proof.
  intros Hs. unfold _decodeResult. rewrite Hs.
  destruct (Py.int flag) as [n|]; [|reflexivity].
  destruct (n =? 1); reflexivity.
Qed.

(** C2, as amended.  For a reply of two tokens [flag,value]:
    - a flag that is no integer makes the decode fail with the
      [OntRemoteError] for a bad valid flag;
    - a flag that is the integer 1 gives a valid result whose value is
      classified as the specification has it: for a second token that is
      not empty, that [float] reads when the specification calls it a
      Float, and that [int] does not read when the specification calls it
      a String, the value has the class the specification gives; an
      integer or a float is the number the token denotes, and a string
      is the string the specification gives, unless it is a quoted text
      with a doubled quote inside;
    - a flag that is any other integer, 0 in particular, gives an invalid
      result with an absent value, whatever the second token is, and
      [Result.get], [Result.final] and [ResultGroup.get] return [None]
      for it. *)
Theorem C2_decode_scalar_result (r flag value scpiName : string) :
  Py.split ","%char r = [flag; value] ->
  (Py.int flag = None ->
     _decodeResult r scpiName
     = Raise (OntRemoteError ("ScpiResult " ++ scpiName ++ ": Problem decoding valid flag")))
  /\ (Py.int flag = Some 1 ->
        value <> EmptyString ->
        (spec_classify value = TFloat -> is_Some (float_of_str value)) ->
        (spec_classify value = TStr -> Py.int value = None) ->
        exists v,
          _decodeResult r scpiName = Ok (true, v)
          /\ type_of v = spec_classify value
          /\ (forall z, v = VInt z -> Py.int value = Some z)
          /\ (forall x, v = VFloat x -> float_of_str value = Some x)
          /\ (forall s, v = VStr s ->
                        (Py.first_char value = Some Py.dquote ->
                         unquote value = Py.slice_1_m1 value) ->
                        s = spec_string value))
  /\ (forall n, Py.int flag = Some n -> n <> 1 ->
        _decodeResult r scpiName = Ok (false, VNone)
        /\ (forall t w d,
              dev_receive (Result.name t ++ "?") (dev w) = (Reply r, d) ->
              Result.get t w
              = (Ok VNone, t, World d (trace w ++ [Queried (Result.name t ++ "?")])))
        /\ (forall t w d,
              let cmd := ":SENS:DATA:FIN? " ++ Py.dq ++ Result.name t ++ Py.dq in
              dev_receive cmd (dev w) = (Reply r, d) ->
              Result.final t w = (Ok VNone, t, World d (trace w ++ [Queried cmd])))
        /\ (forall key, ResultGroup.collect [r] [(key, scpiName)] 0 ∅
                        = Ok (<[key := VNone]> ∅))).
Proof.
  intros Hs. pose proof (decodeResult_tokens r flag value scpiName Hs) as E.
  split; [|split].
  - intros Hf. rewrite E, Hf. reflexivity.
  - intros Hf Hne Hfloat Hstr. rewrite Hf in E. cbn in E.
    destruct (decode_value_spec_class value Hne Hfloat Hstr) as (v & Hv & Hrest).
    exists v. rewrite E, Hv. split; [reflexivity|exact Hrest].
  - intros n Hf Hn.
    assert (forall name, _decodeResult r name = Ok (false, VNone)) as Hd.
    { intros name. rewrite (decodeResult_tokens r flag value name Hs), Hf.
      destruct (Z.eqb_spec n 1); [contradiction|reflexivity]. }
    split; [apply Hd|]. split; [|split].
    + intros t w d Hq.
      unfold Result.get, bind, self, receiveScpi, lift_outcome, ret. cbn.
      rewrite Hq. cbn. rewrite Hd. reflexivity.
    + intros t w d cmd Hq.
      unfold Result.final, bind, self, receiveScpi, lift_outcome, ret. cbn.
      fold cmd. rewrite Hq. cbn. rewrite Hd. reflexivity.
    + intros key. cbn. rewrite Hd. reflexivity.
Qed.

End ScalarResults.

Section ScalarResultExamples.
Import Demo.

(** The reply [0,999]: invalid, no value, whatever follows the flag; and
    valid replies with an integer, a float and a quoted string. *)
Lemma C2_decode_scalar_result_witness :
  _decodeResult "0,999" ":SENS:DATA:X" = Ok (false, VNone)
  /\ (exists v, _decodeResult "1,42" ":SENS:DATA:X" = Ok (true, v) /\ type_of v = TInt)
  /\ (exists v, _decodeResult "1,4.5" ":SENS:DATA:X" = Ok (true, v) /\ type_of v = TFloat)
  /\ (exists v, _decodeResult ("1," ++ Py.dq ++ "abc" ++ Py.dq) ":SENS:DATA:X" = Ok (true, v)
                /\ (forall s, v = VStr s -> s = "abc") /\ type_of v = TStr).
Proof.
  split; [|split; [|split]].
  - exact (proj1 (proj2 (proj2
             (C2_decode_scalar_result "0,999" "0" "999" ":SENS:DATA:X" eq_refl))
             0 eq_refl ltac:(discriminate))).
  - destruct (C2_decode_scalar_result "1,42" "1" "42" ":SENS:DATA:X" eq_refl)
      as (_ & P & _).
    destruct (P eq_refl ltac:(discriminate) ltac:(discriminate) ltac:(discriminate))
      as (v & Hv & Ht & _).
    exists v. split; [exact Hv|exact Ht].
  - destruct (C2_decode_scalar_result "1,4.5" "1" "4.5" ":SENS:DATA:X" eq_refl)
      as (_ & P & _).
    assert (is_Some (float_of_str "4.5")) as Hf by (eexists; reflexivity).
    destruct (P eq_refl ltac:(discriminate) (fun _ => Hf) ltac:(discriminate))
      as (v & Hv & Ht & _).
    exists v. split; [exact Hv|exact Ht].
  - destruct (C2_decode_scalar_result ("1," ++ Py.dq ++ "abc" ++ Py.dq) "1"
                (Py.dq ++ "abc" ++ Py.dq) ":SENS:DATA:X" eq_refl)
      as (_ & P & _).
    destruct (P eq_refl ltac:(discriminate) ltac:(discriminate) (fun _ => eq_refl))
      as (v & Hv & Ht & _ & _ & Hs).
    exists v. split; [exact Hv|]. split; [|exact Ht].
    intros s E. exact (Hs s E (fun _ => eq_refl)).
Defined.

(** Where the code leaves the claim.
    - The flag [2] is an integer that is neither 0 nor 1, and the decode
      does not fail: it gives an invalid result.
    - A quoted text with a point in it is a Float for the specification;
      [float] refuses it and the code keeps it as a string.
    - A token with a blank before its digits is a String for the
      specification; [int] reads it and the code gives the integer.
    - An empty second token ends the decode with [IndexError].
    - A quoted text with a doubled quote in it keeps the doubled quote,
      where the specification collapses it. *)
Lemma C2_flag_two_is_not_refused :
  (Py.int "2" = Some 2
   /\ _decodeResult "2,5" ":SENS:DATA:X" = Ok (false, VNone)
   /\ Result.get (Result.__init__ ":SENS:DATA:X?") (world_of [(":SENS:DATA:X?", "2,5")])
      = (Ok VNone, Result.__init__ ":SENS:DATA:X?",
         World (Device [(":SENS:DATA:X?", "2,5")] (Some (37, 0, 2, 0)))
               [Queried ":SENS:DATA:X?"]))
  /\ (spec_classify (Py.dq ++ "v1.2" ++ Py.dq) = TFloat
      /\ _decodeResult ("1," ++ Py.dq ++ "v1.2" ++ Py.dq) ":X" = Ok (true, VStr "v1.2"))
  /\ (spec_classify " 5" = TStr /\ _decodeResult "1, 5" ":X" = Ok (true, VInt 5))
  /\ _decodeResult "1," ":X" = Raise IndexError
  /\ (spec_string (Py.dq ++ "a" ++ Py.dq ++ Py.dq ++ "b" ++ Py.dq) = "a" ++ Py.dq ++ "b"
      /\ _decodeResult ("1," ++ Py.dq ++ "a" ++ Py.dq ++ Py.dq ++ "b" ++ Py.dq) ":X"
         = Ok (true, VStr ("a" ++ Py.dq ++ Py.dq ++ "b"))).
Proof. repeat split. Qed.

Example decode_valid_int : _decodeResult "1,42" ":X" = Ok (true, VInt 42).
Proof. reflexivity. Qed.

Example decode_valid_float : _decodeResult "1,4.5" ":X" = Ok (true, VFloat "4.5").
Proof. reflexivity. Qed.

Example decode_valid_string :
  _decodeResult ("1," ++ Py.dq ++ "abc" ++ Py.dq) ":X" = Ok (true, VStr "abc")
  /\ _decodeResult "1,ON" ":X" = Ok (true, VStr "ON")
  /\ _decodeResult "1," ":X" = Raise IndexError.
Proof. repeat split. Qed.

Example decode_bad_flag :
  _decodeResult "x,5" ":X" = Raise (OntRemoteError "ScpiResult :X: Problem decoding valid flag")
  /\ _decodeResult "1,2,3" ":X"
     = Raise (OntRemoteError "ScpiResult :X: Unexpected number of return values").
Proof. repeat split. Qed.

End ScalarResultExamples.

(** ** Vector results *)

Section VectorResults.
Context `{PyRuntime} `{Transport}.

(** C5, as the code has it.  When the leading token of the reply converts
    to an integer below 0, [_readValues] gives an invalid envelope with an
    empty list of values, and [BlockResult.get] returns [None] for it,
    whatever window was asked for. *)
Theorem C5_invalid_block_result
    (t : BlockResult.t) (w : world) (index : Z) (length : option Z)
    (reply v0 : string) (rest : list string) (count : Z) (d : conn) :
  let cmd := match length with
             | None => BlockResult.name t ++ ":BLOC?"
             | Some n => BlockResult.name t ++ "? " ++ BlockParameter.fmt_dd index n
             end in
  dev_receive cmd (dev w) = (Reply reply, d) ->
  Py.split ","%char reply = v0 :: rest ->
  Py.int v0 = Some count ->
  count < 0 ->
  BlockResult._readValues cmd t w = (Ok (false, []), t, World d (trace w ++ [Queried cmd]))
  /\ BlockResult.get index length t w
     = (Ok BlockResult.RNone, t, World d (trace w ++ [Queried cmd])).
Proof.
  intros cmd Hq Hs Hi Hc.
  assert (BlockResult._readValues cmd t w
          = (Ok (false, []), t, World d (trace w ++ [Queried cmd]))) as E.
  { unfold BlockResult._readValues, bind, receiveScpi, lift_option, ret. cbn.
    rewrite Hq. cbn. rewrite Hs. cbn. rewrite Hi.
    destruct (Z.ltb_spec (-1) count); [lia|reflexivity]. }
  split; [exact E|].
  unfold BlockResult.get, bind at 1, self. cbn. fold cmd.
  unfold bind. rewrite E. reflexivity.
Qed.














End VectorResults.

Section VectorResultExamples.
Import Demo.

(** A reply with a negative count: [get] returns [None], not a list. *)
Lemma C5_get_returns_None :
  BlockResult.get 0 None (BlockResult.__init__ ":X:BLOC?") (world_of [(":X:BLOC?", "-1")])
  = (Ok BlockResult.RNone, BlockResult.__init__ ":X:BLOC?",
     World (Device [(":X:BLOC?", "-1")] (Some (37, 0, 2, 0))) [Queried ":X:BLOC?"]).
Proof. reflexivity. Qed.

Lemma C5_invalid_block_result_witness :
  BlockResult._readValues ":X:BLOC?" (BlockResult.__init__ ":X:BLOC?")
    (world_of [(":X:BLOC?", "-1,7")])
  = (Ok (false, []), BlockResult.__init__ ":X:BLOC?",
     World (Device [(":X:BLOC?", "-1,7")] (Some (37, 0, 2, 0))) [Queried ":X:BLOC?"]).
Proof.
  exact (proj1 (C5_invalid_block_result
                  (BlockResult.__init__ ":X:BLOC?") (world_of [(":X:BLOC?", "-1,7")])
                  0 None "-1,7" "-1" ["7"] (-1) _ eq_refl eq_refl eq_refl eq_refl)).
Defined.

(** Outside that layout, with five tokens after the count 2: the count is
    not half of five, and the call does not fail; the odd token is
    ignored, because the check divides and rounds down. *)
Example odd_token_is_accepted :
  Py.split ","%char "2,1,5,0,7,9" = ["2"; "1"; "5"; "0"; "7"; "9"]
  /\ ExtendedBlockResult.get 0 None (ExtendedBlockResult.__init__ ":X:EBLOC?")
       (world_of [(":X:EBLOC?", "2,1,5,0,7,9")])
     = (Ok (ExtendedBlockResult.RValues [VInt 5; VNone]),
        ExtendedBlockResult.__init__ ":X:EBLOC?",
        World (Device [(":X:EBLOC?", "2,1,5,0,7,9")] (Some (37, 0, 2, 0)))
              [Queried ":X:EBLOC?"]).
Proof. split; reflexivity. Qed.


Example extended_inconsistent :
  ExtendedBlockResult.get 0 None (ExtendedBlockResult.__init__ ":X:EBLOC?")
    (world_of [(":X:EBLOC?", "3,1,5,0,7")])
  = (Raise (OntRemoteError
       "ExtendedBlockResult :X:EBLOC?: Inconsistent result reported: length: 3 / No of items: 2"),
     ExtendedBlockResult.__init__ ":X:EBLOC?",
     World (Device [(":X:EBLOC?", "3,1,5,0,7")] (Some (37, 0, 2, 0))) [Queried ":X:EBLOC?"]).
Proof. reflexivity. Qed.

End VectorResultExamples.

(** ** Relations kept by a method *)

Section Keeps.
Context `{Transport}.

(** [keeps R m]: the fields after [m], whatever it returns, are related by
    [R] to the fields before. *)
Definition keeps {S A} (R : S -> S -> Prop) (m : M S A) : Prop :=
  forall s w, R s (m s w).1.2.

Context {S : Type} (R : S -> S -> Prop) `{!PreOrder R}.

Lemma keeps_ret {A} (a : A) : keeps R (ret a).
Proof. intros s w. reflexivity. Qed.

Lemma keeps_raise {A} e : keeps R (@raise _ S A e).
Proof. intros s w. reflexivity. Qed.

Lemma keeps_self : keeps R (@self _ S).
Proof. intros s w. reflexivity. Qed.

Lemma keeps_update f : (forall s, R s (f s)) -> keeps R (update f).
Proof. intros Hf s w. apply Hf. Qed.

Lemma keeps_sendScpi cmd : keeps R (@sendScpi _ S cmd).
Proof. intros s w. unfold sendScpi. destruct (dev_send cmd (dev w)). reflexivity. Qed.

Lemma keeps_receiveScpi cmd : keeps R (@receiveScpi _ S cmd).
Proof. intros s w. unfold receiveScpi. destruct (dev_receive cmd (dev w)). reflexivity. Qed.

Lemma keeps_lift_option {A} e (o : option A) : keeps R (@lift_option _ S A e o).
Proof. destruct o; [apply keeps_ret|apply keeps_raise]. Qed.

Lemma keeps_lift_outcome {A} (r : outcome A) : keeps R (@lift_outcome _ S A r).
Proof. destruct r; [apply keeps_ret|apply keeps_raise]. Qed.

Lemma keeps_bind {A B} (m : M S A) (k : A -> M S B) :
  keeps R m -> (forall a, keeps R (k a)) -> keeps R (bind m k).
Proof.
  intros Hm Hk s w. unfold bind. specialize (Hm s w).
  destruct (m s w) as [[[a|e] s'] w']; cbn in *; [|exact Hm].
  etransitivity; [exact Hm|apply Hk].
Qed.

Lemma keeps_call {T A} (m : M T A) (t : T) : keeps R (@call _ S T A m t).
Proof.
  intros s w. unfold call. destruct (m t w) as [[[a|e] t'] w']; reflexivity.
Qed.

Lemma keeps_forget {A} (m : M S A) : keeps R m -> keeps R (forget m).
Proof. intros Hm. apply keeps_bind; [exact Hm|intros; apply keeps_ret]. Qed.

End Keeps.

(** [k lem]: apply a lemma of this section and find the preorder. *)
Tactic Notation "k" open_constr(lem) := apply lem; try typeclasses eauto.

Ltac keeps_step :=
  first
    [ k keeps_ret | k keeps_raise | k keeps_self
    | k keeps_sendScpi | k keeps_receiveScpi
    | k keeps_lift_option | k keeps_lift_outcome | k keeps_call
    | k keeps_bind; [|intros ?]
    | k keeps_update; intros ?; repeat split; reflexivity
    | match goal with
      | |- keeps _ (match ?x with _ => _ end) => destruct x
      | |- keeps _ (if ?x then _ else _) => destruct x
      end ].

Ltac keeps_auto := repeat keeps_step.

(** ** The stored snapshot *)

Section Stored.
Context `{PyRuntime} `{Transport}.

(** *** Scalar endpoints *)

Definition same_stored (p p' : ScalarParameter.t) : Prop :=
  ScalarParameter._storedValue p' = ScalarParameter._storedValue p.

#[local] Instance same_stored_preorder : PreOrder same_stored.
Proof. split; unfold same_stored; [intros ?|intros ? ? ?]; congruence. Qed.

Lemma txCmd_same_stored cmd : keeps same_stored (ScalarParameter.txCmd cmd).
Proof. unfold ScalarParameter.txCmd. keeps_auto. Qed.

Lemma configureType_same_stored : keeps same_stored ScalarParameter._configureType.
Proof. unfold ScalarParameter._configureType. keeps_auto. Qed.

Lemma set_at_same_stored depth value : keeps same_stored (ScalarParameter.set_at depth value).
Proof.
  induction depth as [|depth IH]; cbn [ScalarParameter.set_at].
  all: unfold ScalarParameter._set, ScalarParameter._setScpiString.
  all: repeat first [exact IH | apply txCmd_same_stored
                    | apply configureType_same_stored | keeps_step].
Qed.

Lemma get_same_stored : keeps same_stored ScalarParameter.get.
Proof.
  unfold ScalarParameter.get, ScalarParameter._getNumeric, ScalarParameter._getString.
  repeat first [apply configureType_same_stored | keeps_step].
Qed.

Lemma run_op_same_stored o p w :
  o <> OpStore -> same_stored p (run_op o p w).1.2.
Proof.
  intros Ho. destruct o; cbn [run_op]; try contradiction.
  all: unfold forget, ScalarParameter.set, ScalarParameter.range, ScalarParameter.restore,
         ScalarParameter.type, ScalarParameter.cat.
  all: refine ((_ : keeps same_stored _) p w).
  all: repeat first [apply set_at_same_stored | apply get_same_stored | keeps_step].
Qed.

Lemma run_ops_same_stored ops p w :
  Forall (fun o => o <> OpStore) ops -> same_stored p (run_ops ops p w).1.
Proof.
  intros Hops. revert p w.
  induction Hops as [|o ops Ho _ IH]; intros p w; [reflexivity|].
  cbn [run_ops]. pose proof (run_op_same_stored o p w Ho) as E.
  destruct (run_op o p w) as [[r p'] w']. cbn in E.
  etransitivity; [exact E|apply IH].
Qed.

(** *** Vector endpoints *)

Definition same_stored_block (p p' : BlockParameter.t) : Prop :=
  BlockParameter._storedValue p' = BlockParameter._storedValue p.

#[local] Instance same_stored_block_preorder : PreOrder same_stored_block.
Proof. split; unfold same_stored_block; [intros ?|intros ? ? ?]; congruence. Qed.

Lemma block_txCmd_same_stored cmd : keeps same_stored_block (BlockParameter.txCmd cmd).
Proof. unfold BlockParameter.txCmd. keeps_auto. Qed.

Lemma block_configureType_same_stored item :
  keeps same_stored_block (BlockParameter._configureType item).
Proof. unfold BlockParameter._configureType. keeps_auto. Qed.

Lemma block_set_at_same_stored depth index values :
  keeps same_stored_block (BlockParameter.set_at depth index values).
Proof.
  revert values. induction depth as [|depth IH]; intros values; cbn [BlockParameter.set_at].
  all: unfold BlockParameter._set, BlockParameter._setScpiString.
  all: repeat first [apply IH | apply block_txCmd_same_stored
                    | apply block_configureType_same_stored | keeps_step].
Qed.

Lemma block_parseValues_at_same_stored depth valueList :
  keeps same_stored_block (BlockParameter._parseValues_at depth valueList).
Proof.
  induction depth as [|depth IH]; cbn [BlockParameter._parseValues_at].
  all: unfold BlockParameter._parseNumericValues, BlockParameter._parseStringValues,
         BlockParameter._parseDiscreteValues.
  all: repeat first [apply IH | apply block_configureType_same_stored | keeps_step].
Qed.

Lemma block_get_same_stored index length :
  keeps same_stored_block (BlockParameter.get index length).
Proof.
  unfold BlockParameter.get, BlockParameter._parseValues.
  repeat first [apply block_parseValues_at_same_stored | keeps_step].
Qed.

Lemma run_block_op_same_stored o p w :
  o <> BOpStore -> same_stored_block p (run_block_op o p w).1.2.
Proof.
  intros Ho. destruct o; cbn [run_block_op]; try contradiction.
  all: unfold forget, BlockParameter.set, BlockParameter.restore,
         BlockParameter.type, BlockParameter.cat.
  all: refine ((_ : keeps same_stored_block _) p w).
  all: repeat first [apply block_set_at_same_stored | apply block_get_same_stored
                    | keeps_step].
Qed.

Lemma run_block_ops_same_stored ops p w :
  Forall (fun o => o <> BOpStore) ops -> same_stored_block p (run_block_ops ops p w).1.
Proof.
  intros Hops. revert p w.
  induction Hops as [|o ops Ho _ IH]; intros p w; [reflexivity|].
  cbn [run_block_ops]. pose proof (run_block_op_same_stored o p w Ho) as E.
  destruct (run_block_op o p w) as [[r p'] w']. cbn in E.
  etransitivity; [exact E|apply IH].
Qed.

(** C10.  On a scalar endpoint and on a vector endpoint alike: after any
    sequence of operations since construction that has no [store] in it,
    [restore] raises the [OntRemoteError] that asks for [store] first, and
    it leaves the object and the connection as they were: nothing is sent
    and nothing is queried. *)
Theorem C10_restore_before_store :
  (forall scpiName opcQuery ops w,
     Forall (fun o => o <> OpStore) ops ->
     let '(p, w1) := run_ops ops (ScalarParameter.__init__ scpiName opcQuery) w in
     ScalarParameter.restore p w1
     = (Raise (OntRemoteError
          "Parameter.restore(): the member function store() must have been called before."),
        p, w1))
  /\ (forall scpiName opcQuery ops w,
        Forall (fun o => o <> BOpStore) ops ->
        let '(p, w1) := run_block_ops ops (BlockParameter.__init__ scpiName opcQuery) w in
        BlockParameter.restore p w1
        = (Raise (OntRemoteError
             "BlockParameter.restore(): the member function store() must have been called before."),
           p, w1)).
Proof.
  split; intros scpiName opcQuery ops w Hops.
  - pose proof (run_ops_same_stored ops (ScalarParameter.__init__ scpiName opcQuery) w Hops) as E.
    destruct (run_ops ops _ w) as [p w1]. unfold same_stored in E. cbn in E.
    unfold ScalarParameter.restore, bind, self, raise. cbn. rewrite E. reflexivity.
  - pose proof (run_block_ops_same_stored ops
                  (BlockParameter.__init__ scpiName opcQuery) w Hops) as E.
    destruct (run_block_ops ops _ w) as [p w1]. unfold same_stored_block in E. cbn in E.
    unfold BlockParameter.restore, bind, self, raise. cbn. rewrite E. reflexivity.
Qed.

End Stored.

(** ** Type resolution of a scalar endpoint *)

Section Resolution.
Context `{PyRuntime} `{Transport}.
Import ScalarParameter.

(** What [_configureType] makes of a reply: the value it returns, the type
    it records and the methods it binds.  An empty reply is not classified:
    the call ends with [IndexError] before the type is recorded. *)
Definition classify (value : string) : option (pyval * pytype * set_impl * get_impl) :=
  match to_number value with
  | Some v => Some (v, type_of v, Bound__set, Bound__getNumeric)
  | None =>
      match Py.first_char value with
      | Some c =>
          Some (VStr value, TStr,
                if Ascii.eqb c Py.dquote then Bound__setScpiString else Bound__set,
                Bound__getString)
      | None => None
      end
  end.

Definition bound_to (ty : pytype) (sm : set_impl) (gm : get_impl) (p : t) : t :=
  Make (_name p) (Some ty) (_storedValue p) (_formatString p) (_txCmd p) (Some sm) (Some gm).

(** The bound writers and readers. *)
Definition run_set (m : set_impl) : pyval -> M t unit :=
  match m with
  | Bound__set => _set
  | Bound__setScpiString => _setScpiString
  end.

Definition run_get (m : get_impl) : M t pyval :=
  match m with
  | Bound__getNumeric => _getNumeric
  | Bound__getString => _getString
  end.

(** What a write of [value] through the bound method [m] puts on the wire:
    one command, or nothing when a string endpoint is given a value that is
    not a string. *)
Definition written (m : set_impl) (p : t) (value : pyval) : list io :=
  match m, value with
  | Bound__set, _ =>
      [io_of_tx (_txCmd p) (_name p ++ format_s (_formatString p) (py_str value))]
  | Bound__setScpiString, VStr s =>
      [io_of_tx (_txCmd p) (_name p ++ format_s (_formatString p) (quoted s))]
  | Bound__setScpiString, _ => []
  end.

(** The outcomes a write can have: done, refused by the connection, or, on
    a string endpoint, refused because the value is not a string. *)
Definition write_outcome (r : outcome unit) : Prop :=
  r = Ok tt \/ (exists msg, r = Raise (OntRemoteError msg)) \/ r = Raise AttributeError.

Lemma configureType_eq p w :
  _configureType p w
  = let '(r, d) := dev_receive (_name p ++ "?") (dev w) in
    let w1 := World d (trace w ++ [Queried (_name p ++ "?")]) in
    match r with
    | Fault msg => (Raise (OntRemoteError msg), p, w1)
    | Reply value =>
        match classify value with
        | Some (v, ty, sm, gm) => (Ok v, bound_to ty sm gm p, w1)
        | None => (Raise IndexError, with_set Bound__set p, w1)
        end
    end.
Proof.
  unfold _configureType, classify, bind, self, receiveScpi, update, lift_option, ret, raise.
  cbn. destruct (dev_receive _ _) as [[value|msg] d]; cbn; [|reflexivity].
  destruct (to_number value) as [v|]; cbn; [reflexivity|].
  destruct (Py.first_char value) as [c|]; cbn; [|reflexivity].
  destruct (Ascii.eqb c Py.dquote); reflexivity.
Qed.

Lemma txCmd_eq cmd p w :
  exists r d,
    txCmd cmd p w = (r, p, World d (trace w ++ [io_of_tx (_txCmd p) cmd]))
    /\ (r = Ok tt \/ exists msg, r = Raise (OntRemoteError msg)).
Proof.
  unfold txCmd, bind, self, sendScpi, receiveScpi, ret. cbn.
  destruct (_txCmd p); cbn.
  - destruct (dev_send cmd (dev w)) as [[[]|msg] d]; cbn; eauto 6.
  - destruct (dev_receive cmd (dev w)) as [[a|msg] d]; cbn; eauto 6.
Qed.

Lemma run_set_eq m value p w :
  exists r d,
    run_set m value p w = (r, p, World d (trace w ++ written m p value))
    /\ write_outcome r.
Proof.
  unfold write_outcome.
  destruct m; cbn [run_set written].
  - destruct (txCmd_eq (_name p ++ format_s (_formatString p) (py_str value)) p w)
      as (r & d & E & Hr).
    exists r, d. split; [exact E|]. tauto.
  - destruct value as [| | | |s];
      try (exists (Raise AttributeError), (dev w); rewrite app_nil_r; destruct w;
           split; [reflexivity|tauto]).
    destruct (txCmd_eq (_name p ++ format_s (_formatString p) (quoted s)) p w)
      as (r & d & E & Hr).
    exists r, d. split; [exact E|]. tauto.
Qed.

Lemma run_get_eq m p w :
  exists r d, run_get m p w = (r, p, World d (trace w ++ [Queried (_name p ++ "?")])).
Proof.
  destruct m; cbn [run_get].
  - unfold _getNumeric, bind, self, receiveScpi, lift_option, ret, raise. cbn.
    destruct (dev_receive _ _) as [[a|msg] d]; cbn; eauto.
    destruct (to_number a); eauto.
  - unfold _getString, bind, self, receiveScpi, lift_option, ret, raise. cbn.
    destruct (dev_receive _ _) as [[a|msg] d]; cbn; eauto.
    destruct (Py.first_char a); cbn; eauto.
Qed.

Lemma set_at_bound depth value p w m :
  attr_set p = Some m -> set_at depth value p w = run_set m value p w.
Proof.
  intros Hm. destruct depth; cbn [set_at]; unfold bind at 1, self; cbn; rewrite Hm.
  all: destruct m; reflexivity.
Qed.

Lemma set_at_unbound depth value p w :
  attr_set p = None -> _type p = None ->
  set_at (S depth) value p w = bind _configureType (fun _ => set_at depth value) p w.
Proof.
  intros Hs Ht. cbn [set_at]. unfold bind at 1, self. cbn. rewrite Hs, Ht. reflexivity.
Qed.

Lemma get_bound p w m : attr_get p = Some m -> get p w = run_get m p w.
Proof.
  intros Hm. unfold get, bind at 1, self. cbn. rewrite Hm. destruct m; reflexivity.
Qed.

(** What the method [get] of the class does with the value
    [_configureType] returns: a string that starts with a quote loses the
    quotes around it and has its doubled quotes collapsed. *)
Definition first_value (value : pyval) : M t pyval :=
  match value with
  | VStr s =>
      let! c := lift_option IndexError (Py.first_char s) in
      ret (VStr (if Ascii.eqb c Py.dquote then unquote s else s))
  | _ => ret value
  end.

Lemma first_value_state value p w : (first_value value p w).1.2 = p.
Proof.
  destruct value as [| | | |s]; try reflexivity.
  unfold first_value, bind, lift_option, ret, raise.
  destruct (Py.first_char s); reflexivity.
Qed.

Lemma get_unbound p w :
  attr_get p = None -> _type p = None ->
  get p w = bind _configureType first_value p w.
Proof.
  intros Hg Ht. unfold get, bind at 1, self. cbn. rewrite Hg, Ht. reflexivity.
Qed.

(** The first [set] of an endpoint.  On an endpoint whose type is not
    resolved and whose [set] is still the method of the class, when the
    instrument answers the endpoint's query with a reply that can be
    classified: [set(value)] issues that one query, binds the type and the
    methods the reply calls for, and then runs the bound writer on the
    value; the trace grows by the query followed by what the writer sends;
    and the call ends neither with the [AssertionError] of the unresolved
    state nor by running out of nested calls. *)
Theorem first_set_resolves_type
    (p : t) (w : world) (value : pyval) (reply : string) (d : conn)
    (v0 : pyval) (ty : pytype) (sm : set_impl) (gm : get_impl) :
  _type p = None ->
  attr_set p = None ->
  dev_receive (_name p ++ "?") (dev w) = (Reply reply, d) ->
  classify reply = Some (v0, ty, sm, gm) ->
  let p1 := bound_to ty sm gm p in
  let w1 := World d (trace w ++ [Queried (_name p ++ "?")]) in
  set value p w = run_set sm value p1 w1
  /\ exists r d',
       set value p w
       = (r, p1, World d' (trace w ++ Queried (_name p ++ "?") :: written sm p1 value))
       /\ write_outcome r
       /\ r <> Raise AssertionError /\ r <> Raise RecursionError.
Proof.
  intros Ht Hs Hq Hc p1 w1.
  assert (set value p w = run_set sm value p1 w1) as E.
  { unfold set, recursion_limit. rewrite set_at_unbound by assumption.
    unfold bind. rewrite configureType_eq, Hq, Hc. cbn zeta iota.
    apply set_at_bound. reflexivity. }
  split; [exact E|].
  destruct (run_set_eq sm value p1 w1) as (r & d' & E' & Hr).
  exists r, d'. rewrite E, E'. unfold w1. cbn [trace].
  rewrite <- app_assoc. cbn [app].
  split; [reflexivity|]. split; [exact Hr|].
  destruct Hr as [->|[[msg ->]| ->]]; split; discriminate.
Qed.

End Resolution.

(** ** Stability of the resolved type *)

Section Stability.
Context `{PyRuntime} `{Transport}.
Import ScalarParameter.

#[local] Arguments set_at : simpl never.

#[local] Instance same_binding_preorder : PreOrder same_binding.
Proof.
  split.
  - intros p. repeat split.
  - intros p q r. unfold same_binding. intros ? ?. intuition congruence.
Qed.

Lemma resolved_same_binding p p' : resolved p -> same_binding p p' -> resolved p'.
Proof.
  unfold resolved, same_binding. intros (? & ? & ?) (-> & -> & -> & _). auto.
Qed.

(** While no type is recorded, [get] is the method of the class. *)
Definition unresolved (p : t) : Prop := _type p = None /\ attr_get p = None.

(** The states an endpoint can be in. *)
Definition consistent (p : t) : Prop := unresolved p \/ resolved p.

Lemma init_consistent scpiName opcQuery : consistent (__init__ scpiName opcQuery).
Proof. left. split; reflexivity. Qed.

Lemma consistent_typed p : consistent p -> is_Some (_type p) -> resolved p.
Proof. intros [[Ht _]|Hr] Hty; [|exact Hr]. rewrite Ht in Hty. destruct Hty as [? [=]]. Qed.

Lemma bound_to_resolved ty sm gm p : resolved (bound_to ty sm gm p).
Proof. unfold resolved. cbn. eauto. Qed.

Lemma with_set_unresolved m p : unresolved p -> unresolved (with_set m p).
Proof. intros [? ?]. split; assumption. Qed.

Lemma with_storedValue_consistent v p : consistent p -> consistent (with_storedValue v p).
Proof. intros [[? ?]|(? & ? & ?)]; [left|right]; repeat split; assumption. Qed.

Lemma get_consistent p w :
  consistent p ->
  consistent (get p w).1.2 /\ (is_Ok (get p w).1.1 = true -> resolved (get p w).1.2).
Proof.
  intros [[Ht Hg]|Hr].
  - rewrite get_unbound by assumption. unfold bind. rewrite configureType_eq.
    destruct (dev_receive _ _) as [[value|msg] d]; cbn zeta iota.
    + destruct (classify value) as [[[[v ty] sm] gm]|]; cbn.
      * rewrite first_value_state. split; [right|intros _]; apply bound_to_resolved.
      * split; [left; apply with_set_unresolved; split; assumption|discriminate].
    + cbn. split; [left; split; assumption|discriminate].
  - destruct Hr as (Hty & Hs & [gm Hg]).
    rewrite (get_bound _ _ gm Hg).
    destruct (run_get_eq gm p w) as (r & d & ->). cbn.
    split; [right|intros _]; repeat split; eauto.
Qed.

Lemma set_at_consistent value p w :
  consistent p -> consistent (set value p w).1.2.
Proof.
  intros Hc. unfold set, recursion_limit.
  destruct (attr_set p) as [sm|] eqn:Hs.
  { rewrite (set_at_bound _ _ _ _ sm Hs).
    destruct (run_set_eq sm value p w) as (r & d & -> & _). exact Hc. }
  destruct Hc as [[Ht Hg]|(_ & [sm Hsm] & _)]; [|congruence].
  rewrite set_at_unbound by assumption. unfold bind. rewrite configureType_eq.
  destruct (dev_receive _ _) as [[reply|msg] d]; cbn zeta iota.
  - destruct (classify reply) as [[[[v ty] sm] gm]|]; cbn.
    + rewrite (set_at_bound _ _ _ _ sm) by reflexivity.
      destruct (run_set_eq sm value (bound_to ty sm gm p)
                  (World d (trace w ++ [Queried (_name p ++ "?")]))) as (r & d' & -> & _).
      right. apply bound_to_resolved.
    + left. apply with_set_unresolved. split; assumption.
  - left. split; assumption.
Qed.

Lemma forget_state {A} (m : M t A) p w : (forget m p w).1.2 = (m p w).1.2.
Proof. unfold forget, bind, ret. destruct (m p w) as [[[a|e] p'] w']; reflexivity. Qed.

#[local] Instance same_state_preorder : PreOrder (@eq t).
Proof. split; [intros ?; reflexivity|intros ? ? ?; congruence]. Qed.

(** Every operation takes a consistent state to a consistent state. *)
Lemma run_op_consistent o p w : consistent p -> consistent (run_op o p w).1.2.
Proof.
  intros Hc. destruct o; cbn [run_op]; rewrite ?forget_state.
  - apply get_consistent. exact Hc.
  - apply set_at_consistent. exact Hc.
  - assert (keeps eq range) as Hk by (unfold range; keeps_auto).
    rewrite <- (Hk p w). exact Hc.
  - unfold store, bind. destruct (get_consistent p w Hc) as [Hc1 _].
    destruct (get p w) as [[[v|ex] p1] w1]; cbn in *; [|exact Hc1].
    apply with_storedValue_consistent. exact Hc1.
  - unfold restore, bind at 1, self. cbn.
    destruct (_storedValue p); try exact Hc; apply set_at_consistent; exact Hc.
  - unfold type, bind at 1, self. cbn.
    destruct (_type p) eqn:Ht; [exact Hc|].
    unfold bind. destruct (get_consistent p w Hc) as [Hc1 Hok].
    destruct (get p w) as [[[v|ex] p1] w1]; cbn in *; [|exact Hc1].
    right. destruct (Hok eq_refl) as (_ & Hs & Hg). repeat split; cbn; eauto.
  - assert (keeps eq cat) as Hk by (unfold cat; keeps_auto).
    rewrite <- (Hk p w). exact Hc.
Qed.

Lemma run_ops_consistent ops p w : consistent p -> consistent (run_ops ops p w).1.
Proof.
  revert p w. induction ops as [|o ops IH]; intros p w Hc; [exact Hc|].
  cbn [run_ops]. pose proof (run_op_consistent o p w Hc) as Hc1.
  destruct (run_op o p w) as [[r p'] w']. apply IH. exact Hc1.
Qed.

Lemma run_get_same_binding m : keeps same_binding (run_get m).
Proof.
  intros p w. destruct (run_get_eq m p w) as (r & d & ->). reflexivity.
Qed.

Lemma run_set_same_binding m value : keeps same_binding (run_set m value).
Proof.
  intros p w. destruct (run_set_eq m value p w) as (r & d & -> & _). reflexivity.
Qed.

(** On a resolved endpoint no operation changes the type or the bound
    methods. *)
Lemma run_op_same_binding o p w : resolved p -> same_binding p (run_op o p w).1.2.
Proof.
  intros ([ty Ht] & [sm Hs] & [gm Hg]).
  destruct o; cbn [run_op]; unfold forget.
  - unfold bind. rewrite (get_bound _ _ gm Hg).
    destruct (run_get_eq gm p w) as (r & d & ->). destruct r; reflexivity.
  - unfold set. rewrite (set_at_bound _ _ _ _ sm Hs). apply run_set_same_binding.
  - refine ((_ : keeps same_binding _) p w). unfold range. keeps_auto.
  - unfold store, bind. rewrite (get_bound _ _ gm Hg).
    destruct (run_get_eq gm p w) as (r & d & ->). destruct r; [|reflexivity].
    cbn. repeat split.
  - unfold restore, bind at 1, self. cbn.
    destruct (_storedValue p); try reflexivity.
    all: unfold set; rewrite (set_at_bound _ _ _ _ sm Hs); apply run_set_same_binding.
  - unfold type, bind, self. cbn. rewrite Ht. reflexivity.
  - refine ((_ : keeps same_binding _) p w). unfold cat. keeps_auto.
Qed.

Lemma run_ops_same_binding ops p w : resolved p -> same_binding p (run_ops ops p w).1.
Proof.
  revert p w. induction ops as [|o ops IH]; intros p w Hp; [reflexivity|].
  cbn [run_ops]. pose proof (run_op_same_binding o p w Hp) as E.
  destruct (run_op o p w) as [[r p'] w']. cbn in E.
  etransitivity; [exact E|]. apply IH. eapply resolved_same_binding; eauto.
Qed.

(** C1.  Take an endpoint at any moment of its life: constructed, and
    then used through any sequence of operations.  If a type is recorded
    at that moment, which only a [get] or [set] that classified a reply can
    have done, then:
    - both bound methods are there;
    - whatever operations follow, in any number and whatever they return,
      the recorded type and the bound methods stay the same;
    - in every state reached that way, [get] issues exactly one query, the
      one for the value, and [set] sends at most one command, the write
      itself, and neither changes the object: no query is spent on the
      type again. *)
Theorem C1_resolved_type_is_stable
    (scpiName : string) (opcQuery : bool) (history : list op) (w0 : world) :
  let p := (run_ops history (__init__ scpiName opcQuery) w0).1 in
  let w := (run_ops history (__init__ scpiName opcQuery) w0).2 in
  is_Some (_type p) ->
  resolved p
  /\ (forall ops, same_binding p (run_ops ops p w).1)
  /\ (forall p' w', same_binding p p' ->
        (exists r d,
           get p' w' = (r, p', World d (trace w' ++ [Queried (_name p ++ "?")])))
        /\ (forall value, exists m r d,
              attr_set p = Some m
              /\ set value p' w' = (r, p', World d (trace w' ++ written m p' value))
              /\ (length (written m p' value) <= 1)%nat)).
Proof.
  intros p w Hty.
  assert (resolved p) as Hres.
  { apply consistent_typed; [|exact Hty].
    apply run_ops_consistent, init_consistent. }
  split; [exact Hres|]. split; [intros ops; apply run_ops_same_binding; exact Hres|].
  intros p' w' Hsame.
  pose proof (resolved_same_binding p p' Hres Hsame) as ([ty Ht] & [sm Hs] & [gm Hg]).
  destruct Hsame as (Et & Es & Eg & En & _).
  split.
  - rewrite (get_bound _ _ gm Hg), <- En. apply run_get_eq.
  - intros value. destruct (run_set_eq sm value p' w') as (r & d & E & _).
    exists sm, r, d. split; [congruence|].
    unfold set. rewrite (set_at_bound _ _ _ _ sm Hs). split; [exact E|].
    destruct sm, value; cbn; lia.
Qed.

End Stability.

Section ScalarEndpointExamples.
Import Demo ScalarParameter.

Definition demo_parameter : t := __init__ ":SOUR:X?" false.
Definition demo_world : world := world_of [(":SOUR:X?", "5")].

Example first_set_probes_once :
  set (VInt 7) demo_parameter demo_world
  = (Ok tt,
     bound_to TInt Bound__set Bound__getNumeric demo_parameter,
     World (Device [(":SOUR:X?", "5")] (Some (37, 0, 2, 0)))
           [Queried ":SOUR:X?"; Sent ":SOUR:X 7"]).
Proof. reflexivity. Qed.

Example string_endpoint_roundtrip :
  let w := world_of [(":SYST:NAME?", quoted "a")] in
  let p := __init__ ":SYST:NAME" false in
  (set (VStr ("say " ++ Py.dq ++ "hi" ++ Py.dq)) p w).2
  = World (Device [(":SYST:NAME?", quoted "a")] (Some (37, 0, 2, 0)))
          [Queried ":SYST:NAME?";
           Sent (":SYST:NAME " ++ Py.dq ++ "say " ++ Py.dq ++ Py.dq ++ "hi"
                 ++ Py.dq ++ Py.dq ++ Py.dq)].
Proof. reflexivity. Qed.

Lemma first_set_resolves_type_witness :
  set (VInt 7) demo_parameter demo_world
  = run_set Bound__set (VInt 7)
      (bound_to TInt Bound__set Bound__getNumeric demo_parameter)
      (World (Device [(":SOUR:X?", "5")] (Some (37, 0, 2, 0))) [Queried ":SOUR:X?"]).
Proof.
  pose proof (first_set_resolves_type demo_parameter demo_world (VInt 7) "5"
                (Device [(":SOUR:X?", "5")] (Some (37, 0, 2, 0)))
                (VInt 5) TInt Bound__set Bound__getNumeric) as P.
  destruct (P eq_refl eq_refl eq_refl eq_refl) as [E _]. exact E.
Defined.

Lemma C1_resolved_type_is_stable_witness :
  let p := (run_ops [OpGet] demo_parameter demo_world).1 in
  let w := (run_ops [OpGet] demo_parameter demo_world).2 in
  resolved p /\ (forall ops, same_binding p (run_ops ops p w).1).
Proof.
  intros p w.
  pose proof (C1_resolved_type_is_stable ":SOUR:X?" false [OpGet] demo_world) as P.
  assert (is_Some (_type p)) as Ht by (exists TInt; reflexivity).
  destruct (P Ht) as (R & S & _).
  split; [exact R|exact S].
Defined.

Lemma C3_quote_unquote_roundtrip_witness :
  let s := "say " ++ Py.dq ++ "hi" ++ Py.dq in
  let w := world_of [(":SYST:NAME?", quoted s)] in
  let p := __init__ ":SYST:NAME" false in
  _getString p w
  = (Ok (VStr s), p,
     World (Device [(":SYST:NAME?", quoted s)] (Some (37, 0, 2, 0))) [Queried ":SYST:NAME?"]).
Proof.
  intros s w p.
  destruct (C3_quote_unquote_roundtrip s) as (_ & _ & P).
  exact (P p w (dev w) eq_refl).
Defined.

Lemma C10_restore_before_store_witness :
  let ops := [OpGet; OpSet (VInt 3); OpRange; OpType; OpCat; OpRestore] in
  restore (run_ops ops demo_parameter demo_world).1 (run_ops ops demo_parameter demo_world).2
  = (Raise (OntRemoteError
       "Parameter.restore(): the member function store() must have been called before."),
     (run_ops ops demo_parameter demo_world).1, (run_ops ops demo_parameter demo_world).2).
Proof.
  intros ops.
  destruct C10_restore_before_store as [P _].
  assert (Forall (fun o => o <> OpStore) ops) as Hops by (repeat constructor; discriminate).
  specialize (P ":SOUR:X?" false ops demo_world Hops).
  change (ScalarParameter.__init__ ":SOUR:X?" false) with demo_parameter in P.
  destruct (run_ops ops demo_parameter demo_world) as [p w1]. exact P.
Defined.

(** C4, at an empty reply.  The instrument answers the query of the
    endpoint with the empty text.
    - On the fresh endpoint, [set(7)] asks the query and ends with
      [IndexError]: nothing is written and no type is recorded, yet [set]
      is bound to [_set] from then on.
    - After a [get()] that ended so, the type is still not resolved, and
      the first [set(7)] writes at once: no query precedes the write, and
      the type stays unresolved. *)
Lemma C4_set_after_empty_reply :
  let w := world_of [(":SOUR:X?", EmptyString)] in
  set (VInt 7) demo_parameter w
  = (Raise IndexError, with_set Bound__set demo_parameter,
     World (dev w) [Queried ":SOUR:X?"])
  /\ (get demo_parameter w).1.1 = Raise IndexError
  /\ _type (get demo_parameter w).1.2 = None
  /\ set (VInt 7) (get demo_parameter w).1.2 (World (dev w) [])
     = (Ok tt, with_set Bound__set demo_parameter, World (dev w) [Sent ":SOUR:X 7"]).
Proof. repeat split. Qed.

(** An empty reply is not classified: [get] ends with [IndexError], no type
    is recorded, but [set] is bound already, so that a later [set] writes
    at once. *)
Example empty_reply_is_not_classified :
  let w := world_of [(":SOUR:X?", EmptyString)] in
  run_ops [OpGet] demo_parameter w
  = (with_set Bound__set demo_parameter,
     World (dev w) [Queried ":SOUR:X?"])
  /\ run_ops [OpGet; OpSet (VInt 7)] demo_parameter w
     = (with_set Bound__set demo_parameter,
        World (dev w) [Queried ":SOUR:X?"; Sent ":SOUR:X 7"]).
Proof. split; reflexivity. Qed.

Example restore_before_store :
  restore demo_parameter demo_world
  = (Raise (OntRemoteError
       "Parameter.restore(): the member function store() must have been called before."),
     demo_parameter, demo_world)
  /\ (restore (run_ops [OpStore] demo_parameter demo_world).1
              (run_ops [OpStore] demo_parameter demo_world).2).2
     = World (Device [(":SOUR:X?", "5")] (Some (37, 0, 2, 0)))
             [Queried ":SOUR:X?"; Sent ":SOUR:X 5"].
Proof. split; reflexivity. Qed.

End ScalarEndpointExamples.

(** ** Events of an unknown format *)

Section UnknownFormat.
Context `{PyRuntime} `{!SchemaReader} `{Transport}.
Import OntEventDecoder.

(** C9.  For a decoder and a raw value whose format selector, the bits
    [(value >> _fidShift) & _fidMask], is no key of the format table:
    [_decode] raises [OntEventDecoderError]; a strict decoder lets
    [decodeEvent] raise it; a lenient one makes [decodeEvent] return the
    empty dictionary instead, so that the event feed hands the event on
    without additional information. *)
Theorem C9_unknown_format (d : OntEventDecoder.t) (value : Z) :
  0 <= _fidShift d ->
  let formatIndex := Z.land (Z.shiftr value (_fidShift d)) (_fidMask d) in
  _decoderDict d !! formatIndex = None ->
  let ex := OntEventDecoderError ("Unexpected format id: " ++ Py.str_int formatIndex) in
  OntEventDecoder._decode d value = Raise ex
  /\ (_strict d = true -> decodeEvent d value = Raise ex)
  /\ (_strict d = false ->
        decodeEvent d value = Ok ∅
        /\ forall (e : EventList.t) (w : world) (ev : EventList.event),
             EventList.active_decoder e = Some d ->
             ev !! "id" = Some (EvInt value) ->
             EventList._decodeEvent ev e w = (Ok ev, e, w)).
Proof.
  intros Hshift formatIndex Hnone ex.
  assert (OntEventDecoder._decode d value = Raise ex) as E.
  { unfold OntEventDecoder._decode, extract.
    destruct (Z.ltb_spec (_fidShift d) 0); [lia|].
    fold formatIndex. rewrite Hnone. reflexivity. }
  split; [exact E|]. split.
  - intros Hs. unfold decodeEvent. rewrite E. cbn. rewrite Hs. reflexivity.
  - intros Hs.
    assert (decodeEvent d value = Ok ∅) as E'.
    { unfold decodeEvent. rewrite E. cbn. rewrite Hs. reflexivity. }
    split; [exact E'|].
    intros e w ev Hd Hid.
    unfold EventList._decodeEvent, bind, self, lift_outcome, ret. cbn.
    case_bool_decide; [reflexivity|].
    rewrite Hd, Hid. cbn. rewrite E'. cbn.
    unfold EventList.dict_update. rewrite (left_id_L ∅ (∪)). reflexivity.
Qed.

End UnknownFormat.

Section UnknownFormatExamples.
Import Demo OntEventDecoder.

(** Formats 1 and 3 are declared; the selector is bits 4 to 7. *)
Definition demo_decoder (strict : bool) : OntEventDecoder.t :=
  {| _strict := strict;
     _formatDict_nonempty := true;
     _fidShift := 4;
     _fidMask := 15;
     _decoderDict := <[1 := [(8, 255); (0, 15)]]> (<[3 := [(8, 255)]]> ∅);
     _tagDict := <[1 := [("eventID", "NUM"); ("lane", "LANE")]]>
                   (<[3 := [("eventID", "NUM")]]> ∅);
     _enumDict := <["LANE" := <[2 := "second"]> ∅]> ∅ |}.

Lemma C9_unknown_format_witness :
  decodeEvent (demo_decoder true) 32
  = Raise (OntEventDecoderError "Unexpected format id: 2")
  /\ decodeEvent (demo_decoder false) 32 = Ok ∅.
Proof.
  assert (0 <= 4) as Hs by discriminate.
  pose proof (C9_unknown_format (demo_decoder true) 32 Hs eq_refl) as (_ & P & _).
  pose proof (C9_unknown_format (demo_decoder false) 32 Hs eq_refl) as (_ & _ & Q).
  split; [exact (P eq_refl)|exact (proj1 (Q eq_refl))].
Defined.

Example decode_known_format :
  decodeEvent (demo_decoder true) (256 * 7 + 16 + 2)
  = Ok (<["additionalInfo" := EvInfo [("lane", (2, "second"))]]>
          (<["eventID" := EvField 7 ""]> ∅)).
Proof. reflexivity. Qed.

End UnknownFormatExamples.

(** ** Paged retrieval *)

Section Pages.

(** The sizes of the pages the [while] loops of [get] and [skip] ask for:
    the maximum per command while more than that is left, then the rest. *)
Fixpoint page_sizes (bound : nat) (number : Z) : list Z :=
  if 0 <? number
  then match bound with
       | O => []
       | S bound' => Z.min number 100 :: page_sizes bound' (number - Z.min number 100)
       end
  else [].

Definition pages (number : Z) : list Z := page_sizes (Z.to_nat number) number.

(** Rounding [m / 100] up. *)
Definition ceil100 (m : Z) : Z := - ((- m) / 100).

Lemma ceil100_eq m : ceil100 m = (m + 99) / 100.
Proof.
  unfold ceil100.
  pose proof (Z.div_mod (- m) 100 ltac:(lia)) as E1.
  pose proof (Z.mod_pos_bound (- m) 100 ltac:(lia)) as B1.
  apply Z.div_unique with (r := 99 - (- m) mod 100); lia.
Qed.

Lemma page_sizes_irrel b1 b2 number :
  (Z.to_nat number <= b1)%nat -> (Z.to_nat number <= b2)%nat ->
  page_sizes b1 number = page_sizes b2 number.
Proof.
  revert b2 number.
  induction b1 as [|b1 IH]; intros b2 number H1 H2.
  - destruct b2; cbn [page_sizes]; destruct (Z.ltb_spec 0 number); try lia; reflexivity.
  - destruct b2; cbn [page_sizes]; destruct (Z.ltb_spec 0 number); try lia; try reflexivity.
    f_equal. apply IH; lia.
Qed.

Lemma page_sizes_enough bound number :
  (Z.to_nat number <= bound)%nat -> page_sizes bound number = pages number.
Proof. intros Hb. apply page_sizes_irrel; [exact Hb|lia]. Qed.

Lemma pages_pos number :
  0 < number -> pages number = Z.min number 100 :: pages (number - Z.min number 100).
Proof.
  intros Hpos. unfold pages at 1.
  destruct (Z.to_nat number) as [|n] eqn:En; [lia|].
  cbn [page_sizes]. destruct (Z.ltb_spec 0 number); [|lia].
  f_equal. apply page_sizes_enough. lia.
Qed.

Lemma pages_nonpos number : number <= 0 -> pages number = [].
Proof.
  intros Hn. unfold pages. replace (Z.to_nat number) with 0%nat by lia.
  cbn. destruct (Z.ltb_spec 0 number); [lia|reflexivity].
Qed.

(** Induction along the pages. *)
Lemma pages_ind (P : Z -> Prop) :
  (forall number, number <= 0 -> P number) ->
  (forall number, 0 < number -> P (number - Z.min number 100) -> P number) ->
  forall number, P number.
Proof.
  intros Hstop Hstep number.
  assert (forall n number, (Z.to_nat number <= n)%nat -> P number) as Hall.
  { induction n as [|n IH]; intros m Hm.
    - apply Hstop. lia.
    - destruct (Z_lt_le_dec 0 m); [|apply Hstop; lia].
      apply Hstep; [lia|]. apply IH. lia. }
  apply (Hall (Z.to_nat number)). lia.
Qed.

Lemma pages_length number : length (pages number) = Z.to_nat (ceil100 number).
Proof.
  rewrite ceil100_eq. revert number. apply pages_ind; intros number Hn.
  - rewrite pages_nonpos by lia.
    assert ((number + 99) / 100 <= 0).
    { apply Z.lt_succ_r. apply Z.div_lt_upper_bound; lia. }
    cbn. lia.
  - intros IH. rewrite pages_pos by lia. cbn [length]. rewrite IH.
    destruct (Z_le_gt_dec number 100).
    + rewrite Z.min_l by lia.
      replace (number - number + 99) with 99 by lia.
      replace ((number + 99) / 100) with 1; [reflexivity|].
      apply Z.div_unique with (r := number - 1); lia.
    + rewrite Z.min_r by lia.
      replace (number + 99) with (number - 100 + 99 + 1 * 100) by lia.
      rewrite Z.div_add by lia.
      assert (0 <= (number - 100 + 99) / 100) by (apply Z.div_pos; lia).
      lia.
Qed.

Lemma pages_sum number : fold_right Z.add 0 (pages number) = Z.max 0 number.
Proof.
  revert number. apply pages_ind; intros number Hn.
  - rewrite pages_nonpos by lia. cbn. lia.
  - intros IH. rewrite pages_pos by lia. cbn [fold_right]. rewrite IH. lia.
Qed.

Lemma pages_sizes number : Forall (fun k => 1 <= k <= 100) (pages number).
Proof.
  revert number. apply pages_ind; intros number Hn.
  - rewrite pages_nonpos by lia. constructor.
  - intros IH. rewrite pages_pos by lia. constructor; [lia|exact IH].
Qed.

Example pages_250_of_180 :
  pages (Z.min 250 180) = [100; 80] /\ ceil100 (Z.min 250 180) = 2.
Proof. split; reflexivity. Qed.

End Pages.

(** ** The event feed *)

Section Feed.
Context `{PyRuntime} `{!SchemaReader} `{Transport}.
Import EventList.

Definition numb_cmd (e : t) : string := name e ++ ":NUMB?".
Definition page_cmd (e : t) (k : Z) : string := name e ++ "? " ++ Py.str_int k.
Definition exist_cmd (e : t) : string :=
  "*EXIST? " ++ Py.dq ++ form_name (name e) ++ Py.dq.
Definition form_cmd (e : t) : string :=
  Py.rstrip "?"%char (form_name (name e)) ++ "?".

(** What the first decoded event may add to the trace: the probe for the
    schema parameter and the query of the schema. *)
Definition init_shape (e : t) (l : list io) : Prop :=
  l = [] \/ l = [Queried (exist_cmd e)]
  \/ l = [Queried (exist_cmd e); Queried (form_cmd e)].

(** Same name and same page size. *)
Definition same_feed (e e' : t) : Prop :=
  name e' = name e /\ _maxNumberPerCmd e' = _maxNumberPerCmd e.

#[local] Instance same_feed_preorder : PreOrder same_feed.
Proof.
  split.
  - intros e. split; reflexivity.
  - intros a b c [? ?] [? ?]. split; congruence.
Qed.

Lemma version_ok_eq e w : exists r, version_ok e w = (r, e, w).
Proof.
  unfold version_ok. destruct (dev_version (dev w)) as [[[[a b] c] x]|]; cbn; eauto.
Qed.

Lemma get_fresh_trace (p : ScalarParameter.t) w :
  unbound p ->
  exists r p' d,
    ScalarParameter.get p w
    = (r, p', World d (trace w ++ [Queried (ScalarParameter._name p ++ "?")])).
Proof.
  intros (Ht & Hs & Hg). rewrite get_unbound by assumption.
  unfold bind. rewrite configureType_eq.
  destruct (dev_receive _ _) as [[value|msg] d]; cbn zeta iota; [|eauto].
  destruct (classify value) as [[[[v ty] sm] gm]|]; [|eauto].
  destruct v; cbn; eauto.
  unfold bind, lift_option, ret, raise. destruct (Py.first_char s); eauto.
Qed.

Lemma with_decoder_fields o e :
  name (with_decoder o e) = name e
  /\ _maxNumberPerCmd (with_decoder o e) = _maxNumberPerCmd e
  /\ _decode (with_decoder o e) = _decode e.
Proof. repeat split. Qed.

(** [_buildDecoder] changes the decoder only, and asks at most the probe
    and the schema. *)
Lemma buildDecoder_eq e w :
  exists r o d l,
    _buildDecoder e w = (r, with_decoder o e, World d (trace w ++ l))
    /\ init_shape e l.
Proof.
  unfold _buildDecoder, init_shape.
  unfold bind at 1, update at 1. cbn.
  unfold bind at 1.
  assert (exists go, (if _enableDecoding e then version_ok else ret false)
                       (with_decoder None e) w = (go, with_decoder None e, w)) as [go ->].
  { destruct (_enableDecoding e); [apply version_ok_eq|eexists; reflexivity]. }
  destruct go as [[|]|ex].
  2: { exists (Ok tt), None, (dev w), []. rewrite app_nil_r. destruct w. cbn. auto. }
  2: { exists (Raise ex), None, (dev w), []. rewrite app_nil_r. destruct w. cbn. auto. }
  unfold bind at 1, _getFormParameter.
  unfold bind at 1, receiveScpi at 1. cbn.
  fold (exist_cmd e).
  destruct (dev_receive (exist_cmd e) (dev w)) as [[r|msg] d]; cbn.
  2: { exists (Raise (OntRemoteError msg)), None, d, [Queried (exist_cmd e)]. auto. }
  unfold bind at 1, lift_option.
  destruct (Py.int r) as [n|]; cbn.
  2: { exists (Raise ValueError), None, d, [Queried (exist_cmd e)]. auto. }
  destruct (n =? 0); cbn.
  { exists (Ok tt), None, d, [Queried (exist_cmd e)]. auto. }
  unfold bind at 1, call.
  destruct (get_fresh_trace (ScalarParameter.__init__ (form_name (name e)) false)
              (World d (trace w ++ [Queried (exist_cmd e)]))) as (rg & p' & d' & Eg);
    [repeat split|].
  rewrite Eg. cbn [trace ScalarParameter._name ScalarParameter.__init__].
  rewrite <- app_assoc. cbn [app]. fold (form_cmd e).
  destruct rg as [formatString|ex]; cbn.
  2: { exists (Raise ex), None, d', [Queried (exist_cmd e); Queried (form_cmd e)]. auto. }
  destruct (OntEventDecoder__init__ formatString (_strict e)) as [dec|ex]; cbn.
  { exists (Ok tt), (Some dec), d', [Queried (exist_cmd e); Queried (form_cmd e)]. auto. }
  destruct ex;
    try (eexists _, None, d', [Queried (exist_cmd e); Queried (form_cmd e)];
         split; [reflexivity|auto]).
Qed.

Lemma world_eta (w : world) : w = World (dev w) (trace w ++ []).
Proof. destruct w. cbn. rewrite app_nil_r. reflexivity. Qed.

Lemma decodeEvent_eq ev e w : exists r, _decodeEvent ev e w = (r, e, w).
Proof.
  unfold _decodeEvent, bind, self, lift_outcome, ret, raise. cbn.
  destruct (bool_decide (ev = ∅)); [eauto|].
  destruct (active_decoder e) as [dec|]; [|eauto].
  destruct (ev !! "id") as [[| id | |]|]; cbn; eauto.
  destruct (OntEventDecoder.decodeEvent dec id); cbn; eauto.
Qed.

#[local] Arguments _decodeEvent : simpl never.

(** One call of [self._decode(event)]: only the first one, while [_decode]
    is still [_decodeInit], talks to the instrument, and when it returns
    [_decode] is bound to one of the other two. *)
Lemma decode_eq ev e w :
  exists r e' d l,
    decode ev e w = (r, e', World d (trace w ++ l))
    /\ same_feed e e'
    /\ init_shape e l
    /\ (_decode e <> Bound__decodeInit -> l = [] /\ _decode e' = _decode e)
    /\ (is_Ok r = true -> _decode e' <> Bound__decodeInit).
Proof.
  unfold decode, bind at 1, self at 1. cbn.
  destruct (_decode e) eqn:Hmode.
  - unfold _decodeInit, bind at 1.
    destruct (buildDecoder_eq e w) as (r0 & o & d & l & E & Hl). rewrite E.
    destruct r0 as [[]|ex].
    2: { exists (Raise ex), (with_decoder o e), d, l.
         split; [reflexivity|]. split; [split; reflexivity|]. split; [exact Hl|].
         split; [congruence|discriminate]. }
    unfold bind at 1, self at 1. cbn.
    destruct (active_decoder (with_decoder o e)) as [dec|].
    + unfold bind at 1, update at 1. cbn.
      destruct (decodeEvent_eq ev (with_decode Bound__decodeEvent (with_decoder o e))
                  (World d (trace w ++ l))) as (r & ->).
      exists r, (with_decode Bound__decodeEvent (with_decoder o e)), d, l.
      split; [reflexivity|]. split; [split; reflexivity|]. split; [exact Hl|].
      split; [congruence|discriminate].
    + unfold bind at 1, update at 1, _decodeEmpty, ret. cbn.
      exists (Ok ev), (with_decode Bound__decodeEmpty (with_decoder o e)), d, l.
      split; [reflexivity|]. split; [split; reflexivity|]. split; [exact Hl|].
      split; [congruence|discriminate].
  - destruct (decodeEvent_eq ev e w) as (r & ->).
    exists r, e, (dev w), []. rewrite <- world_eta.
    split; [reflexivity|]. split; [split; reflexivity|]. split; [left; reflexivity|].
    split; [auto|]. rewrite Hmode. discriminate.
  - exists (Ok ev), e, (dev w), []. rewrite <- world_eta.
    split; [reflexivity|]. split; [split; reflexivity|]. split; [left; reflexivity|].
    split; [auto|]. rewrite Hmode. discriminate.
Qed.

Lemma init_shape_same_feed e e' l : same_feed e e' -> init_shape e l -> init_shape e' l.
Proof.
  intros [Hn _]. unfold init_shape, exist_cmd, form_cmd. rewrite Hn. auto.
Qed.

(** The records of one page. *)
Lemma page_events_eq res filter offs result e w :
  exists r e' d l,
    page_events res offs filter result e w = (r, e', World d (trace w ++ l))
    /\ same_feed e e'
    /\ init_shape e l
    /\ (_decode e <> Bound__decodeInit -> l = [] /\ _decode e' = _decode e)
    /\ (is_Ok r = true -> offs <> [] -> _decode e' <> Bound__decodeInit).
Proof.
  revert result e w. induction offs as [|ii offs IH]; intros result e w.
  - exists (Ok result), e, (dev w), []. cbn [page_events]. unfold ret.
    rewrite <- world_eta. repeat split; auto. left. reflexivity.
  - cbn [page_events]. unfold bind at 1, lift_outcome.
    destruct (record_at res ii) as [[id ev]|ex]; cbn.
    2: { exists (Raise ex), e, (dev w), []. rewrite <- world_eta.
         repeat split; auto; try discriminate. left. reflexivity. }
    unfold bind at 1.
    destruct (decode_eq ev e w) as (r1 & e1 & d1 & l1 & E1 & Hf1 & Hl1 & Hk1 & Hok1).
    rewrite E1. destruct r1 as [ev'|ex].
    2: { exists (Raise ex), e1, d1, l1. repeat split; auto; try discriminate.
         - apply Hf1.
         - apply Hf1.
         - apply Hk1; assumption.
         - apply Hk1; assumption. }
    specialize (Hok1 eq_refl).
    destruct (IH (if passes filter id ev' then (result ++ [ev'])%list else result) e1
                 (World d1 (trace w ++ l1))) as (r2 & e2 & d2 & l2 & E2 & Hf2 & Hl2 & Hk2 & _).
    destruct (Hk2 Hok1) as [-> Hmode2].
    rewrite E2. cbn [trace]. rewrite app_nil_r.
    exists r2, e2, d2, l1. split; [reflexivity|].
    split; [etransitivity; eassumption|]. split; [exact Hl1|]. split.
    + intros Hmode. destruct (Hk1 Hmode) as [-> Hm1]. split; [reflexivity|congruence].
    + intros _ _. congruence.
Qed.

(** The trace of a run of pages: the first page, what the first decoded
    event asked, and the other pages. *)
Definition pages_trace (e : t) (sizes : list Z) (l : list io) : list io :=
  match sizes with
  | [] => []
  | k :: ks => Queried (page_cmd e k) :: (l ++ map (fun k' => Queried (page_cmd e k')) ks)%list
  end.

Lemma pages_trace_nil e sizes :
  pages_trace e sizes [] = map (fun k => Queried (page_cmd e k)) sizes.
Proof. destruct sizes; reflexivity. Qed.

Lemma page_cmd_same_feed e e' k : same_feed e e' -> page_cmd e' k = page_cmd e k.
Proof. intros [Hn _]. unfold page_cmd. rewrite Hn. reflexivity. Qed.

Lemma offsets_nonempty k : 1 <= k -> offsets k <> [].
Proof.
  intros Hk. unfold offsets.
  destruct (Z.to_nat k) as [|n] eqn:E; [lia|]. discriminate.
Qed.

(** A run of [get_loop] that returns: its trace is that of the pages. *)
Lemma get_loop_returns bound number filter result e w res e' w' :
  _maxNumberPerCmd e = 100 ->
  (Z.to_nat number <= bound)%nat ->
  get_loop bound number filter result e w = (Ok res, e', w') ->
  exists l,
    init_shape e l
    /\ (_decode e <> Bound__decodeInit -> l = [])
    /\ trace w' = (trace w ++ pages_trace e (pages number) l)%list.
Proof.
  revert number result e w.
  induction bound as [|bound IH]; intros number result e w Hmax Hb.
  - cbn [get_loop]. destruct (Z.ltb_spec 0 number); [lia|].
    unfold ret. intros [= <- <- <-]. exists [].
    rewrite pages_nonpos by lia. cbn. rewrite app_nil_r.
    repeat split; auto. left. reflexivity.
  - cbn [get_loop]. destruct (Z.ltb_spec 0 number) as [Hpos|Hneg].
    2: { unfold ret. intros [= <- <- <-]. exists [].
         rewrite pages_nonpos by lia. cbn. rewrite app_nil_r.
         repeat split; auto. left. reflexivity. }
    unfold bind at 1, self at 1. cbn. rewrite Hmax.
    unfold bind at 1, receiveScpi at 1. cbn. fold (page_cmd e (Z.min number 100)).
    destruct (dev_receive _ _) as [[resp|msg] d]; cbn; [|discriminate].
    unfold bind at 1, lift_outcome.
    destruct (int_item (Py.split ","%char resp) 0) as [received|ex]; cbn; [|discriminate].
    destruct (negb (received =? Z.min number 100)); [discriminate|].
    destruct (negb (_ =? _)); [discriminate|].
    unfold bind at 1.
    destruct (page_events_eq (Py.split ","%char resp) filter (offsets (Z.min number 100))
                result e (World d (trace w ++ [Queried (page_cmd e (Z.min number 100))])))
      as (r1 & e1 & d1 & l1 & E1 & Hf1 & Hl1 & Hk1 & Hok1).
    rewrite E1. destruct r1 as [result1|ex]; [|discriminate].
    intros Hrest.
    assert (_decode e1 <> Bound__decodeInit) as Hmode1.
    { apply Hok1; [reflexivity|]. apply offsets_nonempty. lia. }
    assert (Z.to_nat (number - Z.min number 100) <= bound)%nat as Hb' by lia.
    destruct (IH _ _ _ _ (eq_trans (proj2 Hf1) Hmax) Hb' Hrest)
      as (l2 & _ & Hl2 & Ht).
    rewrite (Hl2 Hmode1), pages_trace_nil in Ht.
    exists l1. split; [exact Hl1|]. split; [intros Hm; apply Hk1; exact Hm|].
    rewrite Ht. cbn [trace]. rewrite (pages_pos number) by lia.
    cbn [pages_trace]. rewrite <- !app_assoc. cbn [app].
    do 3 f_equal. apply map_ext. intros k. f_equal. apply page_cmd_same_feed. exact Hf1.
Qed.

Lemma bind_ext_on {S A B} (m : M S A) (k1 k2 : A -> M S B) s w :
  (forall a s' w', m s w = (Ok a, s', w') -> k1 a s' w' = k2 a s' w') ->
  bind m k1 s w = bind m k2 s w.
Proof.
  intros Hk. unfold bind. destruct (m s w) as [[[a|ex] s'] w']; [|reflexivity].
  apply Hk. reflexivity.
Qed.

(** The bound of the loop does not matter once it is at least [number]:
    the loop is never cut short. *)
Lemma get_loop_bound_irrel b1 b2 number filter result e w :
  _maxNumberPerCmd e = 100 ->
  (Z.to_nat number <= b1)%nat -> (Z.to_nat number <= b2)%nat ->
  get_loop b1 number filter result e w = get_loop b2 number filter result e w.
Proof.
  revert b2 number result e w.
  induction b1 as [|b1 IH]; intros b2 number result e w Hmax Hb1 Hb2.
  - destruct b2; cbn [get_loop]; destruct (Z.ltb_spec 0 number); try lia; reflexivity.
  - destruct b2; cbn [get_loop]; destruct (Z.ltb_spec 0 number); try lia; try reflexivity.
    apply bind_ext_on. intros e0 s' w'. unfold self. intros [= <- <- <-].
    rewrite Hmax.
    apply bind_ext_on. intros resp s1 w1 E1.
    assert (s1 = e) as ->.
    { revert E1. unfold receiveScpi. destruct (dev_receive _ _). intros [= ]. auto. }
    apply bind_ext_on. intros received s2 w2 E2.
    assert (s2 = e) as ->.
    { revert E2. unfold lift_outcome, ret, raise.
      destruct (int_item _ _); intros [= ]; auto. }
    destruct (negb _); [reflexivity|]. destruct (negb _); [reflexivity|].
    apply bind_ext_on. intros result1 e1 w3 E3.
    destruct (page_events_eq (Py.split ","%char resp) filter (offsets (Z.min number 100))
                result e w2) as (r & e1' & d & l & E & Hf & _).
    rewrite E in E3. injection E3 as _ <- _.
    apply IH; [|lia|lia]. rewrite (proj2 Hf). exact Hmax.
Qed.

(** C7.  With the page size 100 every feed has, and an available count [a]
    read from the instrument, [get(n)] works on [m = min(n, a)]:
    - the pages it asks for are [pages m]: each of at most 100 records,
      [m] records in all (none when [m] is not positive), and their number
      is [m / 100] rounded up;
    - the [while] loop is never cut short: any bound of at least [m] turns
      gives the same run;
    - when the call returns, the trace has grown by the count query and
      then exactly those page queries, in order, with nothing between them
      but what decoding the very first event may ask (the probe for the
      schema and the schema itself). *)
Theorem C7_get_pages
    (e : t) (w : world) (n : Z) (filter : option filter_arg)
    (reply : string) (d : conn) (a : Z) :
  _maxNumberPerCmd e = 100 ->
  dev_receive (numb_cmd e) (dev w) = (Reply reply, d) ->
  Py.int reply = Some a ->
  let m := Z.min n a in
  let w1 := World d (trace w ++ [Queried (numb_cmd e)]) in
  (length (pages m) = Z.to_nat (ceil100 m)
   /\ Forall (fun k => 1 <= k <= 100) (pages m)
   /\ fold_right Z.add 0 (pages m) = Z.max 0 m)
  /\ (forall bound, (Z.to_nat m <= bound)%nat ->
        get n filter e w = get_loop bound m filter [] e w1)
  /\ (forall res e' w',
        get n filter e w = (Ok res, e', w') ->
        exists l,
          init_shape e l
          /\ (_decode e <> Bound__decodeInit -> l = [])
          /\ trace w'
             = (trace w ++ Queried (numb_cmd e) :: pages_trace e (pages m) l)%list).
Proof.
  intros Hmax Hq Ha m w1.
  assert (get n filter e w = get_loop (Z.to_nat m) m filter [] e w1) as E.
  { unfold get, bind at 1, self at 1. cbn.
    unfold bind at 1, receiveScpi at 1. cbn. fold (numb_cmd e). rewrite Hq. cbn.
    unfold bind at 1, lift_option. rewrite Ha. reflexivity. }
  split; [|split].
  - split; [apply pages_length|]. split; [apply pages_sizes|apply pages_sum].
  - intros bound Hb. rewrite E. apply get_loop_bound_irrel; [exact Hmax|lia|exact Hb].
  - intros res e' w' Hget. rewrite E in Hget.
    destruct (get_loop_returns _ _ _ _ _ _ _ _ _ Hmax (le_n _) Hget) as (l & Hl & Hk & Ht).
    exists l. split; [exact Hl|]. split; [exact Hk|].
    rewrite Ht. unfold w1. cbn [trace]. rewrite <- app_assoc. reflexivity.
Qed.

(** The pages of [skip]: the loop asks for [pages number] one after the
    other and stops early only when the connection fails. *)
Lemma skip_loop_eq bound number skipCount e w :
  _maxNumberPerCmd e = 100 ->
  (Z.to_nat number <= bound)%nat ->
  exists r d asked,
    skip_loop bound number skipCount e w
    = (r, e, World d (trace w ++ map (fun k => Queried (page_cmd e k)) asked))
    /\ ((r = Ok (skipCount + Z.max 0 number) /\ asked = pages number)
        \/ ((exists msg, r = Raise (OntRemoteError msg))
            /\ exists rest, pages number = (asked ++ rest)%list)).
Proof.
  intros Hmax. revert number skipCount w.
  induction bound as [|bound IH]; intros number skipCount w Hb.
  - cbn [skip_loop]. destruct (Z.ltb_spec 0 number); [lia|].
    exists (Ok skipCount), (dev w), []. cbn [map]. rewrite <- world_eta.
    split; [reflexivity|]. left. rewrite pages_nonpos by lia.
    split; [f_equal; lia|reflexivity].
  - cbn [skip_loop]. destruct (Z.ltb_spec 0 number) as [Hpos|Hneg].
    2: { exists (Ok skipCount), (dev w), []. cbn [map]. rewrite <- world_eta.
         split; [reflexivity|]. left. rewrite pages_nonpos by lia.
         split; [f_equal; lia|reflexivity]. }
    unfold bind at 1, self at 1. cbn. rewrite Hmax.
    unfold bind at 1, receiveScpi at 1. cbn. fold (page_cmd e (Z.min number 100)).
    rewrite (pages_pos number) by lia.
    destruct (dev_receive _ _) as [[resp|msg] d]; cbn.
    + assert (Z.to_nat (number - Z.min number 100) <= bound)%nat as Hb' by lia.
      destruct (IH (number - Z.min number 100) (skipCount + Z.min number 100)
                  (World d (trace w ++ [Queried (page_cmd e (Z.min number 100))])) Hb')
        as (r & d' & asked & E & Hr).
      rewrite E. exists r, d', (Z.min number 100 :: asked).
      cbn [trace map]. rewrite <- app_assoc. split; [reflexivity|].
      destruct Hr as [[-> ->]|[Hmsg [rest Hrest]]].
      * left. split; [f_equal; lia|reflexivity].
      * right. split; [exact Hmsg|]. exists rest. rewrite Hrest. reflexivity.
    + exists (Raise (OntRemoteError msg)), d, [Z.min number 100].
      split; [reflexivity|]. right. split; [eauto|].
      exists (pages (number - Z.min number 100)). reflexivity.
Qed.

(** For an argument of at least 1 and an available count [a], [skip]
    returns the number of records its page queries asked for. *)
Lemma skip_positive e w n reply d a :
  _maxNumberPerCmd e = 100 ->
  1 <= n ->
  dev_receive (numb_cmd e) (dev w) = (Reply reply, d) ->
  Py.int reply = Some a ->
  exists r d' asked,
    skip n e w
    = (r, e, World d' (trace w ++ Queried (numb_cmd e)
                                  :: map (fun k => Queried (page_cmd e k)) asked))
    /\ ((r = Ok (fold_right Z.add 0 asked) /\ asked = pages (Z.min n a)
         /\ fold_right Z.add 0 asked = Z.max 0 (Z.min n a))
        \/ ((exists msg, r = Raise (OntRemoteError msg))
            /\ exists rest, pages (Z.min n a) = (asked ++ rest)%list)).
Proof.
  intros Hmax Hn Hq Ha. unfold skip.
  destruct (Z.ltb_spec n 1); [lia|].
  unfold bind at 1, self at 1. cbn.
  unfold bind at 1, receiveScpi at 1. cbn. fold (numb_cmd e). rewrite Hq. cbn.
  unfold bind at 1, lift_option. rewrite Ha. cbn.
  destruct (skip_loop_eq (Z.to_nat (Z.min n a)) (Z.min n a) 0 e
              (World d (trace w ++ [Queried (numb_cmd e)])) Hmax (le_n _))
    as (r & d' & asked & E & Hr).
  rewrite E. exists r, d', asked. cbn [trace]. rewrite <- app_assoc.
  split; [reflexivity|].
  destruct Hr as [[-> ->]|Herr]; [left|right; exact Herr].
  rewrite pages_sum. split; [f_equal; lia|]. split; reflexivity.
Qed.

Lemma skip_below_one e w n : n < 1 -> skip n e w = (Ok n, e, w).
Proof.
  intros Hn. unfold skip. destruct (Z.ltb_spec n 1); [reflexivity|lia].
Qed.

Lemma Forall_prefix {A} (P : A -> Prop) (l1 l2 : list A) :
  Forall P (l1 ++ l2)%list -> Forall P l1.
Proof. intros Hf. apply Forall_app in Hf. tauto. Qed.

(** The pages of [skip].  For an argument [n] that is not negative and
    an available count [a], [skip(n)] works on [m = min(n, a)]: it asks for
    the pages [pages m], each of at most 100 records, one after the other,
    and when it returns, the value returned is the number of records those
    page queries asked for, which is [m] (0 when [m] is not positive), so
    at most [n] and at most what is available.  A failure of the connection
    ends it after the pages asked so far.  With [n = 0] nothing is asked
    at all. *)
Theorem skip_pages
    (e : t) (w : world) (n : Z) (reply : string) (d : conn) (a : Z) :
  _maxNumberPerCmd e = 100 ->
  0 <= n ->
  dev_receive (numb_cmd e) (dev w) = (Reply reply, d) ->
  Py.int reply = Some a ->
  let m := Z.min n a in
  exists r d' asked,
    skip n e w
    = (r, e,
       World d' (trace w ++
                 if n =? 0 then []
                 else Queried (numb_cmd e) :: map (fun k => Queried (page_cmd e k)) asked))
    /\ Forall (fun k => 1 <= k <= 100) asked
    /\ ((r = Ok (fold_right Z.add 0 asked)
         /\ asked = pages m
         /\ fold_right Z.add 0 asked = Z.max 0 m
         /\ fold_right Z.add 0 asked <= n
         /\ fold_right Z.add 0 asked <= Z.max 0 a)
        \/ ((exists msg, r = Raise (OntRemoteError msg))
            /\ exists rest, pages m = (asked ++ rest)%list)).
Proof.
  intros Hmax Hn Hq Ha m.
  destruct (Z.eqb_spec n 0) as [->|Hn0].
  - exists (Ok 0), (dev w), []. rewrite <- world_eta.
    split; [apply skip_below_one; lia|]. split; [constructor|]. left.
    assert (pages m = []) as -> by (apply pages_nonpos; lia).
    cbn. repeat split; lia.
  - destruct (skip_positive e w n reply d a Hmax ltac:(lia) Hq Ha)
      as (r & d' & asked & E & Hr).
    exists r, d', asked. split; [exact E|].
    pose proof (pages_sizes m) as Hsz.
    destruct Hr as [(-> & -> & Hsum)|(Hmsg & rest & Hrest)].
    + split; [exact Hsz|]. left. fold m. fold m in Hsum.
      repeat split; try assumption; lia.
    + split; [eapply Forall_prefix; rewrite <- Hrest; exact Hsz|].
      right. split; [exact Hmsg|]. exists rest. exact Hrest.
Qed.

End Feed.

Section FeedExamples.
Import Demo OntEventDecoder EventList.

(** One record of a page: the id, two time stamps of eight tokens, four
    tokens of duration, milliseconds, nanoseconds, type and count. *)
Definition demo_record : string :=
  ",7,2020,1,2,3,4,5,6,7,2020,1,2,3,4,6,0,0,1,2,3,4,5,6,1,9".

Fixpoint demo_records (k : nat) : string :=
  match k with
  | O => EmptyString
  | S k' => demo_record ++ demo_records k'
  end.

Definition demo_page (k : nat) : string := Py.str_int (Z.of_nat k) ++ demo_records k.

Definition demo_feed : t := __init__ ":EVEN:LIST" true.

(** 180 records are available; the instrument has no schema parameter. *)
Definition demo_feed_world : world :=
  world_of [(":EVEN:LIST:NUMB?", "180");
            (":EVEN:LIST? 100", demo_page 100);
            (":EVEN:LIST? 80", demo_page 80);
            ("*EXIST? " ++ Py.dq ++ ":EVEN:LIST:FORM" ++ Py.dq, "0")].

Lemma demo_get_returns :
  is_Ok (get 250 None demo_feed demo_feed_world).1.1 = true.
Proof. vm_compute. reflexivity. Qed.

Lemma demo_get_trace :
  trace (get 250 None demo_feed demo_feed_world).2
  = [Queried ":EVEN:LIST:NUMB?"; Queried ":EVEN:LIST? 100";
     Queried ("*EXIST? " ++ Py.dq ++ ":EVEN:LIST:FORM" ++ Py.dq);
     Queried ":EVEN:LIST? 80"].
Proof. vm_compute. reflexivity. Qed.

Lemma C7_get_pages_witness :
  exists l,
    init_shape demo_feed l
    /\ trace (get 250 None demo_feed demo_feed_world).2
       = (trace demo_feed_world
          ++ Queried (numb_cmd demo_feed)
             :: pages_trace demo_feed (pages (Z.min 250 180)) l)%list.
Proof.
  pose proof (C7_get_pages demo_feed demo_feed_world 250 None "180"
                (dev demo_feed_world) 180 eq_refl eq_refl eq_refl) as (_ & _ & P).
  pose proof demo_get_returns as Hok.
  destruct (get 250 None demo_feed demo_feed_world) as [[r e'] w'] eqn:E.
  destruct r as [res|ex]; [|discriminate Hok].
  destruct (P res e' w' eq_refl) as (l & Hl & _ & Ht).
  exists l. split; [exact Hl|exact Ht].
Defined.

(** C8, at a negative argument.  On a feed with 180 records to read,
    [skip(-3)] returns [-3] at once: nothing is queried, no record is
    skipped, and the value returned is not the number of records skipped,
    which is 0. *)
Lemma C8_skip_minus_three :
  skip (-3) demo_feed demo_feed_world = (Ok (-3), demo_feed, demo_feed_world)
  /\ trace demo_feed_world = [].
Proof. split; reflexivity. Qed.

Lemma skip_pages_witness :
  exists r d' asked,
    skip 250 demo_feed demo_feed_world
    = (r, demo_feed,
       World d' (Queried (numb_cmd demo_feed)
                 :: map (fun k => Queried (page_cmd demo_feed k)) asked))
    /\ ((r = Ok (fold_right Z.add 0 asked) /\ asked = pages (Z.min 250 180))
        \/ exists msg, r = Raise (OntRemoteError msg)).
Proof.
  assert (0 <= 250) as Hn by discriminate.
  destruct (skip_pages demo_feed demo_feed_world 250 "180"
              (dev demo_feed_world) 180 eq_refl Hn eq_refl eq_refl)
    as (r & d' & asked & E & _ & Hr).
  exists r, d', asked. split; [exact E|].
  destruct Hr as [(Hr & Ha & _)|(Hmsg & _)]; [left; split; assumption|right; exact Hmsg].
Defined.

Example demo_skip :
  skip 250 demo_feed demo_feed_world
  = (Ok 180, demo_feed,
     World (dev demo_feed_world)
           [Queried ":EVEN:LIST:NUMB?"; Queried ":EVEN:LIST? 100"; Queried ":EVEN:LIST? 80"]).
Proof. reflexivity. Qed.

(** An instrument with a schema: the first event makes the feed fetch it,
    and the decoded fields are added to the event. *)
Definition demo_schema_reader : SchemaReader :=
  {| OntEventDecoder__init__ := fun _ _ => Ok (demo_decoder false) |}.

Definition demo_schema_world : world :=
  world_of [(":EVEN:LIST:NUMB?", "1");
            (":EVEN:LIST? 1", "1,1810,2020,1,2,3,4,5,6,7,2020,1,2,3,4,6,0,0,1,2,3,4,5,6,1,9");
            ("*EXIST? " ++ Py.dq ++ ":EVEN:LIST:FORM" ++ Py.dq, "1");
            (":EVEN:LIST:FORM?", quoted "{}")].

Example demo_get_decoded :
  (@get _ demo_schema_reader _ 5 None demo_feed demo_schema_world).1.1
  = Ok [<["additionalInfo" := EvInfo [("lane", (2, "second"))]]>
          (<["eventID" := EvField 7 ""]>
             (event_dict 1810 None None 93784005000006 1 9))]
  /\ trace (@get _ demo_schema_reader _ 5 None demo_feed demo_schema_world).2
     = [Queried ":EVEN:LIST:NUMB?"; Queried ":EVEN:LIST? 1";
        Queried ("*EXIST? " ++ Py.dq ++ ":EVEN:LIST:FORM" ++ Py.dq);
        Queried ":EVEN:LIST:FORM?"].
Proof. split; reflexivity. Qed.

(** A record of unknown format passes through a lenient decoder unchanged. *)
Example demo_get_unknown_format :
  let w := world_of [(":EVEN:LIST:NUMB?", "1");
                     (":EVEN:LIST? 1",
                      "1,32,2020,1,2,3,4,5,6,7,2020,1,2,3,4,6,0,0,0,0,0,0,0,0,1,9");
                     ("*EXIST? " ++ Py.dq ++ ":EVEN:LIST:FORM" ++ Py.dq, "1");
                     (":EVEN:LIST:FORM?", quoted "{}")] in
  (@get _ demo_schema_reader _ 5 None demo_feed w).1.1
  = Ok [event_dict 32 None None 0 1 9].
Proof. reflexivity. Qed.

End FeedExamples.

(** * Further properties of the endpoints *)

(** ** Running a method step by step *)

Section Steps.
Context `{Transport}.
Context {S : Type}.

Lemma bind_self {B} (k : S -> M S B) s w : bind self k s w = k s s w.
Proof. reflexivity. Qed.

Lemma bind_ret {A B} (a : A) (k : A -> M S B) s w : bind (ret a) k s w = k a s w.
Proof. reflexivity. Qed.

Lemma bind_raise {A B} ex (k : A -> M S B) s w : bind (raise ex) k s w = (Raise ex, s, w).
Proof. reflexivity. Qed.

Lemma bind_update {B} f (k : unit -> M S B) s w : bind (update f) k s w = k tt (f s) w.
Proof. reflexivity. Qed.

Lemma bind_lift_option {A B} ex (o : option A) (k : A -> M S B) s w :
  bind (lift_option ex o) k s w
  = match o with
    | Some a => k a s w
    | None => (Raise ex, s, w)
    end.
Proof. destruct o; reflexivity. Qed.

Lemma bind_lift_outcome {A B} (r : outcome A) (k : A -> M S B) s w :
  bind (lift_outcome r) k s w
  = match r with
    | Ok a => k a s w
    | Raise ex => (Raise ex, s, w)
    end.
Proof. destruct r; reflexivity. Qed.

Lemma bind_receiveScpi {B} cmd (k : string -> M S B) s w :
  bind (receiveScpi cmd) k s w
  = match dev_receive cmd (dev w) with
    | (Reply a, d) => k a s (World d (trace w ++ [Queried cmd]))
    | (Fault msg, d) => (Raise (OntRemoteError msg), s, World d (trace w ++ [Queried cmd]))
    end.
Proof.
  unfold bind, receiveScpi. destruct (dev_receive cmd (dev w)) as [[a|msg] d]; reflexivity.
Qed.

Lemma bind_sendScpi {B} cmd (k : unit -> M S B) s w :
  bind (sendScpi cmd) k s w
  = match dev_send cmd (dev w) with
    | (Reply a, d) => k a s (World d (trace w ++ [Sent cmd]))
    | (Fault msg, d) => (Raise (OntRemoteError msg), s, World d (trace w ++ [Sent cmd]))
    end.
Proof.
  unfold bind, sendScpi. destruct (dev_send cmd (dev w)) as [[a|msg] d]; reflexivity.
Qed.

Lemma bind_assoc {A B C} (m : M S A) (k : A -> M S B) (k' : B -> M S C) s w :
  bind (bind m k) k' s w = bind m (fun a => bind (k a) k') s w.
Proof. unfold bind. destruct (m s w) as [[[a|ex] s'] w']; reflexivity. Qed.

End Steps.

(** One step of a method: the laws above, from left to right. *)
Ltac run_step :=
  first [ rewrite bind_self | rewrite bind_ret | rewrite bind_update | rewrite bind_assoc ];
  cbv beta.

(** ** The string built-ins: splitting, joining, integers as text *)

Section Builtins.

Lemma contains_app c s t : contains c (s ++ t) = contains c s || contains c t.
Proof.
  induction s as [|d s IH]; [reflexivity|].
  change (String d s ++ t) with (String d (s ++ t)). cbn [contains].
  rewrite IH. apply orb_assoc.
Qed.

(** [split] by its equations *)
Lemma split_go_cur c s cur :
  Py.split_go c s cur
  = cur (hd EmptyString (Py.split c s)) :: tl (Py.split c s).
Proof.
  unfold Py.split. revert cur. induction s as [|d s IH]; intros cur; [reflexivity|].
  cbn [Py.split_go]. destruct (Ascii.eqb d c); [reflexivity|].
  rewrite (IH (fun t => cur (String d t))), (IH (fun t => String d t)). reflexivity.
Qed.

Lemma split_cons c d s :
  Py.split c (String d s)
  = if Ascii.eqb d c then EmptyString :: Py.split c s
    else String d (hd EmptyString (Py.split c s)) :: tl (Py.split c s).
Proof.
  unfold Py.split at 1. cbn [Py.split_go]. destruct (Ascii.eqb d c); [reflexivity|].
  apply split_go_cur.
Qed.

Lemma split_nonempty c s : Py.split c s <> [].
Proof. destruct s as [|d s]; [discriminate|]. rewrite split_cons. destruct (Ascii.eqb d c); discriminate. Qed.

Lemma split_eta c s : Py.split c s = hd EmptyString (Py.split c s) :: tl (Py.split c s).
Proof. pose proof (split_nonempty c s). destruct (Py.split c s); [contradiction|reflexivity]. Qed.

(** A text without the separator is one part. *)
Lemma split_absent c s : contains c s = false -> Py.split c s = [s].
Proof.
  induction s as [|d s IH]; [reflexivity|]. cbn [contains]. intros Hc.
  apply orb_false_elim in Hc as [Hd Hs]. rewrite split_cons, Hd, (IH Hs). reflexivity.
Qed.

(** A part, the separator, and the rest. *)
Lemma split_app_sep c s rest :
  contains c s = false ->
  Py.split c (s ++ String c rest) = s :: Py.split c rest.
Proof.
  induction s as [|d s IH]; cbn [contains]; intros Hc.
  - change (EmptyString ++ String c rest) with (String c rest).
    rewrite split_cons, Ascii.eqb_refl. reflexivity.
  - apply orb_false_elim in Hc as [Hd Hs].
    change (String d s ++ String c rest) with (String d (s ++ String c rest)).
    rewrite split_cons, Hd, (IH Hs). reflexivity.
Qed.

Lemma app_empty_r (s : string) : s ++ EmptyString = s.
Proof. induction s as [|d s IH]; [reflexivity|]. change (String d s ++ "") with (String d (s ++ "")). congruence. Qed.

Lemma app_assoc_s (a b c : string) : (a ++ b) ++ c = a ++ (b ++ c).
Proof.
  induction a as [|d a IH]; [reflexivity|].
  change (String d a ++ b) with (String d (a ++ b)).
  change (String d (a ++ b) ++ c) with (String d ((a ++ b) ++ c)).
  change (String d a ++ (b ++ c)) with (String d (a ++ (b ++ c))). congruence.
Qed.

(** A last part after any text. *)
Lemma split_snoc c s node :
  contains c node = false ->
  Py.split c (s ++ String c node) = (Py.split c s ++ [node])%list.
Proof.
  intros Hn. induction s as [|d s IH].
  - change (EmptyString ++ String c node) with (String c node).
    rewrite split_cons, Ascii.eqb_refl, (split_absent c node Hn). reflexivity.
  - change (String d s ++ String c node) with (String d (s ++ String c node)).
    rewrite !split_cons, IH. pose proof (split_nonempty c s).
    destruct (Ascii.eqb d c); [reflexivity|].
    destruct (Py.split c s) as [|a l]; [contradiction|reflexivity].
Qed.

Lemma join_cons sep p q rest :
  Py.join sep (p :: q :: rest) = p ++ sep ++ Py.join sep (q :: rest).
Proof. reflexivity. Qed.

(** Joining the parts with the separator gives the text back. *)
Lemma join_split c s : Py.join (String c EmptyString) (Py.split c s) = s.
Proof.
  induction s as [|d s IH]; [reflexivity|].
  rewrite split_cons. rewrite (split_eta c s) in IH.
  destruct (Ascii.eqb_spec d c) as [->|Hd].
  - rewrite (split_eta c s), join_cons, IH. reflexivity.
  - destruct (tl (Py.split c s)) as [|q rest].
    + cbn [Py.join] in *. congruence.
    + rewrite join_cons in *.
      change (String d ?x ++ ?y) with (String d (x ++ y)). congruence.
Qed.

(** Splitting the joined parts gives the parts back when none of them
    holds the separator. *)
Lemma split_join c l :
  l <> [] -> Forall (fun s => contains c s = false) l ->
  Py.split c (Py.join (String c EmptyString) l) = l.
Proof.
  intros Hl Hall. induction Hall as [|p l Hp Hrest IH]; [contradiction|].
  destruct l as [|q rest].
  - cbn [Py.join]. apply split_absent. exact Hp.
  - rewrite join_cons.
    change (String c EmptyString ++ ?x) with (String c x).
    rewrite split_app_sep by exact Hp. f_equal. apply IH. discriminate.
Qed.

Lemma join_snoc sep l a :
  l <> [] -> Py.join sep (l ++ [a])%list = Py.join sep l ++ sep ++ a.
Proof.
  intros Hl. induction l as [|p l IH]; [contradiction|].
  destruct l as [|q rest].
  - reflexivity.
  - change ((p :: q :: rest) ++ [a])%list with (p :: q :: (rest ++ [a]))%list.
    rewrite !join_cons.
    change (q :: (rest ++ [a]))%list with ((q :: rest) ++ [a])%list.
    rewrite IH by discriminate. rewrite !app_assoc_s. reflexivity.
Qed.

(** [rstrip]: nothing of the stripped character is left at the end, and a
    name given with or without it is the same name. *)
Lemma rstrip_app_char c s : Py.rstrip c (s ++ String c EmptyString) = Py.rstrip c s.
Proof.
  induction s as [|d s IH].
  - change (EmptyString ++ String c EmptyString) with (String c EmptyString).
    cbn [Py.rstrip]. rewrite Ascii.eqb_refl. reflexivity.
  - change (String d s ++ String c EmptyString) with (String d (s ++ String c EmptyString)).
    cbn [Py.rstrip]. rewrite IH. reflexivity.
Qed.

Lemma rstrip_last c s : Py.last_char (Py.rstrip c s) <> Some c.
Proof.
  induction s as [|d s IH]; [discriminate|].
  cbn [Py.rstrip]. destruct (Py.rstrip c s) as [|a r] eqn:E.
  - destruct (Ascii.eqb_spec d c); [discriminate|]. cbn. congruence.
  - exact IH.
Qed.

Lemma rstrip_fixed c s : Py.last_char s <> Some c -> Py.rstrip c s = s.
Proof.
  induction s as [|d s IH]; [reflexivity|].
  intros Hl. cbn [Py.rstrip]. destruct s as [|a r].
  - cbn in *. destruct (Ascii.eqb_spec d c); [congruence|reflexivity].
  - rewrite IH by exact Hl. reflexivity.
Qed.

(** *** Integers as text *)

(** The digits [str] writes for a number. *)
Fixpoint uint_value (u : Decimal.uint) (acc : Z) : Z :=
  match u with
  | Decimal.Nil => acc
  | Decimal.D0 l => uint_value l (10 * acc)
  | Decimal.D1 l => uint_value l (10 * acc + 1)
  | Decimal.D2 l => uint_value l (10 * acc + 2)
  | Decimal.D3 l => uint_value l (10 * acc + 3)
  | Decimal.D4 l => uint_value l (10 * acc + 4)
  | Decimal.D5 l => uint_value l (10 * acc + 5)
  | Decimal.D6 l => uint_value l (10 * acc + 6)
  | Decimal.D7 l => uint_value l (10 * acc + 7)
  | Decimal.D8 l => uint_value l (10 * acc + 8)
  | Decimal.D9 l => uint_value l (10 * acc + 9)
  end.

Lemma uint_value_pos u acc : uint_value u (Z.pos acc) = Z.pos (Pos.of_uint_acc u acc).
Proof.
  revert acc. induction u; intros acc; cbn [uint_value Pos.of_uint_acc]; [reflexivity|..].
  all: rewrite <- IHu; f_equal; lia.
Qed.

Lemma uint_value_0 u : uint_value u 0 = Z.of_N (Pos.of_uint u).
Proof.
  induction u; cbn [uint_value Pos.of_uint]; [reflexivity|exact IHu|..].
  all: cbn [Z.mul Z.add Z.of_N]; apply uint_value_pos.
Qed.

Ltac eval_digit :=
  match goal with
  | |- context [Py.digit_value ?c] =>
      let v := eval vm_compute in (Py.digit_value c) in
      change (Py.digit_value c) with v; cbv iota beta
  end.

Lemma digits_go_uint u acc :
  Py.digits_go (NilEmpty.string_of_uint u) acc true = Some (uint_value u acc).
Proof.
  revert acc. induction u; intros acc; cbn [NilEmpty.string_of_uint uint_value]; [reflexivity|..].
  all: cbn [Py.digits_go]; eval_digit; rewrite IHu; do 2 f_equal; lia.
Qed.

Lemma digits_uint u :
  u <> Decimal.Nil -> Py.digits (NilEmpty.string_of_uint u) = Some (uint_value u 0).
Proof.
  intros Hu. destruct u; try contradiction.
  all: cbn [NilEmpty.string_of_uint Py.digits]; eval_digit; cbn [Py.digits_go]; eval_digit.
  all: rewrite digits_go_uint; reflexivity.
Qed.

Lemma lstrip_uint u : Py.lstrip_space (NilEmpty.string_of_uint u) = NilEmpty.string_of_uint u.
Proof. destruct u; reflexivity. Qed.

Lemma rstrip_uint u : Py.rstrip_space (NilEmpty.string_of_uint u) = NilEmpty.string_of_uint u.
Proof.
  induction u; cbn [NilEmpty.string_of_uint Py.rstrip_space]; [reflexivity|..].
  all: rewrite IHu; destruct (NilEmpty.string_of_uint u); reflexivity.
Qed.

Lemma contains_uint c u :
  Py.digit_value c = None -> contains c (NilEmpty.string_of_uint u) = false.
Proof.
  intros Hc. induction u; cbn [NilEmpty.string_of_uint contains]; [reflexivity|..].
  all: rewrite IHu, orb_false_r; apply Ascii.eqb_neq; intros <-; discriminate Hc.
Qed.

Lemma int_uint u :
  u <> Decimal.Nil -> Py.int (NilEmpty.string_of_uint u) = Some (uint_value u 0).
Proof.
  intros Hu. unfold Py.int, Py.strip_space. rewrite lstrip_uint, rstrip_uint.
  rewrite <- (digits_uint u Hu). destruct u; try contradiction; reflexivity.
Qed.

Lemma int_minus_uint u :
  u <> Decimal.Nil ->
  Py.int (String "-"%char (NilEmpty.string_of_uint u)) = Some (- uint_value u 0).
Proof.
  intros Hu. unfold Py.int, Py.strip_space.
  change (Py.lstrip_space (String "-"%char ?x)) with (String "-"%char x).
  cbn [Py.rstrip_space]. rewrite rstrip_uint.
  assert (NilEmpty.string_of_uint u <> EmptyString) as Hne by (destruct u; try contradiction; discriminate).
  destruct (NilEmpty.string_of_uint u) as [|a r] eqn:E; [contradiction|].
  rewrite <- E, (digits_uint u Hu). reflexivity.
Qed.

Lemma string_of_uint_nonnil u :
  u <> Decimal.Nil -> NilZero.string_of_uint u = NilEmpty.string_of_uint u.
Proof. destruct u; try contradiction; reflexivity. Qed.

(** [int(str(z)) == z] *)
Lemma int_str_int z : Py.int (Py.str_int z) = Some z.
Proof.
  unfold Py.str_int.
  destruct z as [|p|p]; [reflexivity|..]; cbn [Z.to_int NilZero.string_of_int].
  all: pose proof (DecimalPos.Unsigned.to_uint_nonnil p) as Hn.
  all: pose proof (DecimalPos.Unsigned.of_to p) as Hv.
  all: rewrite (string_of_uint_nonnil _ Hn).
  - rewrite (int_uint _ Hn), uint_value_0, Hv. reflexivity.
  - rewrite (int_minus_uint _ Hn), uint_value_0, Hv. reflexivity.
Qed.

(** The text of an integer has no point, comma, colon or minus sign inside
    its digits. *)
Lemma contains_str_int c z :
  Py.digit_value c = None -> c <> "-"%char -> contains c (Py.str_int z) = false.
Proof.
  intros Hc Hm. unfold Py.str_int.
  destruct z as [|p|p]; cbn [Z.to_int NilZero.string_of_int].
  - rewrite string_of_uint_nonnil by discriminate. apply contains_uint. exact Hc.
  - rewrite (string_of_uint_nonnil _ (DecimalPos.Unsigned.to_uint_nonnil p)).
    apply contains_uint. exact Hc.
  - rewrite (string_of_uint_nonnil _ (DecimalPos.Unsigned.to_uint_nonnil p)).
    cbn [contains]. rewrite (contains_uint c _ Hc), orb_false_r.
    apply Ascii.eqb_neq. congruence.
Qed.

End Builtins.

(** ** Scalar endpoints: the snapshot and the round trips *)

Section ScalarRoundTrips.
Context `{PyRuntime} `{Transport}.
Import ScalarParameter.

#[local] Arguments set_at : simpl never.

Lemma to_number_not_None tok v : to_number tok = Some v -> v <> VNone.
Proof.
  unfold to_number. destruct (-1 <? Py.find "."%char tok).
  - destruct (float_of_str tok); cbn; intros [= <-]; discriminate.
  - destruct (Py.int tok); cbn; intros [= <-]; discriminate.
Qed.

Lemma classify_not_None tok v ty sm gm :
  classify tok = Some (v, ty, sm, gm) -> v <> VNone.
Proof.
  unfold classify. destruct (to_number tok) as [v0|] eqn:E.
  - intros [= <- _ _ _]. eapply to_number_not_None; eauto.
  - destruct (Py.first_char tok); intros [= <- _ _ _]; discriminate.
Qed.

Lemma first_value_not_None v0 p w v p' w' :
  v0 <> VNone -> first_value v0 p w = (Ok v, p', w') -> v <> VNone.
Proof.
  destruct v0 as [| | | |s]; try contradiction; cbn; unfold ret; try (intros _ [= <- _ _]; discriminate).
  intros _. unfold bind, lift_option, ret, raise.
  destruct (Py.first_char s); intros [= <- _ _]; discriminate.
Qed.

Lemma run_get_not_None m p w v p' w' : run_get m p w = (Ok v, p', w') -> v <> VNone.
Proof.
  destruct m; cbn [run_get].
  - unfold _getNumeric, bind, self, receiveScpi, lift_option, ret, raise. cbn.
    destruct (dev_receive _ _) as [[a|msg] d]; cbn; [|discriminate].
    destruct (to_number a) eqn:E; intros [= <- _ _]. eapply to_number_not_None; eauto.
  - unfold _getString, bind, self, receiveScpi, lift_option, ret, raise. cbn.
    destruct (dev_receive _ _) as [[a|msg] d]; cbn; [|discriminate].
    destruct (Py.first_char a); cbn; intros [= <- _ _]; discriminate.
Qed.

(** A value [get] returns is never [None], and the endpoint is resolved
    when [get] returns. *)
Lemma get_returns p w v p' w' :
  consistent p -> get p w = (Ok v, p', w') -> v <> VNone /\ resolved p'.
Proof.
  intros Hc Hg. split.
  - destruct Hc as [[Ht Hu]|(_ & _ & [gm Hgm])].
    + rewrite get_unbound in Hg by assumption. unfold bind in Hg.
      rewrite configureType_eq in Hg.
      destruct (dev_receive _ _) as [[value|msg] d]; cbn zeta iota in Hg; [|discriminate].
      destruct (classify value) as [[[[v0 ty] sm] gm]|] eqn:Ec; [|discriminate].
      eapply first_value_not_None; [|exact Hg]. eapply classify_not_None; eauto.
    + rewrite (get_bound _ _ gm Hgm) in Hg. eapply run_get_not_None; eauto.
  - destruct (get_consistent p w Hc) as [_ Hr]. rewrite Hg in Hr. apply Hr. reflexivity.
Qed.

Lemma restore_stored p w m :
  _storedValue p <> VNone -> attr_set p = Some m ->
  restore p w = run_set m (_storedValue p) p w.
Proof.
  intros Hv Hm. unfold restore, bind at 1, self at 1. cbv beta iota.
  destruct (_storedValue p) eqn:E; try contradiction.
  all: unfold set; apply set_at_bound; exact Hm.
Qed.

(** After [store] has returned, on an endpoint in any state it can be in,
    [restore] asks the instrument nothing: it runs the bound writer once, on
    the value that [store] read, which is never [None]; the endpoint is
    left as it was. *)
Theorem restore_writes_stored_value (p : t) (w : world) (p1 : t) (w1 : world) :
  consistent p ->
  store p w = (Ok tt, p1, w1) ->
  exists v m,
    (get p w).1.1 = Ok v /\ v <> VNone
    /\ _storedValue p1 = v /\ attr_set p1 = Some m
    /\ forall w2, exists r d,
         restore p1 w2 = (r, p1, World d (trace w2 ++ written m p1 v))
         /\ write_outcome r.
Proof.
  intros Hc Hs. unfold store, bind in Hs.
  destruct (get p w) as [[[v|ex] p'] w'] eqn:Hg; [|discriminate].
  destruct (get_returns p w v p' w' Hc Hg) as [Hv (_ & [m Hm] & _)].
  unfold update in Hs. injection Hs as <- <-.
  exists v, m. split; [reflexivity|]. split; [exact Hv|].
  split; [reflexivity|]. split; [exact Hm|].
  intros w2. rewrite (restore_stored _ w2 m) by (cbn; assumption).
  cbn [_storedValue with_storedValue]. apply run_set_eq.
Qed.

(** A write that puts a command on the wire ends well or with the error of
    the connection. *)
Lemma run_set_sent m v p w x :
  written m p v = [x] ->
  exists r d,
    run_set m v p w = (r, p, World d (trace w ++ [x]))
    /\ (r = Ok tt \/ exists msg, r = Raise (OntRemoteError msg)).
Proof.
  destruct m; cbn [run_set written].
  - intros [= <-]. apply txCmd_eq.
  - destruct v; try discriminate. intros [= <-]. apply txCmd_eq.
Qed.

(** The replies that come back unchanged: the text [str] gives an integer,
    a string between quotes with its quotes doubled, and a word that is
    neither a number nor begins with a quote. *)
Definition echo_stable (tok : string) : Prop :=
  (exists z, tok = Py.str_int z)
  \/ (to_number tok = None
      /\ ((exists s, tok = quoted s)
          \/ exists c, Py.first_char tok = Some c /\ c <> Py.dquote)).

Lemma to_number_str_int z : to_number (Py.str_int z) = Some (VInt z).
Proof.
  unfold to_number.
  assert (Py.find "."%char (Py.str_int z) = -1) as ->.
  { apply find_absent, contains_str_int; [reflexivity|discriminate]. }
  cbn. rewrite int_str_int. reflexivity.
Qed.

(** What [store] keeps and [restore] writes for such a reply. *)
Lemma echo_classified tok :
  echo_stable tok ->
  exists v0 ty sm gm v,
    classify tok = Some (v0, ty, sm, gm)
    /\ (forall p w, first_value v0 p w = (Ok v, p, w))
    /\ v <> VNone
    /\ forall p, written sm p v
                 = [io_of_tx (_txCmd p) (_name p ++ format_s (_formatString p) tok)].
Proof.
  intros [[z ->]|[Hn [[s ->]|(c & Hc & Hq)]]].
  - exists (VInt z), TInt, Bound__set, Bound__getNumeric, (VInt z).
    unfold classify. rewrite to_number_str_int.
    repeat split; discriminate.
  - exists (VStr (quoted s)), TStr, Bound__setScpiString, Bound__getString, (VStr s).
    unfold classify. rewrite Hn.
    change (Py.first_char (quoted s)) with (Some Py.dquote). cbv iota beta.
    rewrite Ascii.eqb_refl. split; [reflexivity|]. split; [|split; [discriminate|reflexivity]].
    intros p w. unfold first_value, bind, lift_option, ret.
    change (Py.first_char (quoted s)) with (Some Py.dquote). cbv iota beta.
    rewrite Ascii.eqb_refl, unquote_quoted. reflexivity.
  - exists (VStr tok), TStr, Bound__set, Bound__getString, (VStr tok).
    unfold classify. rewrite Hn, Hc.
    apply Ascii.eqb_neq in Hq. cbv iota beta. rewrite Hq.
    split; [reflexivity|]. split; [|split; [discriminate|reflexivity]].
    intros p w. unfold first_value, bind, lift_option, ret. rewrite Hc. cbv iota beta.
    rewrite Hq. reflexivity.
Qed.

(** On an endpoint that was not used yet, when the instrument answers the
    query with such a reply: [store] returns, and [restore] after it writes
    the very token that was received, in one command, with no further
    query. *)
Theorem store_restore_echoes_reply
    (p : t) (w : world) (tok : string) (d : conn) :
  unbound p ->
  dev_receive (_name p ++ "?") (dev w) = (Reply tok, d) ->
  echo_stable tok ->
  exists p1,
    store p w = (Ok tt, p1, World d (trace w ++ [Queried (_name p ++ "?")]))
    /\ exists r d',
         restore p1 (World d (trace w ++ [Queried (_name p ++ "?")]))
         = (r, p1,
            World d' (trace w
                      ++ [Queried (_name p ++ "?");
                          io_of_tx (_txCmd p)
                            (_name p ++ format_s (_formatString p) tok)]))
         /\ (r = Ok tt \/ exists msg, r = Raise (OntRemoteError msg)).
Proof.
  intros (Ht & Hs & Hg) Hq Hecho.
  destruct (echo_classified tok Hecho) as (v0 & ty & sm & gm & v & Hc & Hfirst & Hv & Hw).
  exists (with_storedValue v (bound_to ty sm gm p)).
  assert (store p w = (Ok tt, with_storedValue v (bound_to ty sm gm p),
                       World d (trace w ++ [Queried (_name p ++ "?")]))) as E.
  { unfold store, bind at 1. rewrite get_unbound by assumption.
    unfold bind at 1. rewrite configureType_eq, Hq, Hc. cbn zeta iota.
    rewrite Hfirst. reflexivity. }
  split; [exact E|].
  rewrite (restore_stored _ _ sm) by (cbn; first [assumption|reflexivity]).
  cbn [_storedValue with_storedValue].
  destruct (run_set_sent sm v (with_storedValue v (bound_to ty sm gm p))
              (World d (trace w ++ [Queried (_name p ++ "?")])) _ (Hw _))
    as (r & d' & E' & Hr).
  exists r, d'. rewrite E'. cbn [trace]. rewrite <- app_assoc.
  split; [reflexivity|exact Hr].
Qed.

(** A name may be given with its question mark or without: the endpoint is
    the same, its name never ends in a question mark, and a name without
    one is kept as it is. *)
Theorem name_without_question_mark (scpiName : string) (opcQuery : bool) :
  __init__ (scpiName ++ "?") opcQuery = __init__ scpiName opcQuery
  /\ Result.__init__ (scpiName ++ "?") = Result.__init__ scpiName
  /\ Py.last_char (_name (__init__ scpiName opcQuery)) <> Some "?"%char
  /\ (Py.last_char scpiName <> Some "?"%char ->
      _name (__init__ scpiName opcQuery) = scpiName).
Proof.
  unfold __init__, Result.__init__. cbn [_name].
  rewrite rstrip_app_char. repeat split.
  - apply rstrip_last.
  - apply rstrip_fixed.
Qed.

End ScalarRoundTrips.

(** ** The bit fields of the event decoder *)

Section BitFields.
Import OntEventDecoder.

Lemma land_mask_bounds a m : 0 <= m -> 0 <= Z.land a m <= m.
Proof.
  intros Hm. apply Z.ldiff_le; [exact Hm|].
  apply Z.bits_inj'. intros n Hn.
  rewrite Z.ldiff_spec, Z.land_spec, Z.bits_0.
  destruct (Z.testbit a n), (Z.testbit m n); reflexivity.
Qed.

Lemma extract_bounds value shift mask x :
  0 <= mask -> extract value shift mask = Ok x -> 0 <= x <= mask.
Proof.
  intros Hm. unfold extract. destruct (shift <? 0); [discriminate|].
  intros [= <-]. apply land_mask_bounds. exact Hm.
Qed.

Lemma extract_all_bounds value decoderList xs :
  Forall (fun sm => 0 <= sm.2) decoderList ->
  extract_all value decoderList = Ok xs ->
  Forall2 (fun sm x => 0 <= x <= sm.2) decoderList xs.
Proof.
  intros Hall. revert xs. induction Hall as [|[s m] l Hm _ IH]; intros xs; cbn [extract_all].
  - intros [= <-]. constructor.
  - destruct (extract value s m) as [x|e] eqn:Ex; [|discriminate].
    destruct (extract_all value l) as [vs|e]; [|discriminate].
    intros [= <-]. constructor; [|apply IH; reflexivity].
    eapply extract_bounds; eauto.
Qed.

(** With masks that are not negative, every number [_decode] returns lies
    between 0 and the mask of its field, the format id included, and there
    is one number for each field of the format. *)
Theorem decoded_fields_within_masks (d : t) (value fid : Z) (xs : list Z) :
  0 <= _fidMask d ->
  (forall k l, _decoderDict d !! k = Some l -> Forall (fun sm => 0 <= sm.2) l) ->
  OntEventDecoder._decode d value = Ok (fid, xs) ->
  0 <= fid <= _fidMask d
  /\ exists l, _decoderDict d !! fid = Some l
               /\ Forall2 (fun sm x => 0 <= x <= sm.2) l xs.
Proof.
  intros Hfm Hmasks. unfold OntEventDecoder._decode.
  destruct (extract value (_fidShift d) (_fidMask d)) as [formatIndex|e] eqn:Ef; [|discriminate].
  destruct (_decoderDict d !! formatIndex) as [l|] eqn:El; [|discriminate].
  destruct (extract_all value l) as [vs|e] eqn:Ea; [|discriminate].
  intros [= <- <-]. split; [eapply extract_bounds; eauto|].
  exists l. split; [exact El|]. eapply extract_all_bounds; eauto.
Qed.

(** The tables a schema gives: no negative shift, and a list of tags for
    every format that has a list of fields. *)
Definition tables_agree (d : t) : Prop :=
  0 <= _fidShift d
  /\ (forall k l, _decoderDict d !! k = Some l -> Forall (fun sm => 0 <= sm.1) l)
  /\ (forall k, is_Some (_decoderDict d !! k) -> is_Some (_tagDict d !! k)).

Lemma extract_all_returns value decoderList :
  Forall (fun sm => 0 <= sm.1) decoderList ->
  exists xs, extract_all value decoderList = Ok xs.
Proof.
  induction 1 as [|[s m] l Hs _ [xs IH]]; cbn [extract_all]; [eauto|].
  unfold extract. cbn in Hs. destruct (Z.ltb_spec s 0); [lia|].
  rewrite IH. eauto.
Qed.

(** The keys [fill] writes. *)
Lemma fill_keys d pairs result addInfoDict k :
  is_Some ((fill d pairs result addInfoDict).1 !! k) ->
  is_Some (result !! k) \/ k = TAG_eventID.
Proof.
  revert result addInfoDict. induction pairs as [|[[tag0 tag1] value] rest IH];
    intros result addInfoDict; cbn [fill]; [auto|].
  destruct (String.eqb_spec tag0 TAG_eventID) as [->|Hne].
  - intros Hk. destruct (IH _ _ Hk) as [Hk'|Hk']; [|auto].
    destruct (decide (k = TAG_eventID)) as [->|Hd]; [auto|].
    rewrite lookup_insert_ne in Hk' by congruence. auto.
  - apply IH.
Qed.

(** [decodeEvent] adds the keys [eventID] and [additionalInfo] and no
    other. *)
Lemma decodeEvent_keys d value r k :
  decodeEvent d value = Ok r -> is_Some (r !! k) ->
  k = TAG_eventID \/ k = TAG_additionalInfo.
Proof.
  unfold decodeEvent.
  destruct (OntEventDecoder._decode d value) as [[fmtIndex values]|e].
  - destruct (_tagDict d !! fmtIndex) as [tags|]; [|discriminate].
    pose proof (fill_keys d (zip tags values) ∅ [] k) as Hf.
    destruct (fill d (zip tags values) ∅ []) as [result addInfoDict]. cbn in Hf.
    destruct addInfoDict as [|a rest]; intros [= <-] Hk.
    + destruct (Hf Hk) as [Hk'|Hk']; [|auto].
      rewrite lookup_empty in Hk'. destruct Hk' as [? [=]].
    + destruct (decide (k = TAG_additionalInfo)) as [->|Hd]; [auto|].
      rewrite lookup_insert_ne in Hk by congruence.
      destruct (Hf Hk) as [Hk'|Hk']; [|auto].
      rewrite lookup_empty in Hk'. destruct Hk' as [? [=]].
  - destruct e; try discriminate. destruct (_strict d); [discriminate|].
    intros [= <-] Hk. rewrite lookup_empty in Hk. destruct Hk as [? [=]].
Qed.

(** On tables that agree, [decodeEvent] ends in one of two ways for every
    raw value: it returns a dictionary whose keys are among [eventID] and
    [additionalInfo], or it raises the [OntEventDecoderError] of an unknown
    format; a lenient decoder always returns. *)
Theorem decodeEvent_on_agreeing_tables (d : t) (value : Z) :
  tables_agree d ->
  (exists r, decodeEvent d value = Ok r
             /\ forall k, is_Some (r !! k) -> k = TAG_eventID \/ k = TAG_additionalInfo)
  \/ (_strict d = true
      /\ exists msg, decodeEvent d value = Raise (OntEventDecoderError msg)).
Proof.
  intros (Hshift & Hshifts & Htags).
  assert (forall r, decodeEvent d value = Ok r ->
            exists r0, decodeEvent d value = Ok r0
                       /\ forall k, is_Some (r0 !! k) ->
                                    k = TAG_eventID \/ k = TAG_additionalInfo) as Hret.
  { intros r Hr. exists r. split; [exact Hr|]. intros k. apply (decodeEvent_keys d value r k Hr). }
  destruct (decodeEvent d value) as [r|e] eqn:E; [left; eauto|].
  revert E. unfold decodeEvent, OntEventDecoder._decode, extract.
  destruct (Z.ltb_spec (_fidShift d) 0); [lia|].
  destruct (_decoderDict d !! _) as [l|] eqn:El.
  - destruct (extract_all_returns value l (Hshifts _ _ El)) as [xs ->].
    destruct (Htags _ (mk_is_Some _ _ El)) as [tags ->].
    destruct (fill d (zip tags xs) ∅ []) as [result [|a rest]]; discriminate.
  - destruct (_strict d); [|discriminate]. intros [= <-]. right. eauto.
Qed.

End BitFields.

(** ** The event feed: decoding, filters and counts *)

Section FeedDecoding.
Context `{PyRuntime} `{!SchemaReader} `{Transport}.
Import EventList.

#[local] Arguments _decodeEvent : simpl never.

Lemma decodeEvent_keeps ev e w ev' e' w' k :
  _decodeEvent ev e w = (Ok ev', e', w') ->
  k <> OntEventDecoder.TAG_eventID -> k <> OntEventDecoder.TAG_additionalInfo ->
  ev' !! k = ev !! k.
Proof.
  intros Hd Hk1 Hk2. revert Hd.
  unfold _decodeEvent, bind, self, lift_outcome, ret, raise. cbn.
  destruct (bool_decide (ev = ∅)); [intros [= <- _ _]; reflexivity|].
  destruct (active_decoder e) as [dec|]; [|intros [= <- _ _]; reflexivity].
  destruct (ev !! "id") as [[| id | |]|]; cbn; try discriminate.
  destruct (OntEventDecoder.decodeEvent dec id) as [addData|ex] eqn:Ed; cbn; [|discriminate].
  intros [= <- _ _]. unfold dict_update. apply lookup_union_r.
  destruct (addData !! k) eqn:Ek; [|reflexivity].
  destruct (decodeEvent_keys dec id addData k Ed (mk_is_Some _ _ Ek)); contradiction.
Qed.

Lemma decode_keeps ev e w ev' e' w' k :
  decode ev e w = (Ok ev', e', w') ->
  k <> "eventID" -> k <> "additionalInfo" ->
  ev' !! k = ev !! k.
Proof.
  intros Hd Hk1 Hk2. revert Hd. unfold decode, bind at 1, self at 1. cbn.
  destruct (_decode e).
  - unfold _decodeInit, bind at 1.
    destruct (_buildDecoder e w) as [[[[]|ex] e1] w1]; [|discriminate].
    unfold bind at 1, self at 1. cbn.
    destruct (active_decoder e1).
    + unfold bind at 1, update at 1. cbn. intros Hd. eapply decodeEvent_keeps; eauto.
    + unfold bind at 1, update at 1, _decodeEmpty, ret. cbn. intros [= <- _ _]. reflexivity.
  - intros Hd. eapply decodeEvent_keeps; eauto.
  - unfold _decodeEmpty, ret. intros [= <- _ _]. reflexivity.
Qed.

(** Whatever [_decode] is bound to, a decoded event has every entry of the
    record it was made from: decoding changes no key but [eventID] and
    [additionalInfo]. *)
Theorem decode_keeps_record_fields
    (ev : event) (e : t) (w : world) (ev' : event) (e' : t) (w' : world) (k : string) :
  decode ev e w = (Ok ev', e', w') ->
  k <> "eventID" -> k <> "additionalInfo" ->
  ev' !! k = ev !! k.
Proof.
  intros Hd Hk1 Hk2.
  assert (forall e0 w0 e1 w1, _decodeEvent ev e0 w0 = (Ok ev', e1, w1) -> ev' !! k = ev !! k)
    as Hevent by (intros; eapply decodeEvent_keeps; eauto).
  revert Hd. unfold decode. rewrite bind_self.
  destruct (_decode e); [|apply Hevent|unfold _decodeEmpty, ret; intros [= <- _ _]; reflexivity].
  unfold _decodeInit, bind at 1.
  destruct (_buildDecoder e w) as [[[[]|ex] e1] w1]; [|discriminate].
  rewrite bind_self.
  destruct (active_decoder e1); rewrite bind_update; [apply Hevent|].
  unfold _decodeEmpty, ret. intros [= <- _ _]. reflexivity.
Qed.

(** The versions below [_decodeMinVersion]. *)
Definition before_min_version (v : Z * Z * Z * Z) : Prop :=
  let '(major, minor, bugFix, _) := v in
  major < 37 \/ (major = 37 /\ (minor < 0 \/ (minor = 0 /\ bugFix < 2))).

Lemma buildDecoder_gated e w :
  _enableDecoding e = false
  \/ (exists v, dev_version (dev w) = Some v /\ before_min_version v) ->
  _buildDecoder e w = (Ok tt, with_decoder None e, w).
Proof.
  intros Hgate. unfold _buildDecoder. unfold bind at 1, update at 1. cbn.
  unfold bind at 1.
  assert ((if _enableDecoding e then version_ok else ret false) (with_decoder None e) w
          = (Ok false, with_decoder None e, w)) as ->.
  { destruct Hgate as [->|([[[major minor] bugFix] x] & Hv & Hb)]; [reflexivity|].
    destruct (_enableDecoding e); [|reflexivity].
    unfold version_ok. cbn. rewrite Hv. cbn in Hb |- *. do 2 f_equal.
    destruct (Z.ltb_spec 37 major), (Z.eqb_spec major 37), (Z.ltb_spec 0 minor),
             (Z.eqb_spec minor 0), (Z.leb_spec 2 bugFix); cbn; try reflexivity; lia. }
  reflexivity.
Qed.

(** The first event of a feed decides about decoding.  When decoding was
    not enabled, or the instrument's version is below 37.0.2, nothing is
    asked of the instrument, the event is returned as it is, and so is every
    event after it.  When decoding is enabled and the connection has no
    version (it was never opened), the comparison of [None] with the
    minimum version ends the call with [TypeError]. *)
Theorem decoding_gate (e : t) (w : world) (ev : event) :
  _decode e = Bound__decodeInit ->
  (_enableDecoding e = false
   \/ (exists v, dev_version (dev w) = Some v /\ before_min_version v) ->
   let e1 := with_decode Bound__decodeEmpty (with_decoder None e) in
   decode ev e w = (Ok ev, e1, w)
   /\ forall ev2 w2, decode ev2 e1 w2 = (Ok ev2, e1, w2))
  /\ (_enableDecoding e = true -> dev_version (dev w) = None ->
      decode ev e w = (Raise TypeError, with_decoder None e, w)).
Proof.
  intros Hmode. split.
  - intros Hgate e1. split; [|reflexivity].
    unfold decode, bind at 1, self at 1. cbn. rewrite Hmode.
    unfold _decodeInit, bind at 1. rewrite (buildDecoder_gated e w Hgate). reflexivity.
  - intros Hen Hv.
    unfold decode, bind at 1, self at 1. cbn. rewrite Hmode.
    unfold _decodeInit, bind at 1.
    unfold _buildDecoder. unfold bind at 1, update at 1. cbn.
    unfold bind at 1. rewrite Hen. unfold version_ok. cbn. rewrite Hv. reflexivity.
Qed.

(** *** Filters *)

Definition outcome_map {A B} (f : A -> B) (r : outcome A) : outcome B :=
  match r with
  | Ok a => Ok (f a)
  | Raise e => Raise e
  end.

(** The events with a given id. *)
Definition has_id (wanted : Z) (ev : event) : bool :=
  match ev !! "id" with
  | Some (EvInt id) => id =? wanted
  | _ => false
  end.

(** What a filter selects. *)
Definition selects (filter : filter_arg) : event -> bool :=
  match filter with
  | FilterCallable f => f
  | FilterId wanted => has_id wanted
  end.

Lemma record_at_id res ii id ev :
  record_at res ii = Ok (id, ev) -> ev !! "id" = Some (EvInt id).
Proof.
  unfold record_at, obind.
  repeat match goal with
         | |- match ?x with _ => _ end = _ -> _ => destruct x; [|discriminate]
         end.
  intros [= <- <-]. apply lookup_insert_eq.
Qed.

Lemma passes_selects filter id ev :
  ev !! "id" = Some (EvInt id) -> passes (Some filter) id ev = selects filter ev.
Proof.
  intros Hid. destruct filter as [f|wanted]; [reflexivity|].
  cbn. unfold has_id. rewrite Hid. reflexivity.
Qed.

Lemma page_events_selects res offs filter acc e w :
  page_events res offs (Some filter) (List.filter (selects filter) acc) e w
  = let '(r, e', w') := page_events res offs None acc e w in
    (outcome_map (List.filter (selects filter)) r, e', w').
Proof.
  revert acc e w. induction offs as [|ii offs IH]; intros acc e w; [reflexivity|].
  cbn [page_events]. unfold bind at 1 3, lift_outcome.
  destruct (record_at res ii) as [[id ev]|ex] eqn:Er; [|reflexivity].
  cbn. unfold bind at 1 2.
  destruct (decode ev e w) as [[[ev'|ex] e1] w1] eqn:Ed; [|reflexivity].
  assert (ev' !! "id" = Some (EvInt id)) as Hid.
  { rewrite (decode_keeps ev e w ev' e1 w1 "id" Ed) by discriminate.
    eapply record_at_id; eauto. }
  pose proof (passes_selects filter id ev' Hid) as Hp. cbn [passes] in Hp. rewrite Hp.
  rewrite <- IH. f_equal.
  rewrite List.filter_app. cbn [List.filter].
  destruct (selects filter ev'); [reflexivity|]. rewrite app_nil_r. reflexivity.
Qed.

Lemma bind_map {S A B B'} (g : B -> B') (m : M S A) (k1 : A -> M S B') (k2 : A -> M S B) s w :
  (forall a s0 w0,
     k1 a s0 w0 = let '(r, s', w') := k2 a s0 w0 in (outcome_map g r, s', w')) ->
  bind m k1 s w = let '(r, s', w') := bind m k2 s w in (outcome_map g r, s', w').
Proof.
  intros Hk. unfold bind. destruct (m s w) as [[[a|ex] s0] w0]; [apply Hk|reflexivity].
Qed.

Lemma get_loop_selects bound number filter acc e w :
  get_loop bound number (Some filter) (List.filter (selects filter) acc) e w
  = let '(r, e', w') := get_loop bound number None acc e w in
    (outcome_map (List.filter (selects filter)) r, e', w').
Proof.
  revert number acc e w. induction bound as [|bound IH]; intros number acc e w;
    cbn [get_loop]; destruct (0 <? number); try reflexivity.
  apply bind_map. intros e0 s0 w0.
  apply bind_map. intros resp s1 w1.
  apply bind_map. intros received s2 w2.
  destruct (negb _); [reflexivity|]. destruct (negb _); [reflexivity|].
  unfold bind. rewrite page_events_selects.
  destruct (page_events _ _ None acc s2 w2) as [[[result|ex] e2] w3]; [|reflexivity].
  cbn. apply IH.
Qed.

(** A filter changes neither what [get] asks of the instrument nor the
    state it leaves nor the way it ends: the events returned are those of
    the unfiltered call for which the callable answers true, or, for an
    event id, those whose entry [id] is that id. *)
Theorem get_filter_selects (n : Z) (filter : filter_arg) (e : t) (w : world) :
  get n (Some filter) e w
  = let '(r, e', w') := get n None e w in
    (outcome_map (List.filter (selects filter)) r, e', w').
Proof.
  unfold get.
  apply bind_map. intros e0 s0 w0.
  apply bind_map. intros r s1 w1.
  apply bind_map. intros a s2 w2.
  apply (get_loop_selects _ _ filter []).
Qed.

(** *** Counts *)

Lemma page_events_count res offs filter acc e w r e' w' :
  page_events res offs filter acc e w = (Ok r, e', w') ->
  exists new,
    r = (acc ++ new)%list
    /\ (length new <= length offs)%nat
    /\ (filter = None -> length new = length offs).
Proof.
  revert acc e w. induction offs as [|ii offs IH]; intros acc e w; cbn [page_events].
  - unfold ret. intros [= <- _ _]. exists []. rewrite app_nil_r. auto.
  - unfold bind at 1, lift_outcome.
    destruct (record_at res ii) as [[id ev]|ex]; [|discriminate].
    cbn. unfold bind at 1.
    destruct (decode ev e w) as [[[ev'|ex] e1] w1]; [|discriminate].
    intros Hrest. destruct (IH _ _ _ Hrest) as (new & -> & Hle & Heq).
    destruct (passes filter id ev') eqn:Hp.
    + exists (ev' :: new). rewrite <- app_assoc. cbn. split; [reflexivity|].
      split; [lia|]. intros Hf. rewrite (Heq Hf). reflexivity.
    + exists new. split; [reflexivity|]. split; [cbn; lia|].
      intros ->. discriminate Hp.
Qed.

Lemma offsets_length k : length (offsets k) = Z.to_nat k.
Proof. unfold offsets. rewrite length_map, length_seq. reflexivity. Qed.

Lemma get_loop_count bound number filter acc e w r e' w' :
  _maxNumberPerCmd e = 100 ->
  (Z.to_nat number <= bound)%nat ->
  get_loop bound number filter acc e w = (Ok r, e', w') ->
  exists new,
    r = (acc ++ new)%list
    /\ Z.of_nat (length new) <= Z.max 0 number
    /\ (filter = None -> Z.of_nat (length new) = Z.max 0 number).
Proof.
  revert number acc e w. induction bound as [|bound IH]; intros number acc e w Hmax Hb;
    cbn [get_loop]; destruct (Z.ltb_spec 0 number) as [Hpos|Hneg]; try lia.
  1,3: unfold ret; intros [= <- _ _]; exists []; rewrite app_nil_r; cbn;
       split; [reflexivity|]; split; [lia|intros _; lia].
  unfold bind at 1, self at 1. cbn. rewrite Hmax.
  unfold bind at 1, receiveScpi at 1. cbn.
  destruct (dev_receive _ _) as [[resp|msg] d]; cbn; [|discriminate].
  unfold bind at 1, lift_outcome.
  destruct (int_item (Py.split ","%char resp) 0) as [received|ex]; cbn; [|discriminate].
  destruct (negb (received =? Z.min number 100)); [discriminate|].
  destruct (negb (_ =? _)); [discriminate|].
  unfold bind at 1.
  destruct (page_events_eq (Py.split ","%char resp) filter (offsets (Z.min number 100))
              acc e (World d (trace w ++ [Queried (name e ++ "? " ++ Py.str_int (Z.min number 100))])))
    as (r1 & e1 & d1 & l1 & E1 & Hf1 & _).
  rewrite E1. destruct r1 as [result1|ex]; [|discriminate].
  destruct (page_events_count _ _ _ _ _ _ _ _ _ E1) as (new1 & -> & Hle1 & Heq1).
  rewrite offsets_length in Hle1, Heq1.
  intros Hrest.
  assert (Z.to_nat (number - Z.min number 100) <= bound)%nat as Hb' by lia.
  destruct (IH _ _ _ _ (eq_trans (proj2 Hf1) Hmax) Hb' Hrest) as (new2 & -> & Hle2 & Heq2).
  exists (new1 ++ new2)%list. rewrite <- app_assoc. split; [reflexivity|].
  rewrite length_app. split; [lia|].
  intros Hf. specialize (Heq1 Hf). specialize (Heq2 Hf). lia.
Qed.

(** With [a] records available, [get(n)] never returns more than
    [min(n, a)] events, none when that is not positive, and without a
    filter it returns exactly that many. *)
Theorem get_count
    (e : t) (w : world) (n : Z) (filter : option filter_arg)
    (reply : string) (d : conn) (a : Z) (res : list event) (e' : t) (w' : world) :
  _maxNumberPerCmd e = 100 ->
  dev_receive (numb_cmd e) (dev w) = (Reply reply, d) ->
  Py.int reply = Some a ->
  get n filter e w = (Ok res, e', w') ->
  Z.of_nat (length res) <= Z.max 0 (Z.min n a)
  /\ (filter = None -> Z.of_nat (length res) = Z.max 0 (Z.min n a)).
Proof.
  intros Hmax Hq Ha. unfold get, bind at 1, self at 1. cbn.
  unfold bind at 1, receiveScpi at 1. cbn. fold (numb_cmd e). rewrite Hq. cbn.
  unfold bind at 1, lift_option. rewrite Ha. cbn.
  intros Hloop.
  destruct (get_loop_count _ _ _ _ _ _ _ _ _ Hmax (le_n _) Hloop) as (new & -> & Hle & Heq).
  exact (conj Hle Heq).
Qed.

End FeedDecoding.

(** ** The event feed: one record at a time, and the schema parameter *)

Section FeedNext.
Context `{PyRuntime} `{!SchemaReader} `{Transport} `{!PyRepr}.
Import EventList.

Lemma decode_result_nonempty ev e w ev' e' w' id :
  ev !! "id" = Some (EvInt id) -> decode ev e w = (Ok ev', e', w') -> ev' <> ∅.
Proof.
  intros Hid Hd Hempty.
  assert (ev' !! "id" = ev !! "id") as Hk by (eapply decode_keeps; eauto; discriminate).
  rewrite Hid, Hempty in Hk. unfold event in Hk. rewrite lookup_empty in Hk. discriminate Hk.
Qed.

(** What [get(1)] and [next()] do with the reply to the query for one
    record, once they have accepted its shape. *)
Definition one_record (res : list string) : M t event :=
  let! (id, ev) := lift_outcome (record_at res 0) in
  decode ev.

Lemma one_record_nonempty res e w ev e' w' :
  one_record res e w = (Ok ev, e', w') -> ev <> ∅.
Proof.
  unfold one_record. rewrite bind_lift_outcome.
  destruct (record_at res 0) as [[id ev0]|ex] eqn:Er; [|discriminate].
  intros Hd. eapply decode_result_nonempty; [|exact Hd].
  eapply record_at_id; eauto.
Qed.

(** The two calls side by side: which checks they make, in which order. *)
Lemma next_eq e w :
  next e w
  = match dev_receive (name e ++ ":NUMB?") (dev w) with
    | (Fault msg, d) =>
        (Raise (OntRemoteError msg), e, World d (trace w ++ [Queried (name e ++ ":NUMB?")]))
    | (Reply r, d) =>
        let w0 := World d (trace w ++ [Queried (name e ++ ":NUMB?")]) in
        match Py.int r with
        | None => (Raise ValueError, e, w0)
        | Some count =>
            if 0 <? count
            then
              match dev_receive (name e ++ "? 1") d with
              | (Fault msg, d1) =>
                  (Raise (OntRemoteError msg), e,
                   World d1 (trace w0 ++ [Queried (name e ++ "? 1")]))
              | (Reply resp, d1) =>
                  let w1 := World d1 (trace w0 ++ [Queried (name e ++ "? 1")]) in
                  let res := Py.split ","%char resp in
                  let unexpected :=
                    (Raise (OntRemoteError
                              ("EventList " ++ name e
                               ++ ": Unexpected event structure - data received: "
                               ++ str_of_list res)), e, w1) in
                  if negb (Z.of_nat (length res) =? 26) then unexpected
                  else match int_item res 0 with
                       | Raise ex => (Raise ex, e, w1)
                       | Ok received =>
                           if negb (received =? 1) then unexpected
                           else one_record res e w1
                       end
              end
            else (Ok ∅, e, w0)
        end
    end.
Proof.
  unfold next. rewrite bind_self, bind_receiveScpi.
  destruct (dev_receive (name e ++ ":NUMB?") (dev w)) as [[r|msg] d]; [|reflexivity].
  cbv zeta. rewrite bind_lift_option.
  destruct (Py.int r) as [count|]; [|reflexivity].
  destruct (0 <? count); [|reflexivity].
  rewrite bind_receiveScpi. cbn [dev].
  destruct (dev_receive (name e ++ "? 1") d) as [[resp|msg] d1]; [|reflexivity].
  destruct (negb (Z.of_nat (length (Py.split ","%char resp)) =? 26)).
  - rewrite bind_ret. reflexivity.
  - rewrite bind_assoc, bind_lift_outcome.
    destruct (int_item (Py.split ","%char resp) 0) as [received|ex]; [|reflexivity].
    rewrite bind_ret. destruct (negb (received =? 1)); reflexivity.
Qed.

Lemma get_one_eq e w :
  _maxNumberPerCmd e = 100 ->
  get 1 None e w
  = match dev_receive (name e ++ ":NUMB?") (dev w) with
    | (Fault msg, d) =>
        (Raise (OntRemoteError msg), e, World d (trace w ++ [Queried (name e ++ ":NUMB?")]))
    | (Reply r, d) =>
        let w0 := World d (trace w ++ [Queried (name e ++ ":NUMB?")]) in
        match Py.int r with
        | None => (Raise ValueError, e, w0)
        | Some count =>
            if 0 <? count
            then
              match dev_receive (name e ++ "? 1") d with
              | (Fault msg, d1) =>
                  (Raise (OntRemoteError msg), e,
                   World d1 (trace w0 ++ [Queried (name e ++ "? 1")]))
              | (Reply resp, d1) =>
                  let w1 := World d1 (trace w0 ++ [Queried (name e ++ "? 1")]) in
                  let res := Py.split ","%char resp in
                  match int_item res 0 with
                  | Raise ex => (Raise ex, e, w1)
                  | Ok received =>
                      if negb (received =? 1)
                      then (Raise (OntRemoteError
                                     ("EventList " ++ name e
                                      ++ ": Unexpected number of events - requested: "
                                      ++ "1" ++ " / received: " ++ Py.str_int received)),
                            e, w1)
                      else if negb (Z.of_nat (length res) =? 26)
                      then (Raise (OntRemoteError
                                     ("EventList " ++ name e
                                      ++ ": Unexpected event structure - items expected: "
                                      ++ "26" ++ " / items received: "
                                      ++ Py.str_int (Z.of_nat (length res)))),
                            e, w1)
                      else match one_record res e w1 with
                           | (Ok ev, e', w') => (Ok [ev], e', w')
                           | (Raise ex, e', w') => (Raise ex, e', w')
                           end
                  end
              end
            else (Ok [], e, w0)
        end
    end.
Proof.
  intros Hmax. unfold get. rewrite bind_self, bind_receiveScpi.
  destruct (dev_receive (name e ++ ":NUMB?") (dev w)) as [[r|msg] d]; [|reflexivity].
  cbv zeta. rewrite bind_lift_option.
  destruct (Py.int r) as [count|]; [|reflexivity].
  destruct (Z.ltb_spec 0 count) as [Hpos|Hneg].
  2: { replace (Z.to_nat (Z.min 1 count)) with 0%nat by lia. cbn [get_loop].
       destruct (Z.ltb_spec 0 (Z.min 1 count)); [lia|reflexivity]. }
  replace (Z.min 1 count) with 1 by lia. change (Z.to_nat 1) with 1%nat.
  cbn [get_loop]. change (0 <? 1) with true. cbv iota.
  rewrite bind_self, Hmax. cbv zeta.
  change (Z.min 1 100) with 1. change (Py.str_int 1) with "1".
  change (name e ++ "? " ++ "1") with (name e ++ "? 1").
  rewrite bind_receiveScpi. cbn [dev].
  destruct (dev_receive (name e ++ "? 1") d) as [[resp|msg] d1]; [|reflexivity].
  rewrite bind_lift_outcome.
  destruct (int_item (Py.split ","%char resp) 0) as [received|ex]; [|reflexivity].
  destruct (negb (received =? 1)); [reflexivity|].
  change (1 + 25 * 1) with 26. change (Py.str_int 26) with "26".
  destruct (negb (Z.of_nat (length (Py.split ","%char resp)) =? 26)); [reflexivity|].
  change (offsets 1) with [0%nat]. cbn [page_events].
  unfold one_record, bind.
  destruct (lift_outcome (record_at (Py.split ","%char resp) 0) e _) as [[[[id ev]|ex] e0] w0];
    [|reflexivity].
  destruct (decode ev e0 w0) as [[[ev'|ex] e2] w2]; reflexivity.
Qed.

(** [next()] is [get(1)]: whenever one of the two returns, so does the
    other, after the same queries and in the same state, and what [next]
    returns is the one event of the list [get(1)] returns, or the empty
    dictionary when that list is empty. *)
Theorem next_is_get_one (e : t) (w : world) (ev : event) (e' : t) (w' : world) :
  _maxNumberPerCmd e = 100 ->
  next e w = (Ok ev, e', w')
  <-> (ev = ∅ /\ get 1 None e w = (Ok [], e', w'))
      \/ (ev <> ∅ /\ get 1 None e w = (Ok [ev], e', w')).
Proof.
  intros Hmax. rewrite next_eq, (get_one_eq e w Hmax).
  destruct (dev_receive (name e ++ ":NUMB?") (dev w)) as [[r|msg] d].
  2: { split; [discriminate|]. intros [[_ [=]]|[_ [=]]]. }
  cbv zeta. destruct (Py.int r) as [count|].
  2: { split; [discriminate|]. intros [[_ [=]]|[_ [=]]]. }
  destruct (0 <? count).
  2: { split.
       - intros [= <- <- <-]. left. split; reflexivity.
       - intros [[-> [= <- <-]]|[_ [=]]]. reflexivity. }
  destruct (dev_receive (name e ++ "? 1") d) as [[resp|msg] d1].
  2: { split; [discriminate|]. intros [[_ [=]]|[_ [=]]]. }
  destruct (negb (Z.of_nat (length (Py.split ","%char resp)) =? 26)).
  { split; [discriminate|]. intros [[_ Hg]|[_ Hg]]; revert Hg.
    all: destruct (int_item _ 0) as [received|ex]; [|discriminate].
    all: destruct (negb (received =? 1)); discriminate. }
  destruct (int_item _ 0) as [received|ex].
  2: { split; [discriminate|]. intros [[_ [=]]|[_ [=]]]. }
  destruct (negb (received =? 1)).
  { split; [discriminate|]. intros [[_ [=]]|[_ [=]]]. }
  destruct (one_record _ e _) as [[[ev0|ex] e0] w0] eqn:Ho.
  - split.
    + intros [= -> -> ->]. right. split; [|reflexivity].
      eapply one_record_nonempty; eauto.
    + intros [[_ [=]]|[_ [= -> -> ->]]]. reflexivity.
  - split; [discriminate|]. intros [[_ [=]]|[_ [=]]].
Qed.

End FeedNext.

Section FormName.
Import EventList.

(** The last nodes that stand for an interval. *)
Definition interval_node (node : string) : bool :=
  (String.eqb node "SEC" || String.eqb node "MIN" || String.eqb node "HOUR")%bool.

(** The parameter asked for the schema of a feed: the name of the feed with
    a last node [SEC], [MIN] or [HOUR] replaced by [FORM], and with [FORM]
    added after any other last node. *)
Theorem form_parameter_name (prefix node : string) :
  Py.find ":"%char node = -1 ->
  form_name (prefix ++ ":" ++ node)
  = (if interval_node node then prefix else prefix ++ ":" ++ node) ++ ":FORM"
  /\ form_name node = if interval_node node then "FORM" else node ++ ":FORM".
Proof.
  intros Hn. apply find_absent in Hn. unfold form_name.
  change (":" ++ node) with (String ":"%char node).
  rewrite (split_snoc _ prefix node Hn), (split_absent _ node Hn).
  rewrite last_snoc. cbn [last]. fold (interval_node node).
  pose proof (split_nonempty ":"%char prefix) as Hne.
  pose proof (join_split ":"%char prefix) as Hj.
  change (String ":"%char EmptyString) with ":" in Hj.
  destruct (interval_node node); split; try reflexivity.
  - rewrite removelast_last, join_snoc, Hj by exact Hne. reflexivity.
  - rewrite !join_snoc, Hj; [|exact Hne|]. 
    + rewrite !app_assoc_s. reflexivity.
    + destruct (Py.split ":"%char prefix); [contradiction|discriminate].
Qed.

End FormName.

(** ** Groups of results *)

Section GroupedResults.
Context `{PyRuntime} `{Transport}.

Lemma collect_other result names index resDict r name :
  ResultGroup.collect result names index resDict = Ok r ->
  name ∉ names.*1 -> r !! name = resDict !! name.
Proof.
  revert index resDict. induction names as [|[resultName scpiName] rest IH];
    intros index resDict; cbn [ResultGroup.collect].
  - intros [= <-] _. reflexivity.
  - destruct (result !! index) as [item|]; [|discriminate].
    destruct (_decodeResult item scpiName) as [[valid value]|ex]; [|discriminate].
    intros Hc Hn. cbn in Hn. apply not_elem_of_cons in Hn as [Hne Hn].
    rewrite (IH _ _ Hc Hn). apply lookup_insert_ne. congruence.
Qed.

(** The loop of [get]: the reply at position [index + i] is decoded under
    the [i]-th name. *)
Lemma collect_spec result names index resDict r :
  (index <= length result)%nat ->
  ResultGroup.collect result names index resDict = Ok r ->
  (index + length names <= length result)%nat
  /\ dom r = list_to_set names.*1 ∪ dom resDict
  /\ forall i resultName scpiName,
       names !! i = Some (resultName, scpiName) ->
       resultName ∉ (drop (S i) names).*1 ->
       exists item valid value,
         result !! (index + i)%nat = Some item
         /\ _decodeResult item scpiName = Ok (valid, value)
         /\ r !! resultName = Some (if valid : bool then value else VNone).
Proof.
  revert index resDict. induction names as [|[resultName scpiName] rest IH];
    intros index resDict Hindex; cbn [ResultGroup.collect].
  - intros [= <-]. cbn. split; [lia|]. split; [rewrite (left_id_L ∅ (∪)); reflexivity|].
    intros i ? ? [=].
  - destruct (result !! index) as [item|] eqn:Ei; [|discriminate].
    destruct (_decodeResult item scpiName) as [[valid value]|ex] eqn:Ed; [|discriminate].
    pose proof (lookup_lt_Some _ _ _ Ei) as Hlt.
    intros Hc. destruct (IH _ _ Hlt Hc) as (Hlen & Hdom & Hpos).
    split; [cbn [length]; lia|]. split.
    { rewrite Hdom, dom_insert_L. cbn [fmap list_fmap fst list_to_set].
      rewrite (assoc_L (∪)), (comm_L (∪) (list_to_set _) {[resultName]}). reflexivity. }
    intros [|i] rn sn Hi Hlater.
    + cbn in Hi. injection Hi as <- <-. cbn in Hlater.
      exists item, valid, value. rewrite Nat.add_0_r.
      split; [exact Ei|]. split; [exact Ed|].
      rewrite (collect_other _ _ _ _ _ _ Hc Hlater). apply lookup_insert_eq.
    + cbn in Hi. cbn in Hlater.
      destruct (Hpos i rn sn Hi Hlater) as (item' & valid' & value' & E1 & E2 & E3).
      exists item', valid', value'.
      replace (index + S i)%nat with (S index + i)%nat by lia. auto.
Qed.

Lemma NoDup_later {A} (l : list A) i x :
  NoDup l -> l !! i = Some x -> x ∉ drop (S i) l.
Proof.
  intros Hnd Hi Hin. apply list_elem_of_lookup in Hin as [j Hj].
  rewrite lookup_drop in Hj.
  pose proof (NoDup_lookup l i (S i + j) x Hnd Hi Hj). lia.
Qed.

(** When [get] of a group returns: it has sent the one command of the
    group and nothing else, the group is unchanged, the reply had at least
    as many parts as there are registered results, the keys of the
    dictionary are the registered names, and, the names being distinct, the
    entry of the [i]-th name is the [i]-th part of the reply, decoded as a
    scalar result, with [None] for a part that is flagged invalid. *)
Theorem group_get_by_position
    (g : ResultGroup.t) (w : world) (resDict : gmap string pyval)
    (g' : ResultGroup.t) (w' : world) :
  ResultGroup.get g w = (Ok resDict, g', w') ->
  g' = g
  /\ exists reply d,
       dev_receive (ResultGroup._cmd g) (dev w) = (Reply reply, d)
       /\ w' = World d (trace w ++ [Queried (ResultGroup._cmd g)])
       /\ (length (ResultGroup.nameList g) <= length (Py.split ";"%char reply))%nat
       /\ dom resDict = list_to_set (ResultGroup.nameList g).*1
       /\ (NoDup (ResultGroup.nameList g).*1 ->
           forall i resultName scpiName,
             ResultGroup.nameList g !! i = Some (resultName, scpiName) ->
             exists item valid value,
               Py.split ";"%char reply !! i = Some item
               /\ _decodeResult item scpiName = Ok (valid, value)
               /\ resDict !! resultName = Some (if valid : bool then value else VNone)).
Proof.
  unfold ResultGroup.get. rewrite bind_self.
  destruct (ResultGroup._cmd g) as [|c cmd] eqn:Ecmd; [discriminate|].
  rewrite bind_receiveScpi.
  destruct (dev_receive (String c cmd) (dev w)) as [[reply|msg] d]; [|discriminate].
  unfold lift_outcome.
  destruct (ResultGroup.collect (Py.split ";"%char reply) (ResultGroup.nameList g) 0 ∅)
    as [r|ex] eqn:Ec; [|discriminate].
  intros [= <- <- <-]. split; [reflexivity|].
  exists reply, d. split; [reflexivity|]. split; [reflexivity|].
  destruct (collect_spec _ _ _ _ _ (Nat.le_0_l _) Ec) as (Hlen & Hdom & Hpos).
  split; [lia|]. split; [rewrite Hdom, dom_empty_L; apply (right_id_L ∅ (∪))|].
  intros Hnd i resultName scpiName Hi.
  apply (Hpos i resultName scpiName Hi).
  rewrite fmap_drop.
  apply (NoDup_later _ i _ Hnd). rewrite list_lookup_fmap, Hi. reflexivity.
Qed.

(** *** Registration *)

Import ResultGroup.

(** The name and the nodes of an item. *)
Definition item_name (it : item) : string :=
  match it with
  | Plain s => s
  | Named resultName _ => resultName
  end.

Definition item_nodes (it : item) : string :=
  match it with
  | Plain s => s
  | Named _ s => s
  end.

(** What registration keeps true of a group: [_names] holds the registered
    names, which are distinct, and [_cmd] is the queries of the registered
    results, in their order, with semicolons between them. *)
Definition registered (g : registry) : Prop :=
  _names g = list_to_set (nameList (fields g)).*1
  /\ NoDup (nameList (fields g)).*1
  /\ Forall (fun c => c <> EmptyString) (nameList (fields g)).*2
  /\ _cmd (fields g) = Py.join ";" (nameList (fields g)).*2.

Lemma init_registered groupDescription : registered (__init__ groupDescription).
Proof. repeat split; cbn; [constructor|constructor]. Qed.

Lemma replace_nonempty old new s :
  s <> EmptyString -> new <> EmptyString -> Py.replace old new s <> EmptyString.
Proof.
  intros Hs Hn. destruct s as [|c rest]; [contradiction|].
  unfold Py.replace. cbn [Py.replace_go].
  destruct (Py.startswith old (String c rest)); [|discriminate].
  destruct new; [contradiction|discriminate].
Qed.

Lemma app_nonempty_r (a b : string) : b <> EmptyString -> a ++ b <> EmptyString.
Proof. intros Hb. destruct a; [exact Hb|discriminate]. Qed.

Lemma scpiCmd_nonempty description rootName scpiName cmd :
  _scpiCmd description rootName scpiName = Ok cmd -> cmd <> EmptyString.
Proof.
  unfold _scpiCmd.
  destruct (Py.last_char scpiName); [|discriminate].
  destruct (Py.last_char _); [|discriminate].
  destruct (Py.first_char _); [|discriminate].
  destruct (_scpiRootComponents description rootName) as [[c0 [c1|]]|ex]; [| |discriminate].
  all: intros [= <-]; apply replace_nonempty; [|discriminate].
  all: repeat (apply app_nonempty_r); discriminate.
Qed.

(** The text [addResults] collects: every query followed by a semicolon. *)
Fixpoint with_semicolons (cmds : list string) : string :=
  match cmds with
  | [] => EmptyString
  | c :: rest => c ++ ";" ++ with_semicolons rest
  end.

Lemma drop_last_app (a b : string) :
  b <> EmptyString -> Py.drop_last (a ++ b) = a ++ Py.drop_last b.
Proof.
  intros Hb. induction a as [|c a IH]; [reflexivity|].
  change (String c a ++ b) with (String c (a ++ b)).
  cbn [Py.drop_last]. destruct (a ++ b) eqn:E.
  - destruct a; [contradiction|discriminate].
  - rewrite IH. reflexivity.
Qed.

Lemma drop_last_with_semicolons cmds :
  Py.drop_last (with_semicolons cmds) = Py.join ";" cmds.
Proof.
  induction cmds as [|c rest IH]; [reflexivity|].
  cbn [with_semicolons]. destruct rest as [|c' rest'].
  - cbn [with_semicolons Py.join]. apply drop_last_app_char.
  - rewrite join_cons, <- IH, drop_last_app.
    + rewrite drop_last_app; [reflexivity|].
      cbn [with_semicolons]. apply app_nonempty_r. discriminate.
    + discriminate.
Qed.

Lemma join_nonempty sep l :
  l <> [] -> Forall (fun c => c <> EmptyString) l -> Py.join sep l <> EmptyString.
Proof.
  intros Hl Hall. destruct Hall as [|c rest Hc _]; [contradiction|].
  destruct rest; [exact Hc|]. rewrite join_cons.
  destruct c; [contradiction|discriminate].
Qed.

Lemma join_app sep l1 l2 :
  l1 <> [] -> l2 <> [] ->
  Py.join sep (l1 ++ l2)%list = Py.join sep l1 ++ sep ++ Py.join sep l2.
Proof.
  intros H1 H2. induction l1 as [|a l1 IH]; [contradiction|].
  destruct l1 as [|b l1].
  - destruct l2; [contradiction|]. reflexivity.
  - change ((a :: b :: l1) ++ l2)%list with (a :: b :: (l1 ++ l2))%list.
    rewrite !join_cons.
    change (b :: (l1 ++ l2))%list with ((b :: l1) ++ l2)%list.
    rewrite IH by discriminate. rewrite !app_assoc_s. reflexivity.
Qed.

(** The loop of [addResults] sends nothing and leaves the command and the
    description alone. *)
Lemma add_items_state resultRoot results cmd g w r g' w' :
  add_items resultRoot results cmd g w = (r, g', w') ->
  w' = w /\ _cmd (fields g') = _cmd (fields g)
  /\ description (fields g') = description (fields g).
Proof.
  revert cmd g w. induction results as [|it rest IH]; intros cmd g w; cbn [add_items].
  - unfold ret. intros [= <- <- <-]. auto.
  - destruct (match it with
              | Plain s => (s, s)
              | Named resultName s => (resultName, s)
              end) as [item0 item1].
    rewrite bind_self. case_bool_decide as Hin.
    { unfold raise. intros [= <- <- <-]. auto. }
    rewrite bind_update, bind_lift_outcome.
    destruct (_scpiCmd (description (fields g)) resultRoot item1) as [scpi|ex].
    2: { intros [= <- <- <-]. auto. }
    rewrite bind_update. intros Hrest.
    destruct (IH _ _ _ Hrest) as (-> & Hcmd & Hdesc). auto.
Qed.

(** The loop of [addResults] when it runs to its end. *)
Lemma add_items_ok resultRoot results cmd g w cmd' g' w' :
  add_items resultRoot results cmd g w = (Ok cmd', g', w') ->
  exists cmds,
    Forall2 (fun it c =>
               _scpiCmd (description (fields g)) resultRoot (item_nodes it) = Ok c)
            results cmds
    /\ nameList (fields g') = (nameList (fields g) ++ zip (map item_name results) cmds)%list
    /\ cmd' = cmd ++ with_semicolons cmds
    /\ _names g' = list_to_set (map item_name results) ∪ _names g
    /\ NoDup (map item_name results)
    /\ (forall name, name ∈ map item_name results -> name ∉ _names g).
Proof.
  revert cmd g w. induction results as [|it rest IH]; intros cmd g w; cbn [add_items].
  - unfold ret. intros [= <- <-]. exists []. cbn.
    rewrite app_nil_r, app_empty_r, (left_id_L ∅ (∪)).
    repeat split; [constructor|constructor|]. intros name Hn. inversion Hn.
  - assert (match it with
            | Plain s => (s, s)
            | Named resultName s => (resultName, s)
            end = (item_name it, item_nodes it)) as -> by (destruct it; reflexivity).
    rewrite bind_self. case_bool_decide as Hin; [discriminate|].
    rewrite bind_update, bind_lift_outcome.
    destruct (_scpiCmd (description (fields g)) resultRoot (item_nodes it)) as [scpi|ex] eqn:Es;
      [|discriminate].
    rewrite bind_update. intros Hrest.
    destruct (IH _ _ _ Hrest) as (cmds & Hall & Hl & Hc & Hn & Hnd & Hfresh).
    cbn [fields append_item add_name description nameList _names] in Hall, Hl, Hn, Hfresh.
    exists (scpi :: cmds).
    split; [constructor; assumption|].
    split; [rewrite Hl, <- app_assoc; reflexivity|].
    split; [rewrite Hc; cbn [with_semicolons]; rewrite !app_assoc_s; reflexivity|].
    split.
    { rewrite Hn. cbn [map list_to_set].
      rewrite (comm_L (∪) {[item_name it]} (list_to_set (map item_name rest))).
      rewrite (assoc_L (∪)). reflexivity. }
    split.
    { cbn [map]. constructor; [|exact Hnd].
      intros Hdup. apply (Hfresh _ Hdup). apply elem_of_union_l, elem_of_singleton. reflexivity. }
    intros name Hname. cbn [map] in Hname. apply elem_of_cons in Hname as [->|Hname]; [exact Hin|].
    intros Hg. apply (Hfresh _ Hname). apply elem_of_union_r. exact Hg.
Qed.

Lemma zip_fst {A B} (l : list A) (k : list B) : length l = length k -> (zip l k).*1 = l.
Proof.
  revert k. induction l as [|a l IH]; intros [|b k]; cbn; try discriminate; [reflexivity|].
  intros [= Hlen]. rewrite IH by exact Hlen. reflexivity.
Qed.

Lemma zip_snd {A B} (l : list A) (k : list B) : length l = length k -> (zip l k).*2 = k.
Proof.
  revert k. induction l as [|a l IH]; intros [|b k]; cbn; try discriminate; [reflexivity|].
  intros [= Hlen]. rewrite IH by exact Hlen. reflexivity.
Qed.

(** A call of [addResults] that returns, with at least one item, keeps the
    group registered: the names of the items were new and distinct, they
    are added in the order given, each with the query [_scpiCmd] builds for
    it, and the command of the group has grown by these queries.  However
    the call ends, nothing is sent, and a call that raises leaves the
    command as it was. *)
Theorem addResults_keeps_registered
    (resultRoot : string) (results : list item)
    (g : registry) (w : world) (r : outcome unit) (g' : registry) (w' : world) :
  registered g ->
  results <> [] ->
  addResults resultRoot results g w = (r, g', w') ->
  w' = w
  /\ (r = Ok tt ->
      registered g'
      /\ exists cmds,
           Forall2 (fun it c =>
                      _scpiCmd (description (fields g)) resultRoot (item_nodes it) = Ok c)
                   results cmds
           /\ nameList (fields g')
              = (nameList (fields g) ++ zip (map item_name results) cmds)%list)
  /\ (r <> Ok tt -> _cmd (fields g') = _cmd (fields g)).
Proof.
  intros (Hnames & Hnd & Hne & Hcmd) Hres. unfold addResults, bind at 1.
  destruct (add_items resultRoot results EmptyString g w) as [[[cmd'|ex] g1] w1] eqn:Ea.
  2: { intros [= <- <- <-]. destruct (add_items_state _ _ _ _ _ _ _ _ Ea) as (-> & Hc & _).
       split; [reflexivity|]. split; [discriminate|]. intros _. exact Hc. }
  destruct (add_items_state _ _ _ _ _ _ _ _ Ea) as (-> & Hc1 & Hd1).
  rewrite bind_self. unfold update. intros [= <- <- <-].
  split; [reflexivity|]. split; [|intros Hr; contradiction].
  intros _.
  destruct (add_items_ok _ _ _ _ _ _ _ _ Ea) as (cmds & Hall & Hl & Hc & Hn & Hnd' & Hfresh).
  pose proof (Forall2_length _ _ _ Hall) as Hlen.
  assert (length (map item_name results) = length cmds) as Hlen' by (rewrite length_map; exact Hlen).
  assert (cmds <> []) as Hcmds by (destruct results, cmds; try discriminate; congruence).
  assert (Forall (fun c => c <> EmptyString) cmds) as Hne'.
  { clear -Hall. induction Hall as [|it c ? ? Hs _ IH]; constructor; [|exact IH].
    eapply scpiCmd_nonempty; eauto. }
  split; [|exists cmds; split; [exact Hall|exact Hl]].
  unfold registered. cbn [fields with_cmd nameList _names _cmd].
  rewrite Hl, !fmap_app, zip_fst, zip_snd by exact Hlen'.
  split; [|split; [|split]].
  - rewrite Hn, Hnames, list_to_set_app_L. apply (comm_L (∪)).
  - apply NoDup_app. split; [exact Hnd|]. split; [|exact Hnd'].
    intros name Hold Hnew. apply (Hfresh _ Hnew). rewrite Hnames.
    apply elem_of_list_to_set. exact Hold.
  - apply Forall_app. split; assumption.
  - rewrite Hc1, Hcmd, Hc. change (EmptyString ++ ?x) with x.
    rewrite drop_last_with_semicolons.
    destruct ((nameList (fields g)).*2) as [|c0 old] eqn:Eold.
    + reflexivity.
    + assert (Py.join ";" (c0 :: old) <> EmptyString) as Hj
        by (apply join_nonempty; [discriminate|exact Hne]).
      rewrite join_app by (discriminate || exact Hcmds).
      destruct (Py.join ";" (c0 :: old)) as [|a s]; [contradiction|].
      rewrite !app_assoc_s. reflexivity.
Qed.

End GroupedResults.

(** ** Final values of vector results *)

Section FinalResults.
Context `{PyRuntime} `{Transport}.

(** The window [final(index, length)] cuts out of the values read: an index
    that is not positive counts as 0, a length [n >= 0] keeps at most [n]
    values, and a negative one drops that many values from the end. *)
Definition window {A} (index : Z) (length : option Z) (values : list A) : list A :=
  let rest := skipn (Z.to_nat index) values in
  match length with
  | None => rest
  | Some n =>
      if 0 <=? n then firstn (Z.to_nat n) rest
      else firstn (List.length rest - Z.to_nat (- n)) rest
  end.

Lemma window_eq {A} index length (values : list A) :
  match length with
  | Some n =>
      if n <? Z.of_nat (List.length (if 0 <? index then drop (Z.to_nat index) values
                                     else values))
      then Py.slice_to n (if 0 <? index then drop (Z.to_nat index) values else values)
      else if 0 <? index then drop (Z.to_nat index) values else values
  | None => if 0 <? index then drop (Z.to_nat index) values else values
  end = window index length values.
Proof.
  unfold window. cbv zeta.
  assert ((if 0 <? index then drop (Z.to_nat index) values else values)
          = skipn (Z.to_nat index) values) as ->.
  { destruct (Z.ltb_spec 0 index); [reflexivity|].
    replace (Z.to_nat index) with 0%nat by lia. reflexivity. }
  destruct length as [n|]; [|reflexivity].
  set (rest := skipn (Z.to_nat index) values). unfold Py.slice_to.
  destruct (Z.leb_spec 0 n) as [Hn|Hn].
  - destruct (Z.ltb_spec n 0); [lia|].
    destruct (Z.ltb_spec n (Z.of_nat (List.length rest))); [reflexivity|].
    symmetry. apply firstn_all2. lia.
  - destruct (Z.ltb_spec n 0); [|lia].
    destruct (Z.ltb_spec n (Z.of_nat (List.length rest))); [|lia].
    f_equal. lia.
Qed.

Definition fin_cmd (name : string) : string := ":SENS:DATA:FIN? " ++ Py.dq ++ name ++ Py.dq.

(** [final] of a block result whose read is valid returns the window of the
    values read, after the one query for the final values; when the window
    is empty, also because no value was read at all, the call ends with
    [TypeError] (the message of the error meant for that case is built with
    too few arguments): [final] never returns an empty list. *)
Theorem block_final_window
    (r : BlockResult.t) (w : world) (index : Z) (length : option Z)
    (values : list pyval) (r' : BlockResult.t) (w' : world) :
  BlockResult._readValues (fin_cmd (BlockResult.name r)) r w = (Ok (true, values), r', w') ->
  BlockResult.final index length r w
  = (match window index length values with
     | [] => Raise TypeError
     | _ :: _ => Ok (BlockResult.RValues (window index length values))
     end, r', w')
  /\ BlockResult.final index length r w <> (Ok (BlockResult.RValues []), r', w').
Proof.
  intros Hread.
  assert (BlockResult.final index length r w
          = (match window index length values with
             | [] => Raise TypeError
             | _ :: _ => Ok (BlockResult.RValues (window index length values))
             end, r', w')) as E.
  { unfold BlockResult.final. rewrite bind_self. fold (fin_cmd (BlockResult.name r)).
    unfold bind. rewrite Hread. cbv iota beta zeta.
    rewrite (window_eq index length values).
    destruct (window index length values); reflexivity. }
  split; [exact E|]. rewrite E.
  destruct (window index length values); discriminate.
Qed.

(** The same for an extended block result. *)
Theorem extended_final_window
    (r : ExtendedBlockResult.t) (w : world) (index : Z) (length : option Z)
    (values : list pyval) (r' : ExtendedBlockResult.t) (w' : world) :
  ExtendedBlockResult._readValues (fin_cmd (ExtendedBlockResult.name r)) r w
  = (Ok (true, values), r', w') ->
  ExtendedBlockResult.final index length r w
  = (match window index length values with
     | [] => Raise TypeError
     | _ :: _ => Ok (ExtendedBlockResult.RValues (window index length values))
     end, r', w')
  /\ ExtendedBlockResult.final index length r w
     <> (Ok (ExtendedBlockResult.RValues []), r', w').
Proof.
  intros Hread.
  assert (ExtendedBlockResult.final index length r w
          = (match window index length values with
             | [] => Raise TypeError
             | _ :: _ => Ok (ExtendedBlockResult.RValues (window index length values))
             end, r', w')) as E.
  { unfold ExtendedBlockResult.final. rewrite bind_self.
    fold (fin_cmd (ExtendedBlockResult.name r)).
    unfold bind. rewrite Hread. cbv iota beta zeta.
    rewrite (window_eq index length values).
    destruct (window index length values); reflexivity. }
  split; [exact E|]. rewrite E.
  destruct (window index length values); discriminate.
Qed.

End FinalResults.

(** ** Vector endpoints of strings *)

Section BlockStrings.
Context `{PyRuntime} `{Transport}.
Import BlockParameter.

#[local] Arguments set_at : simpl never.
#[local] Arguments _parseValues_at : simpl never.

(** The trace entry of [_txCmd(cmd)] on a vector endpoint. *)
Definition block_io (x : tx) (cmd : string) : io :=
  match x with
  | TxSend => Sent cmd
  | TxReceive => Queried cmd
  end.

Lemma block_txCmd_eq cmd p w :
  exists r d,
    txCmd cmd p w = (r, p, World d (trace w ++ [block_io (_txCmd p) cmd]))
    /\ (r = Ok tt \/ exists msg, r = Raise (OntRemoteError msg)).
Proof.
  unfold txCmd. rewrite bind_self. destruct (_txCmd p); cbn [block_io].
  - unfold sendScpi. destruct (dev_send cmd (dev w)) as [[[]|msg] d]; cbn; eauto 6.
  - rewrite bind_receiveScpi. destruct (dev_receive cmd (dev w)) as [[a|msg] d]; cbn; eauto 6.
Qed.

Lemma block_set_at_bound depth index values p w m :
  attr_set p = Some m ->
  set_at depth index values p w
  = match m with
    | Bound__set => _set index values p w
    | Bound__setScpiString => _setScpiString index values p w
    end.
Proof.
  intros Hm. destruct depth; unfold set_at; rewrite bind_self, Hm; destruct m; reflexivity.
Qed.

Lemma block_parseValues_at_bound depth valueList p w m :
  attr__parseValues p = Some m ->
  _parseValues_at depth valueList p w
  = match m with
    | Bound__parseNumericValues => _parseNumericValues valueList p w
    | Bound__parseStringValues => _parseStringValues valueList p w
    | Bound__parseDiscreteValues => _parseDiscreteValues valueList p w
    end.
Proof.
  intros Hm. destruct depth; unfold _parseValues_at; rewrite bind_self, Hm;
    destruct m; reflexivity.
Qed.

Lemma block_parseValues_at_unbound depth valueList p w :
  attr__parseValues p = None ->
  _parseValues_at (S depth) valueList p w
  = bind (lift_option IndexError (items_of valueList !! 0%nat))
         (fun item => _configureType item;; _parseValues_at depth valueList) p w.
Proof.
  intros Hm. unfold _parseValues_at at 1. rewrite bind_self, Hm. reflexivity.
Qed.

(** A string between quotes, as the instrument reports the items of a block
    of strings. *)
Definition enclosed (s : string) : string := Py.dq ++ s ++ Py.dq.

(** The items that are written as they were read: not empty, without a
    quote at either end, without a comma. *)
Definition plain_item (s : string) : Prop :=
  (exists a, Py.first_char s = Some a /\ a <> Py.dquote)
  /\ (exists b, Py.last_char s = Some b /\ b <> Py.dquote)
  /\ Py.find ","%char s = -1.

Lemma slice_enclosed s : Py.slice_1_m1 (enclosed s) = s.
Proof.
  unfold enclosed, Py.slice_1_m1.
  change (Py.dq ++ ?x) with (String Py.dquote x).
  cbn [Py.drop_first]. apply drop_last_app_char.
Qed.

Lemma contains_enclosed s :
  contains ","%char s = false -> contains ","%char (enclosed s) = false.
Proof.
  intros Hs. unfold enclosed. rewrite !contains_app, Hs. reflexivity.
Qed.

(** The items of a write, each after a comma. *)
Fixpoint comma_items (l : list string) : string :=
  match l with
  | [] => EmptyString
  | s :: rest => ("," ++ enclosed s) ++ comma_items rest
  end.

Lemma quoted_items_plain l :
  Forall plain_item l -> quoted_items (map VStr l) = Ok (comma_items l).
Proof.
  induction 1 as [|s l ((a & Ha & Hqa) & (b & Hb & Hqb) & _) _ IH]; [reflexivity|].
  cbn [map quoted_items quoted_item]. rewrite Ha, Hb, IH.
  apply Ascii.eqb_neq in Hqa, Hqb. rewrite Hqa, Hqb. reflexivity.
Qed.

Lemma concat_commas l :
  l <> [] -> comma_items l = "," ++ Py.join "," (map enclosed l).
Proof.
  intros Hl. induction l as [|s l IH]; [contradiction|].
  destruct l as [|s' l'].
  - cbn [comma_items map Py.join]. apply app_empty_r.
  - cbn [map] in *. rewrite join_cons. cbn [comma_items] in *.
    rewrite IH by discriminate. rewrite !app_assoc_s. reflexivity.
Qed.

(** On a vector endpoint that was not used yet, when the instrument reports
    a block of strings, each between quotes, none empty or with a quote at
    an end or a comma inside: [store] reads the block with one query and
    keeps the strings without their quotes, and [restore] after it sends one
    command that writes the block back from index 0 with the number of
    items and the very items that were read. *)
Theorem block_store_restore_strings
    (p : t) (w : world) (l : list string) (d : conn) :
  attr_set p = None -> attr__parseValues p = None ->
  l <> [] -> Forall plain_item l ->
  to_number (enclosed (hd EmptyString l)) = None ->
  let reply := Py.join "," (map enclosed l) in
  dev_receive (_name p ++ ":BLOC?") (dev w) = (Reply reply, d) ->
  let w1 := World d (trace w ++ [Queried (_name p ++ ":BLOC?")]) in
  exists p1,
    store p w = (Ok tt, p1, w1)
    /\ _storedValue p1 = Some (BList (map VStr l))
    /\ exists r d',
         restore p1 w1
         = (r, p1,
            World d' (trace w
                      ++ [Queried (_name p ++ ":BLOC?");
                          block_io (_txCmd p)
                            ((_name p ++ " " ++ fmt_dd 0 (Z.of_nat (length l)))
                             ++ ("," ++ reply) ++ _postfixString p)]))
         /\ (r = Ok tt \/ exists msg, r = Raise (OntRemoteError msg)).
Proof.
  intros Hs Hp Hl Hall Hnum reply Hq w1.
  assert (Py.split ","%char reply = map enclosed l) as Hsplit.
  { unfold reply. apply split_join.
    - destruct l; [contradiction|discriminate].
    - apply Forall_map. eapply Forall_impl; [exact Hall|].
      intros s (_ & _ & Hc). apply contains_enclosed, find_absent. exact Hc. }
  set (p0 := with_type (Some TStr)
               (with__parseValues Bound__parseStringValues
                  (with_set Bound__setScpiString (with_set Bound__set p)))).
  assert (get 0 None p w = (Ok (BList (map VStr l)), p0, w1)) as Hget.
  { unfold get. rewrite bind_self, bind_receiveScpi, Hq. fold w1.
    change (0 <? 0) with false. cbv iota. rewrite bind_ret, Hsplit.
    unfold _parseValues, recursion_limit.
    change 1000%nat with (S 999).
    rewrite block_parseValues_at_unbound by exact Hp.
    cbn [items_of]. destruct l as [|s l']; [contradiction|]. cbn [map lookup list_lookup].
    rewrite bind_lift_option. unfold _configureType at 1.
    cbn [hd] in Hnum. rewrite Hnum.
    repeat run_step.
    change (Py.first_char (enclosed s)) with (Some Py.dquote).
    rewrite bind_lift_option, Ascii.eqb_refl.
    repeat run_step.
    rewrite (block_parseValues_at_bound _ _ _ _ Bound__parseStringValues) by reflexivity.
    unfold _parseStringValues, ret. cbn [items_of]. fold p0. do 3 f_equal.
    change (enclosed s :: map enclosed l') with (map enclosed (s :: l')).
    change (VStr s :: map VStr l') with (map VStr (s :: l')).
    rewrite map_map. f_equal. apply map_ext. intros a. rewrite slice_enclosed. reflexivity. }
  exists (with_storedValue (Some (BList (map VStr l))) p0).
  split; [unfold store, bind; rewrite Hget; reflexivity|].
  split; [reflexivity|].
  unfold restore. rewrite bind_self. cbn [_storedValue with_storedValue].
  unfold set. rewrite (block_set_at_bound _ _ _ _ _ Bound__setScpiString) by reflexivity.
  unfold _setScpiString. cbn [lift_outcome]. rewrite bind_ret, bind_self.
  rewrite (quoted_items_plain l Hall). cbn [lift_outcome]. rewrite bind_ret.
  rewrite (concat_commas l Hl), length_map. fold reply.
  match goal with |- context [txCmd ?c ?q ?ww] =>
    destruct (block_txCmd_eq c q ww) as (r & d' & E & Hr) end.
  exists r, d'. rewrite E. unfold w1. cbn [trace]. rewrite <- app_assoc.
  split; [reflexivity|exact Hr].
Qed.

(** The items a string write cannot take: what is not a string, and the
    empty string. *)
Definition unwritable (item : pyval) : Prop :=
  match item with
  | VStr s => s = EmptyString
  | _ => True
  end.

Lemma quoted_items_refused items :
  Exists unwritable items ->
  exists ex, quoted_items items = Raise ex /\ (ex = TypeError \/ ex = IndexError).
Proof.
  induction items as [|item rest IH]; intros Hex; [inversion Hex|].
  cbn [quoted_items].
  destruct (quoted_item item) as [s|ex] eqn:Ei.
  - assert (~ unwritable item) as Hok.
    { destruct item as [| | | |s0]; try discriminate Ei. cbn. intros ->. discriminate Ei. }
    apply Exists_cons in Hex as [Hex|Hex]; [contradiction|].
    destruct (IH Hex) as (ex & -> & Hk). eauto.
  - exists ex. split; [reflexivity|].
    destruct item as [| | | |s0]; cbn in Ei; try (injection Ei as <-; auto).
    destruct (Py.first_char s0), (Py.last_char s0); try discriminate Ei; injection Ei as <-; auto.
Qed.

(** A string write is all or nothing: when one of the items is not a string
    or is the empty string, the call ends with [TypeError] or [IndexError]
    and nothing is sent, whatever the other items are. *)
Theorem string_block_write_refused
    (index : Z) (items : list pyval) (p : t) (w : world) :
  Exists unwritable items ->
  exists ex,
    _setScpiString index (BList items) p w = (Raise ex, p, w)
    /\ (ex = TypeError \/ ex = IndexError).
Proof.
  intros Hex. destruct (quoted_items_refused items Hex) as (ex & E & Hk).
  exists ex. split; [|exact Hk].
  unfold _setScpiString. cbn [lift_outcome]. rewrite bind_ret, bind_self, E. reflexivity.
Qed.

End BlockStrings.

(** ** Groups of parameters *)

Section ParameterGroups.
Context `{PyRuntime} `{Transport}.
Import ParameterGroup.

(** The attributes of the group object itself. *)
Definition reserved : list string := ["_con"; "description"; "_parameterList"].

(** What registration keeps true of a group: the names are distinct and
    none of them is an attribute of the group object. *)
Definition distinct_names (g : t) : Prop :=
  NoDup (map fst (_parameterList g))
  /\ forall name, name ∈ map fst (_parameterList g) -> name ∉ reserved.

(** The entry an item of [parameters] stands for. *)
Definition registers (item : definition) (entry : string * member) : Prop :=
  match item with
  | Def2 name scpiName => entry = (name, new_member scpiName false)
  | Def3 name scpiName queryOpc => entry = (name, new_member scpiName queryOpc)
  | DefOther => False
  end.

Lemma init_distinct_names groupDescription : distinct_names (__init__ groupDescription).
Proof. split; [constructor|]. intros name Hn. inversion Hn. Qed.

(** [addParameters] sends nothing and keeps the description.  The members
    it adds are those of the items up to the first that is refused, in the
    order given, each a vector endpoint when its SCPI name ends in the node
    [:BLOC] and a scalar endpoint otherwise; the names stay distinct and
    never hide an attribute of the group; an item is refused with an
    [OntRemoteError], and the items before it stay registered. *)
Theorem addParameters_registers_in_order
    (parameters : list definition) (g : t) (w : world)
    (r : outcome unit) (g' : t) (w' : world) :
  distinct_names g ->
  addParameters parameters g w = (r, g', w') ->
  w' = w
  /\ description g' = description g
  /\ distinct_names g'
  /\ exists k added,
       (k <= length parameters)%nat
       /\ _parameterList g' = (_parameterList g ++ added)%list
       /\ Forall2 registers (take k parameters) added
       /\ (r = Ok tt -> k = length parameters)
       /\ (r <> Ok tt -> (k < length parameters)%nat
                         /\ exists msg, r = Raise (OntRemoteError msg)).
Proof.
  revert g w. induction parameters as [|item rest IH]; intros g w Hg; cbn [addParameters].
  - unfold ret. intros [= <- <- <-]. repeat split; try apply Hg.
    exists 0%nat, []. rewrite app_nil_r. cbn [length take].
    split; [lia|]. split; [reflexivity|]. split; [constructor|].
    split; [reflexivity|]. intros Hr. contradiction.
  - rewrite bind_self.
    assert (forall msg, (Raise (OntRemoteError msg), g, w) = (r, g', w') ->
              w' = w /\ description g' = description g /\ distinct_names g'
              /\ exists k added,
                   (k <= length (item :: rest))%nat
                   /\ _parameterList g' = (_parameterList g ++ added)%list
                   /\ Forall2 registers (take k (item :: rest)) added
                   /\ (r = Ok tt -> k = length (item :: rest))
                   /\ (r <> Ok tt -> (k < length (item :: rest))%nat
                                     /\ exists msg, r = Raise (OntRemoteError msg))) as Hstop.
    { intros msg [= <- <- <-]. repeat split; try apply Hg.
      exists 0%nat, []. rewrite app_nil_r. cbn [length take].
      split; [lia|]. split; [reflexivity|]. split; [constructor|].
      split; [discriminate|]. intros _. split; [lia|eauto]. }
    assert (forall name scpiName queryOpc,
              registers item (name, new_member scpiName queryOpc) ->
              (if in_dict name g
               then raise (OntRemoteError
                             ("ParameterGroup " ++ description g
                              ++ ": Registered name must be unique: " ++ name))
               else update (register name (new_member scpiName queryOpc));;
                    addParameters rest) g w = (r, g', w') ->
              w' = w /\ description g' = description g /\ distinct_names g'
              /\ exists k added,
                   (k <= length (item :: rest))%nat
                   /\ _parameterList g' = (_parameterList g ++ added)%list
                   /\ Forall2 registers (take k (item :: rest)) added
                   /\ (r = Ok tt -> k = length (item :: rest))
                   /\ (r <> Ok tt -> (k < length (item :: rest))%nat
                                     /\ exists msg, r = Raise (OntRemoteError msg))) as Hgo.
    { intros name scpiName queryOpc Hreg. unfold in_dict. case_bool_decide as Hin.
      { apply Hstop. }
      rewrite bind_update. intros Hrest.
      apply not_elem_of_app in Hin as [Hres Hnew].
      assert (distinct_names (register name (new_member scpiName queryOpc) g)) as Hg1.
      { destruct Hg as [Hnd Hrv]. unfold distinct_names. cbn [register _parameterList].
        rewrite map_app. cbn [map]. split.
        - apply NoDup_app. split; [exact Hnd|]. split; [|apply NoDup_singleton].
          intros x Hx Hx'. apply list_elem_of_singleton in Hx'. subst x. contradiction.
        - intros x Hx. apply elem_of_app in Hx as [Hx|Hx]; [apply Hrv; exact Hx|].
          apply list_elem_of_singleton in Hx. subst x. exact Hres. }
      destruct (IH _ _ Hg1 Hrest) as (-> & Hd & Hg' & k & added & Hk & Hl & Hadd & Hok & Herr).
      split; [reflexivity|]. split; [exact Hd|]. split; [exact Hg'|].
      exists (S k), ((name, new_member scpiName queryOpc) :: added).
      cbn [register _parameterList] in Hl. cbn [length take].
      split; [lia|]. split; [rewrite Hl, <- app_assoc; reflexivity|].
      split; [constructor; assumption|].
      split; [intros Hr; rewrite (Hok Hr); reflexivity|].
      intros Hr. destruct (Herr Hr) as [Hlt Hmsg]. split; [lia|exact Hmsg]. }
    destruct item as [name scpiName|name scpiName queryOpc|].
    + rewrite bind_ret. apply Hgo. reflexivity.
    + rewrite bind_ret. apply Hgo. reflexivity.
    + rewrite bind_raise. apply Hstop.
Qed.

(** A member as the constructors leave it. *)
Definition fresh (m : member) : Prop :=
  match m with
  | Scalar p => exists scpiName opcQuery, p = ScalarParameter.__init__ scpiName opcQuery
  | Block p => exists scpiName opcQuery, p = BlockParameter.__init__ scpiName opcQuery
  end.

Lemma new_member_fresh scpiName queryOpc : fresh (new_member scpiName queryOpc).
Proof. unfold new_member. destruct (_isBlockParameter scpiName); cbn; eauto. Qed.

(** The members of a group that was only filled are as the constructors
    left them, and a call that returns has added one member for each
    item. *)
Lemma addParameters_fresh parameters g w r g' w' :
  Forall (fun entry => fresh entry.2) (_parameterList g) ->
  addParameters parameters g w = (r, g', w') ->
  Forall (fun entry => fresh entry.2) (_parameterList g')
  /\ (r = Ok tt ->
      length (_parameterList g') = (length (_parameterList g) + length parameters)%nat).
Proof.
  revert g w. induction parameters as [|item rest IH]; intros g w Hg; cbn [addParameters].
  - unfold ret. intros [= <- <- <-]. split; [exact Hg|]. intros _. cbn. lia.
  - rewrite bind_self.
    assert (forall name scpiName queryOpc,
              (if in_dict name g
               then raise (OntRemoteError
                             ("ParameterGroup " ++ description g
                              ++ ": Registered name must be unique: " ++ name))
               else update (register name (new_member scpiName queryOpc));;
                    addParameters rest) g w = (r, g', w') ->
              Forall (fun entry => fresh entry.2) (_parameterList g')
              /\ (r = Ok tt ->
                  length (_parameterList g')
                  = (length (_parameterList g) + length (item :: rest))%nat)) as Hgo.
    { intros name scpiName queryOpc. destruct (in_dict name g).
      { intros [= <- <- <-]. split; [exact Hg|discriminate]. }
      rewrite bind_update. intros Hrest.
      assert (Forall (fun entry => fresh entry.2)
                (_parameterList (register name (new_member scpiName queryOpc) g))) as Hg1.
      { cbn [register _parameterList]. apply Forall_app. split; [exact Hg|].
        constructor; [apply new_member_fresh|constructor]. }
      destruct (IH _ _ Hg1 Hrest) as [Hf Hlen]. split; [exact Hf|].
      intros Hr. rewrite (Hlen Hr). cbn [register _parameterList length].
      rewrite length_app. cbn [length]. lia. }
    destruct item as [name scpiName|name scpiName queryOpc|].
    + rewrite bind_ret. apply Hgo.
    + rewrite bind_ret. apply Hgo.
    + rewrite bind_raise. intros [= <- <- <-]. split; [exact Hg|discriminate].
Qed.

Lemma member_restore_fresh m w :
  fresh m -> exists msg, member_restore m w = (Raise (OntRemoteError msg), m, w).
Proof.
  destruct m as [p|p]; intros (scpiName & opcQuery & ->); cbn; eauto.
Qed.

(** A group that was filled and never stored cannot be restored: [restore]
    ends with the error of its first member, which asks for [store] first;
    nothing is sent and no member changes. *)
Theorem group_restore_before_store
    (groupDescription : string) (parameters : list definition)
    (w : world) (g : t) (w1 w2 : world) :
  addParameters parameters (__init__ groupDescription) w = (Ok tt, g, w1) ->
  parameters <> [] ->
  exists msg, restore g w2 = (Raise (OntRemoteError msg), g, w2).
Proof.
  intros Hadd Hne.
  assert (Forall (fun entry => fresh entry.2) (_parameterList (__init__ groupDescription)))
    as Hinit by constructor.
  destruct (addParameters_fresh _ _ _ _ _ _ Hinit Hadd) as [Hf Hlen].
  specialize (Hlen eq_refl). cbn [__init__ _parameterList length] in Hlen.
  destruct g as [desc l]. cbn [_parameterList] in Hf, Hlen.
  destruct l as [|[name m] l'].
  { destruct parameters; [contradiction|discriminate Hlen]. }
  apply Forall_cons in Hf as [Hm _]. cbn in Hm.
  destruct (member_restore_fresh m w2 Hm) as [msg E].
  exists msg. unfold restore. cbn [_parameterList each description]. rewrite E. reflexivity.
Qed.

End ParameterGroups.

(** ** The version of the instrument *)

Section Versions.







End Versions.

(** ** Skipping and reading *)

Section FeedSkip.
Context `{PyRuntime} `{!SchemaReader} `{Transport}.
Import EventList.

#[local] Arguments _decodeEvent : simpl never.

Lemma same_feed_refl (e : t) : same_feed e e.
Proof. split; reflexivity. Qed.

Lemma same_feed_trans (a b c : t) : same_feed a b -> same_feed b c -> same_feed a c.
Proof. intros [? ?] [? ?]. split; congruence. Qed.

(** A feed whose events are decoded without a word to the instrument: the
    decoder was settled by an earlier event, or decoding is not enabled. *)
Definition quiet (e : t) : Prop :=
  _decode e <> Bound__decodeInit \/ _enableDecoding e = false.

Lemma decode_quiet ev e w :
  quiet e ->
  exists r e1, decode ev e w = (r, e1, w) /\ same_feed e e1 /\ quiet e1.
Proof.
  intros Hq. unfold decode. rewrite bind_self.
  destruct (_decode e) eqn:Hmode.
  - destruct Hq as [Hq|Hq]; [contradiction|].
    unfold _decodeInit, bind at 1.
    rewrite (buildDecoder_gated e w (or_introl Hq)). rewrite bind_self.
    cbn [active_decoder with_decoder _decoder]. rewrite bind_update.
    exists (Ok ev), (with_decode Bound__decodeEmpty (with_decoder None e)).
    split; [reflexivity|]. split; [split; reflexivity|]. left. discriminate.
  - destruct (decodeEvent_eq ev e w) as [r ->]. exists r, e.
    split; [reflexivity|]. split; [apply same_feed_refl|exact Hq].
  - exists (Ok ev), e. split; [reflexivity|]. split; [apply same_feed_refl|exact Hq].
Qed.

Lemma page_events_quiet res offs filter acc e w :
  quiet e ->
  exists r e1, page_events res offs filter acc e w = (r, e1, w) /\ same_feed e e1 /\ quiet e1.
Proof.
  revert acc e. induction offs as [|ii offs IH]; intros acc e Hq; cbn [page_events].
  - exists (Ok acc), e. split; [reflexivity|]. split; [apply same_feed_refl|exact Hq].
  - rewrite bind_lift_outcome.
    destruct (record_at res ii) as [[id ev]|ex].
    2: { exists (Raise ex), e. split; [reflexivity|]. split; [apply same_feed_refl|exact Hq]. }
    unfold bind. destruct (decode_quiet ev e w Hq) as (r1 & e1 & -> & Hf1 & Hq1).
    destruct r1 as [ev'|ex].
    2: { exists (Raise ex), e1. split; [reflexivity|]. split; assumption. }
    destruct (IH (if passes filter id ev' then (acc ++ [ev'])%list else acc) e1 Hq1)
      as (r2 & e2 & -> & Hf2 & Hq2).
    exists r2, e2. split; [reflexivity|]. split; [exact (same_feed_trans _ _ _ Hf1 Hf2)|exact Hq2].
Qed.

Lemma get_loop_skip_loop bound number filter acc skipCount e es w res e' w' :
  _maxNumberPerCmd e = 100 -> quiet e -> same_feed es e ->
  get_loop bound number filter acc e w = (Ok res, e', w') ->
  skip_loop bound number skipCount es w = (Ok (skipCount + Z.max 0 number), es, w').
Proof.
  revert number acc skipCount e w. induction bound as [|bound IH];
    intros number acc skipCount e w Hmax Hq Hf; cbn [get_loop skip_loop];
    destruct (Z.ltb_spec 0 number) as [Hpos|Hneg]; try discriminate.
  1,3: unfold ret; intros [= <- <- <-]; do 3 f_equal; lia.
  pose proof Hf as [Hname Hmax'].
  rewrite Hmax in Hmax'.
  rewrite !bind_self, Hmax, <- Hmax', <- Hname. cbv zeta.
  rewrite !bind_receiveScpi.
  destruct (dev_receive _ (dev w)) as [[resp|msg] d]; [|discriminate].
  rewrite bind_lift_outcome.
  destruct (int_item (Py.split ","%char resp) 0) as [received|ex]; [|discriminate].
  destruct (negb (received =? Z.min number 100)); [discriminate|].
  destruct (negb (_ =? _)); [discriminate|].
  unfold bind at 1.
  match goal with |- context [page_events ?r ?o ?f ?a ?s ?ww] =>
    destruct (page_events_quiet r o f a s ww Hq) as (r1 & e1 & -> & Hf1 & Hq1) end.
  destruct r1 as [result1|ex]; [|discriminate].
  intros Hrest.
  assert (same_feed es e1) as Hf2 by exact (same_feed_trans _ _ _ Hf Hf1).
  rewrite (IH _ _ (skipCount + Z.min number 100) _ _
              (eq_trans (proj2 Hf1) Hmax) Hq1 Hf2 Hrest).
  do 3 f_equal. lia.
Qed.

(** [skip(n)] follows [get(n)]: on a feed whose events are decoded without
    a word to the instrument, whenever [get(n)] returns for an [n] of at
    least 1, [skip(n)] from the same state asks the same queries, leaves
    the connection exactly as [get(n)] leaves it, and returns the number of
    events [get(n)] read, which is the number it returned when no filter
    was given. *)
Theorem skip_follows_get
    (e : t) (w : world) (n : Z) (filter : option filter_arg)
    (res : list event) (e' : t) (w' : world) :
  _maxNumberPerCmd e = 100 ->
  quiet e ->
  1 <= n ->
  get n filter e w = (Ok res, e', w') ->
  exists skipped,
    skip n e w = (Ok skipped, e, w')
    /\ Z.of_nat (length res) <= skipped
    /\ (filter = None -> Z.of_nat (length res) = skipped).
Proof.
  intros Hmax Hq Hn. unfold get, skip.
  destruct (Z.ltb_spec n 1); [lia|].
  rewrite !bind_self, !bind_receiveScpi.
  destruct (dev_receive (name e ++ ":NUMB?") (dev w)) as [[r|msg] d]; [|discriminate].
  rewrite !bind_lift_option.
  destruct (Py.int r) as [a|]; [|discriminate].
  intros Hloop. exists (Z.max 0 (Z.min n a)).
  pose proof (same_feed_refl e) as Hf.
  rewrite (get_loop_skip_loop _ _ _ _ 0 _ _ _ _ _ _ Hmax Hq Hf Hloop).
  split; [reflexivity|].
  destruct (get_loop_count _ _ _ _ _ _ _ _ _ Hmax (le_n _) Hloop) as (new & -> & Hle & Heq).
  exact (conj Hle Heq).
Qed.

End FeedSkip.

(** ** Vector endpoints: stability of the resolved type *)

Section BlockStability.
Context `{PyRuntime} `{Transport}.
Import BlockParameter.

(** The state after [_configureType] has run to its end. *)
Definition block_resolved (p : t) : Prop :=
  is_Some (_type p) /\ is_Some (attr_set p) /\ is_Some (attr__parseValues p).

(** Same type, same bound methods, same name and channel. *)
Definition block_same_binding (p p' : t) : Prop :=
  _type p' = _type p /\ attr_set p' = attr_set p
  /\ attr__parseValues p' = attr__parseValues p
  /\ _name p' = _name p /\ _postfixString p' = _postfixString p /\ _txCmd p' = _txCmd p.

(** While no type is recorded, [_parseValues] is the method of the class. *)
Definition block_unresolved (p : t) : Prop := _type p = None /\ attr__parseValues p = None.

(** The states a vector endpoint can be in: a type is recorded only
    together with both bound methods. *)
Definition typed_is_bound (p : t) : Prop := block_unresolved p \/ block_resolved p.

Definition stays_bound (p p' : t) : Prop := typed_is_bound p -> typed_is_bound p'.

#[local] Instance block_same_binding_preorder : PreOrder block_same_binding.
Proof.
  split.
  - intros p. repeat split.
  - intros p q r. unfold block_same_binding. intros ? ?. intuition congruence.
Qed.

#[local] Instance stays_bound_preorder : PreOrder stays_bound.
Proof. split; unfold stays_bound; [intros p|intros p q r]; auto. Qed.

Lemma block_resolved_same_binding p p' :
  block_resolved p -> block_same_binding p p' -> block_resolved p'.
Proof.
  unfold block_resolved, block_same_binding. intros (? & ? & ?) (-> & -> & -> & _). auto.
Qed.

(** [_configureType] binds [set] first and records the type last: where it
    raises in between, no type is recorded that was not there before. *)
Lemma configureType_stays_bound item : keeps stays_bound (_configureType item).
Proof.
  intros p w Hb. unfold _configureType, bind, update.
  destruct (to_number item) as [v|]; cbn.
  { right. unfold block_resolved. cbn. eauto. }
  destruct (Py.first_char item) as [c|]; cbn.
  - destruct (Ascii.eqb c Py.dquote); cbn; right; unfold block_resolved; cbn; eauto.
  - destruct Hb as [Hb|(Ht & _ & Hp)]; [left; exact Hb|right].
    unfold block_resolved. cbn. eauto.
Qed.

Lemma with_storedValue_stays_bound v p : stays_bound p (with_storedValue v p).
Proof. intros Hb. exact Hb. Qed.

Lemma txCmd_stays_bound cmd : keeps stays_bound (txCmd cmd).
Proof. unfold txCmd. keeps_auto. Qed.

Lemma set_at_stays_bound depth index values :
  keeps stays_bound (set_at depth index values).
Proof.
  revert values. induction depth as [|depth IH]; intros values; cbn [set_at].
  all: unfold _set, _setScpiString.
  all: repeat first [apply IH | apply txCmd_stays_bound
                    | apply configureType_stays_bound | keeps_step].
Qed.

Lemma parseValues_at_stays_bound depth valueList :
  keeps stays_bound (_parseValues_at depth valueList).
Proof.
  induction depth as [|depth IH]; cbn [_parseValues_at].
  all: unfold _parseNumericValues, _parseStringValues, _parseDiscreteValues.
  all: repeat first [apply IH | apply configureType_stays_bound | keeps_step].
Qed.

Lemma get_stays_bound index length : keeps stays_bound (get index length).
Proof.
  unfold get, _parseValues.
  repeat first [apply parseValues_at_stays_bound | keeps_step].
Qed.

Lemma run_block_op_stays_bound o : keeps stays_bound (run_block_op o).
Proof.
  destruct o; cbn [run_block_op].
  all: unfold forget, set, store, restore, type, cat.
  all: repeat first [apply set_at_stays_bound | apply get_stays_bound
                    | apply keeps_update, with_storedValue_stays_bound | keeps_step].
Qed.

Lemma run_block_ops_typed_is_bound ops p w :
  typed_is_bound p -> typed_is_bound (run_block_ops ops p w).1.
Proof.
  revert p w. induction ops as [|o ops IH]; intros p w Hb; [exact Hb|].
  cbn [run_block_ops]. pose proof (run_block_op_stays_bound o p w Hb) as Hb1.
  destruct (run_block_op o p w) as [[r p'] w']. apply IH. exact Hb1.
Qed.

(** *** On a resolved endpoint *)

Lemma block_write_eq (m : set_impl) index values p w :
  exists r d l,
    match m with
    | Bound__set => _set index values p w
    | Bound__setScpiString => _setScpiString index values p w
    end = (r, p, World d (trace w ++ l))
    /\ (l = [] /\ r <> Ok tt \/ exists cmd, l = [block_io (_txCmd p) cmd]).
Proof.
  assert (forall ex, exists d l,
            (@Raise unit ex, p, w) = (Raise ex, p, World d (trace w ++ l))
            /\ (l = [] /\ @Raise unit ex <> Ok tt
                \/ exists cmd, l = [block_io (_txCmd p) cmd])) as Hstop.
  { intros ex. exists (dev w), []. rewrite app_nil_r. destruct w. split; [reflexivity|].
    left. split; [reflexivity|discriminate]. }
  destruct m; [unfold _set|unfold _setScpiString]; rewrite bind_lift_outcome.
  - destruct (as_list values) as [l|ex]; [|exists (Raise ex); apply Hstop].
    rewrite bind_self.
    match goal with |- context [txCmd ?c p w] =>
      destruct (block_txCmd_eq c p w) as (r & d & -> & _); exists r, d, [block_io (_txCmd p) c]
    end.
    split; [reflexivity|right; eauto].
  - match goal with |- context [match ?x with Ok _ => _ | Raise _ => _ end] =>
      destruct x as [l|ex] end; [|exists (Raise ex); apply Hstop].
    rewrite bind_self, bind_lift_outcome.
    destruct (quoted_items l) as [items|ex]; [|exists (Raise ex); apply Hstop].
    match goal with |- context [txCmd ?c p w] =>
      destruct (block_txCmd_eq c p w) as (r & d & -> & _); exists r, d, [block_io (_txCmd p) c]
    end.
    split; [reflexivity|right; eauto].
Qed.

#[local] Instance block_same_state_preorder : PreOrder (@eq t).
Proof. split; [intros ?; reflexivity|intros ? ? ?; congruence]. Qed.

Lemma block_parse_same_state (m : parse_impl) valueList :
  keeps eq match m with
           | Bound__parseNumericValues => _parseNumericValues valueList
           | Bound__parseStringValues => _parseStringValues valueList
           | Bound__parseDiscreteValues => _parseDiscreteValues valueList
           end.
Proof.
  destruct m; unfold _parseNumericValues, _parseStringValues, _parseDiscreteValues;
    keeps_auto.
Qed.

Lemma parseValues_at_same_state depth valueList p w :
  is_Some (attr__parseValues p) -> (_parseValues_at depth valueList p w).1.2 = p.
Proof.
  intros [m Hm]. rewrite (block_parseValues_at_bound _ _ _ _ m Hm).
  pose proof (block_parse_same_state m valueList p w) as E.
  destruct m; symmetry; exact E.
Qed.

(** With [_parseValues] bound, [get] leaves the object as it is. *)
Lemma block_get_same_state index length p w :
  is_Some (attr__parseValues p) -> (get index length p w).1.2 = p.
Proof.
  intros Hm. unfold get, _parseValues. rewrite bind_self, bind_receiveScpi.
  destruct (dev_receive _ (dev w)) as [[response|msg] d]; [|reflexivity].
  destruct length as [n|]; [rewrite bind_ret; apply parseValues_at_same_state; exact Hm|].
  destruct (0 <? index); [|rewrite bind_ret; apply parseValues_at_same_state; exact Hm].
  destruct (drop _ _) as [|tok rest];
    [|rewrite bind_ret; apply parseValues_at_same_state; exact Hm].
  rewrite bind_assoc, bind_receiveScpi.
  cbn [dev trace].
  destruct (dev_receive _ d) as [[response'|msg] d']; [|reflexivity].
  rewrite bind_ret. apply parseValues_at_same_state. exact Hm.
Qed.

Lemma forget_block_state {A} (m : M t A) p w : (forget m p w).1.2 = (m p w).1.2.
Proof. unfold forget, bind, ret. destruct (m p w) as [[[a|e] p'] w']; reflexivity. Qed.

Lemma block_set_same_state index values p w :
  is_Some (attr_set p) -> (set index values p w).1.2 = p.
Proof.
  intros [m Hm]. unfold set. rewrite (block_set_at_bound _ _ _ _ _ m Hm).
  destruct (block_write_eq m index values p w) as (r & d & l & E & _).
  destruct m; rewrite E; reflexivity.
Qed.

Lemma run_block_op_same_binding o p w :
  block_resolved p -> block_same_binding p (run_block_op o p w).1.2.
Proof.
  intros ([ty Ht] & Hs & Hp).
  destruct o; cbn [run_block_op]; rewrite ?forget_block_state.
  - rewrite block_get_same_state by exact Hp. reflexivity.
  - rewrite block_set_same_state by exact Hs. reflexivity.
  - unfold store, bind. pose proof (block_get_same_state 0 None p w Hp) as E.
    destruct (get 0 None p w) as [[[v|ex] p1] w1]; cbn in E; subst p1; cbn;
      repeat split.
  - unfold restore. rewrite bind_self. destruct (_storedValue p) as [v|]; [|reflexivity].
    rewrite block_set_same_state by exact Hs. reflexivity.
  - unfold type. rewrite bind_self, Ht. reflexivity.
  - refine ((_ : keeps block_same_binding _) p w). unfold cat. keeps_auto.
Qed.

Lemma run_block_ops_same_binding ops p w :
  block_resolved p -> block_same_binding p (run_block_ops ops p w).1.
Proof.
  revert p w. induction ops as [|o ops IH]; intros p w Hp; [reflexivity|].
  cbn [run_block_ops]. pose proof (run_block_op_same_binding o p w Hp) as E.
  destruct (run_block_op o p w) as [[r p'] w']. cbn in E.
  etransitivity; [exact E|]. apply IH. eapply block_resolved_same_binding; eauto.
Qed.

(** The resolved type of a vector endpoint is stable.  Take a vector
    endpoint at any moment of its life: constructed, and then used through
    any sequence of operations.  If a type is recorded at that moment, then
    - both bound methods, [set] and [_parseValues], are there;
    - whatever operations follow, in any number and whatever they return,
      the recorded type and the bound methods stay the same;
    - in every state reached that way, [get] leaves the object as it is, and
      [set] does so too and adds at most one entry to the trace, the write
      itself on the channel of the endpoint, or nothing when it raises
      before the write: the windowed read that probes the type is never
      issued again. *)
Theorem block_resolved_type_is_stable
    (scpiName : string) (opcQuery : bool) (history : list block_op) (w0 : world) :
  let p := (run_block_ops history (__init__ scpiName opcQuery) w0).1 in
  let w := (run_block_ops history (__init__ scpiName opcQuery) w0).2 in
  is_Some (_type p) ->
  block_resolved p
  /\ (forall ops, block_same_binding p (run_block_ops ops p w).1)
  /\ (forall p' w', block_same_binding p p' ->
        (forall index length, (get index length p' w').1.2 = p')
        /\ (forall index values, exists r d l,
              set index values p' w' = (r, p', World d (trace w' ++ l))
              /\ (l = [] /\ r <> Ok tt \/ exists cmd, l = [block_io (_txCmd p) cmd]))).
Proof.
  intros p w Hty.
  assert (block_resolved p) as Hres.
  { assert (typed_is_bound p) as [Hn|Hr].
    { apply run_block_ops_typed_is_bound. left. split; reflexivity. }
    - destruct Hn as [Hn _]. rewrite Hn in Hty. destruct Hty as [? [=]].
    - exact Hr. }
  split; [exact Hres|].
  split; [intros ops; apply run_block_ops_same_binding; exact Hres|].
  intros p' w' Hsame.
  pose proof (block_resolved_same_binding p p' Hres Hsame) as (_ & [sm Hs] & Hp).
  destruct Hsame as (_ & _ & _ & _ & _ & Etx).
  split.
  - intros index length. apply block_get_same_state. exact Hp.
  - intros index values. unfold set. rewrite (block_set_at_bound _ _ _ _ _ sm Hs).
    rewrite <- Etx. apply block_write_eq.
Qed.

End BlockStability.

(** ** The names of vector endpoints *)

Section BlockNames.
Context `{PyRuntime} `{Transport}.
Import ParameterGroup.

(** A run of question marks, possibly empty. *)
Definition marks (s : string) : Prop := Py.rstrip "?"%char s = EmptyString.

(** [scpiName] is [base], then the node [:BLOC] in any case, then question
    marks. *)
Definition splits_at_block (scpiName base : string) : Prop :=
  base <> EmptyString
  /\ exists node m, scpiName = base ++ node ++ m /\ Py.lower node = ":bloc" /\ marks m.

Lemma app_cons (c : ascii) (a b : string) : String c a ++ b = String c (a ++ b).
Proof. reflexivity. Qed.

Lemma app_nil (b : string) : EmptyString ++ b = b.
Proof. reflexivity. Qed.

Lemma length_app (a b : string) :
  String.length (a ++ b) = (String.length a + String.length b)%nat.
Proof.
  induction a as [|c a IH]; [reflexivity|].
  rewrite app_cons. cbn [String.length]. rewrite IH. reflexivity.
Qed.

Lemma take_app (a b : string) : Py.take (String.length a) (a ++ b) = a.
Proof.
  induction a as [|c a IH]; [reflexivity|].
  rewrite app_cons. cbn [String.length Py.take]. rewrite IH. reflexivity.
Qed.

Lemma lower_app (a b : string) : Py.lower (a ++ b) = Py.lower a ++ Py.lower b.
Proof.
  induction a as [|c a IH]; [reflexivity|].
  rewrite app_cons. cbn [Py.lower]. rewrite app_cons, IH. reflexivity.
Qed.

Lemma lower_length (s : string) : String.length (Py.lower s) = String.length s.
Proof. induction s as [|c s IH]; [reflexivity|]. cbn. rewrite IH. reflexivity. Qed.

Lemma lower_char_mark (c : ascii) :
  Ascii.eqb (Py.lower_char c) "?" = Ascii.eqb c "?".
Proof. destruct c as [[] [] [] [] [] [] [] []]; reflexivity. Qed.

Lemma lower_app_inv (x a b : string) :
  Py.lower x = a ++ b ->
  exists A B, x = A ++ B /\ Py.lower A = a /\ Py.lower B = b.
Proof.
  revert x. induction a as [|c a IH]; intros x E.
  - exists EmptyString, x. repeat split. exact E.
  - destruct x as [|d x]; [discriminate E|].
    rewrite app_cons in E. cbn [Py.lower] in E. injection E as Ec Ex.
    destruct (IH x Ex) as (A & B & -> & HA & HB).
    exists (String d A), B. repeat split; [|exact HB].
    cbn [Py.lower]. rewrite Ec, HA. reflexivity.
Qed.

(** [lower] and [rstrip('?')] can be applied in either order. *)
Lemma lower_rstrip (s : string) :
  Py.lower (Py.rstrip "?" s) = Py.rstrip "?" (Py.lower s).
Proof.
  induction s as [|d s IH]; [reflexivity|].
  cbn [Py.rstrip Py.lower]. rewrite <- IH.
  destruct (Py.rstrip "?" s) as [|a r]; cbn [Py.lower].
  - rewrite lower_char_mark. destruct (Ascii.eqb d "?"); reflexivity.
  - reflexivity.
Qed.

Lemma rstrip_split (s : string) : exists m, s = Py.rstrip "?" s ++ m /\ marks m.
Proof.
  induction s as [|d s (m & E & Hm)]; [exists EmptyString; split; reflexivity|].
  cbn [Py.rstrip]. destruct (Py.rstrip "?" s) as [|a r] eqn:Er.
  - destruct (Ascii.eqb_spec d "?") as [->|Hd].
    + exists (String "?" s). split; [reflexivity|].
      unfold marks. cbn [Py.rstrip]. rewrite Er. reflexivity.
    + exists m. split; [|exact Hm]. rewrite app_cons, app_nil.
      rewrite app_nil in E. rewrite <- E. reflexivity.
  - exists m. split; [|exact Hm]. rewrite app_cons, <- E. reflexivity.
Qed.

Lemma rstrip_app_marks (s m : string) :
  marks m -> Py.last_char s <> Some "?"%char -> Py.rstrip "?" (s ++ m) = s.
Proof.
  intros Hm. induction s as [|d s IH]; intros Hl; [exact Hm|].
  rewrite app_cons. cbn [Py.rstrip].
  destruct s as [|a r].
  - rewrite IH by discriminate.
    destruct (Ascii.eqb_spec d "?") as [->|_]; [contradiction Hl; reflexivity|reflexivity].
  - rewrite IH by exact Hl. reflexivity.
Qed.

Lemma last_char_app (a b : string) :
  b <> EmptyString -> Py.last_char (a ++ b) = Py.last_char b.
Proof.
  intros Hb. induction a as [|c a IH]; [reflexivity|].
  rewrite app_cons. cbn [Py.last_char].
  destruct (a ++ b) as [|x y] eqn:E; [|exact IH].
  destruct a; [rewrite app_nil in E; contradiction|discriminate E].
Qed.

(** *** [rfind] *)

Lemma startswith_app (p b : string) : Py.startswith p (p ++ b) = true.
Proof.
  induction p as [|c p IH]; [reflexivity|].
  rewrite app_cons. cbn [Py.startswith]. rewrite Ascii.eqb_refl. exact IH.
Qed.

Lemma startswith_inv (p s : string) :
  Py.startswith p s = true -> exists b, s = p ++ b.
Proof.
  revert s. induction p as [|c p IH]; intros s E; [exists s; reflexivity|].
  destruct s as [|d s]; [discriminate E|]. cbn in E.
  apply andb_true_iff in E as [Ec Es]. apply Ascii.eqb_eq in Ec as ->.
  destruct (IH s Es) as [b ->]. exists b. reflexivity.
Qed.

Lemma startswith_short (p s : string) :
  (String.length s < String.length p)%nat -> Py.startswith p s = false.
Proof.
  revert s. induction p as [|c p IH]; intros s Hl; [cbn in Hl; lia|].
  destruct s as [|d s]; [reflexivity|]. cbn in *. rewrite IH by lia.
  apply andb_false_r.
Qed.

Lemma rfind_from_short (p s : string) i best :
  (String.length s < String.length p)%nat -> Py.rfind_from p s i best = best.
Proof.
  revert i best. induction s as [|d s IH]; intros i best Hl.
  - cbn. rewrite startswith_short by exact Hl. reflexivity.
  - cbn [Py.rfind_from]. rewrite startswith_short by exact Hl.
    apply IH. cbn in Hl. lia.
Qed.

(** A text that ends with the needle: the last occurrence is the final
    one. *)
Lemma rfind_from_final (p a : string) i best :
  p <> EmptyString ->
  Py.rfind_from p (a ++ p) i best = i + Z.of_nat (String.length a).
Proof.
  intros Hp. revert i best. induction a as [|c a IH]; intros i best.
  - rewrite app_nil. destruct p as [|c p]; [contradiction|].
    cbn [Py.rfind_from].
    pose proof (startswith_app (String c p) EmptyString) as E.
    rewrite app_empty_r in E.
    rewrite E. rewrite rfind_from_short by (cbn; lia). cbn. lia.
  - rewrite app_cons. cbn [Py.rfind_from].
    rewrite IH. cbn [String.length]. lia.
Qed.

(** What [rfind] returns is the start of an occurrence. *)
Lemma rfind_from_found (p s : string) i best :
  Py.rfind_from p s i best = best
  \/ exists a b, s = a ++ p ++ b
                 /\ Py.rfind_from p s i best = i + Z.of_nat (String.length a).
Proof.
  revert i best. induction s as [|c s IH]; intros i best.
  - cbn [Py.rfind_from]. destruct (Py.startswith p EmptyString) eqn:E; [|left; reflexivity].
    right. destruct (startswith_inv _ _ E) as [b Eb].
    exists EmptyString, b. split; [exact Eb|cbn; lia].
  - cbn [Py.rfind_from].
    destruct (IH (i + 1) (if Py.startswith p (String c s) then i else best))
      as [E|(a & b & -> & E)].
    + rewrite E. destruct (Py.startswith p (String c s)) eqn:Es; [|left; reflexivity].
      right. destruct (startswith_inv _ _ Es) as [b Eb].
      exists EmptyString, b. split; [exact Eb|cbn; lia].
    + right. exists (String c a), b. split; [reflexivity|].
      rewrite E. cbn [String.length]. lia.
Qed.

Lemma block_name_at (scpiName base node m : string) :
  scpiName = base ++ node ++ m -> Py.lower node = ":bloc" -> marks m ->
  Py.rstrip "?" (Py.lower scpiName) = Py.lower base ++ ":bloc"
  /\ Py.rfind ":bloc" (Py.lower base ++ ":bloc") = Z.of_nat (String.length base).
Proof.
  intros -> Hnode Hm. split.
  - rewrite <- lower_rstrip.
    rewrite <- app_assoc_s.
    rewrite rstrip_app_marks; [rewrite lower_app, Hnode; reflexivity|exact Hm|].
    assert (node <> EmptyString) as Hne by (intros ->; discriminate Hnode).
    rewrite last_char_app by exact Hne.
    destruct node as [|n1 [|n2 [|n3 [|n4 [|n5 [|n6 node]]]]]]; try discriminate Hnode.
    cbn in Hnode. injection Hnode as _ _ _ _ H5. cbn. intros [= ->]. discriminate H5.
  - unfold Py.rfind. rewrite rfind_from_final by discriminate.
    rewrite lower_length. lia.
Qed.

(** The names of vector endpoints.  A group takes a definition for a vector
    endpoint exactly when its SCPI name is a base that is not empty,
    followed by the node [:BLOC] in any case and by any number of question
    marks; the member is then a [BlockParameter] whose name is that base,
    so that its full read asks for the base with [:BLOC?]. *)
Theorem block_names_end_with_the_block_node (scpiName : string) :
  (_isBlockParameter scpiName = true <-> exists base, splits_at_block scpiName base)
  /\ (forall base queryOpc,
        splits_at_block scpiName base ->
        new_member scpiName queryOpc = Block (BlockParameter.__init__ scpiName queryOpc)
        /\ BlockParameter._name (BlockParameter.__init__ scpiName queryOpc) = base).
Proof.
  assert (forall base, splits_at_block scpiName base ->
            _isBlockParameter scpiName = true
            /\ BlockParameter.block_name ":bloc" scpiName = base) as Hsplit.
  { intros base (Hbase & node & m & E & Hnode & Hm).
    destruct (block_name_at scpiName base node m E Hnode Hm) as [Hstrip Hfind].
    assert (0 < Z.of_nat (String.length base)) as Hpos.
    { destruct base; [contradiction|cbn; lia]. }
    split.
    - unfold _isBlockParameter. cbv zeta. rewrite lower_rstrip, Hstrip, Hfind.
      rewrite length_app, lower_length.
      apply andb_true_iff. split; [apply Z.ltb_lt; exact Hpos|apply Z.eqb_eq; cbn; lia].
    - unfold BlockParameter.block_name. cbv zeta. rewrite Hstrip, Hfind.
      apply Z.ltb_lt in Hpos. rewrite Hpos, Nat2Z.id, E. apply take_app. }
  split; [split|].
  - unfold _isBlockParameter. cbv zeta. intros Hb.
    apply andb_true_iff in Hb as [Hpos Hlen].
    apply Z.ltb_lt in Hpos. apply Z.eqb_eq in Hlen.
    unfold Py.rfind in Hpos, Hlen.
    destruct (rfind_from_found ":bloc" (Py.lower (Py.rstrip "?" scpiName)) 0 (-1))
      as [E|(a & b & Ename & E)]; [rewrite E in Hpos; lia|].
    rewrite E in Hpos, Hlen. rewrite Ename, !length_app in Hlen.
    assert (b = EmptyString) as -> by (destruct b; [reflexivity|cbn in Hlen; lia]).
    destruct (lower_app_inv _ _ _ Ename) as (A & B & Estrip & HA & HB).
    destruct (rstrip_split scpiName) as (m & Es & Hm).
    exists A. split.
    + intros ->. cbn in HA. subst a. cbn in Hpos. lia.
    + exists B, m. split; [|split; [|exact Hm]].
      * rewrite Es at 1. rewrite Estrip. apply app_assoc_s.
      * rewrite HB. clear. reflexivity.
  - intros [base Hs]. exact (proj1 (Hsplit base Hs)).
  - intros base queryOpc Hs. destruct (Hsplit base Hs) as [Hb Hn].
    unfold new_member. rewrite Hb. split; [reflexivity|exact Hn].
Qed.

End BlockNames.

(** ** Groups of parameters: the snapshot *)

Section GroupSnapshots.
Context `{PyRuntime} `{Transport}.
Import ParameterGroup.

#[local] Arguments ScalarParameter.set_at : simpl never.
#[local] Arguments BlockParameter.set_at : simpl never.
#[local] Arguments BlockParameter._parseValues_at : simpl never.

(** A member in a state its endpoint can be in. *)
Definition member_consistent (m : member) : Prop :=
  match m with
  | Scalar p => consistent p
  | Block p => typed_is_bound p
  end.

(** A member that holds a snapshot and the bound method to write it. *)
Definition member_stored (m : member) : Prop :=
  match m with
  | Scalar p =>
      ScalarParameter._storedValue p <> VNone /\ is_Some (ScalarParameter.attr_set p)
  | Block p =>
      is_Some (BlockParameter._storedValue p) /\ is_Some (BlockParameter.attr_set p)
  end.

Lemma fresh_member_consistent m : fresh m -> member_consistent m.
Proof.
  destruct m as [p|p]; intros (scpiName & opcQuery & ->); cbn.
  - apply init_consistent.
  - left. split; reflexivity.
Qed.

(** *** Vector members *)

(** Where [_parseValues] returns, it is bound. *)
Lemma block_parseValues_at_returns depth valueList p w v p' w' :
  BlockParameter._parseValues_at depth valueList p w = (Ok v, p', w') ->
  is_Some (BlockParameter.attr__parseValues p').
Proof.
  revert p w. induction depth as [|depth IH]; intros p w;
    destruct (BlockParameter.attr__parseValues p) as [m|] eqn:Hm.
  1,3: intros E;
       match type of E with
       | BlockParameter._parseValues_at ?d _ _ _ = _ =>
           pose proof (parseValues_at_same_state d valueList p w (ex_intro _ m Hm)) as Es
       end;
       rewrite E in Es; cbn in Es; subst p'; eauto.
  - unfold BlockParameter._parseValues_at. rewrite bind_self, Hm, bind_lift_option.
    destruct (_ !! _) as [item|]; [|discriminate].
    unfold bind. destruct (BlockParameter._configureType item p w) as [[[[]|ex] p1] w1];
      discriminate.
  - rewrite block_parseValues_at_unbound by exact Hm. rewrite bind_lift_option.
    destruct (_ !! _) as [item|]; [|discriminate].
    unfold bind at 1.
    destruct (BlockParameter._configureType item p w) as [[[[]|ex] p1] w1]; [|discriminate].
    apply IH.
Qed.

Lemma block_get_returns index length p w v p' w' :
  typed_is_bound p -> BlockParameter.get index length p w = (Ok v, p', w') ->
  block_resolved p'.
Proof.
  intros Hb Hg.
  pose proof (get_stays_bound index length p w Hb) as Hb'. rewrite Hg in Hb'. cbn in Hb'.
  assert (is_Some (BlockParameter.attr__parseValues p')) as [m Hm].
  { revert Hg. unfold BlockParameter.get, BlockParameter._parseValues.
    rewrite bind_self, bind_receiveScpi.
    destruct (dev_receive _ (dev w)) as [[response|msg] d]; [|discriminate].
    destruct length as [n|]; [rewrite bind_ret; apply block_parseValues_at_returns|].
    destruct (0 <? index); [|rewrite bind_ret; apply block_parseValues_at_returns].
    destruct (drop _ _) as [|tok rest];
      [|rewrite bind_ret; apply block_parseValues_at_returns].
    rewrite bind_assoc, bind_receiveScpi. cbn [dev trace].
    destruct (dev_receive _ d) as [[response'|msg] d']; [|discriminate].
    rewrite bind_ret. apply block_parseValues_at_returns. }
  destruct Hb' as [[_ Hn]|Hr]; [congruence|exact Hr].
Qed.

(** *** One member *)

Lemma member_store_stored m w m' w' :
  member_consistent m -> member_store m w = (Ok tt, m', w') -> member_stored m'.
Proof.
  destruct m as [p|p]; cbn [member_consistent member_store]; intros Hc.
  - destruct (ScalarParameter.store p w) as [[r p1] w1] eqn:Hs. intros [= -> <- <-].
    unfold ScalarParameter.store, bind in Hs.
    destruct (ScalarParameter.get p w) as [[[v|ex] p0] w0] eqn:Hg; [|discriminate].
    destruct (get_returns p w v p0 w0 Hc Hg) as [Hv (_ & Hm & _)].
    unfold update in Hs. injection Hs as <- <-. cbn. split; assumption.
  - destruct (BlockParameter.store p w) as [[r p1] w1] eqn:Hs. intros [= -> <- <-].
    unfold BlockParameter.store, bind in Hs.
    destruct (BlockParameter.get 0 None p w) as [[[v|ex] p0] w0] eqn:Hg; [|discriminate].
    destruct (block_get_returns _ _ _ _ _ _ _ Hc Hg) as (_ & Hset & _).
    unfold update in Hs. injection Hs as <- <-. cbn. eauto.
Qed.

Lemma run_set_refused m v (p : ScalarParameter.t) w :
  written m p v = [] -> exists ex, run_set m v p w = (Raise ex, p, w).
Proof.
  destruct m; [discriminate|]. destruct v; try discriminate; intros _; cbn; eauto.
Qed.

(** A member that holds a snapshot writes it with at most one command and
    stays as it is; where nothing is sent the call has raised. *)
Lemma member_restore_stored m w :
  member_stored m ->
  exists r d l,
    member_restore m w = (r, m, World d (trace w ++ l))
    /\ (l = [] /\ r <> Ok tt \/ exists x, l = [x]).
Proof.
  destruct m as [p|p]; cbn [member_stored member_restore]; intros [Hv [m Hm]].
  - rewrite (restore_stored p w m Hv Hm).
    destruct (written m p (ScalarParameter._storedValue p)) as [|x l] eqn:Hw.
    + destruct (run_set_refused m _ p w Hw) as [ex ->].
      exists (Raise ex), (dev w), []. rewrite app_nil_r. destruct w.
      split; [reflexivity|]. left. split; [reflexivity|discriminate].
    + destruct (run_set_eq m (ScalarParameter._storedValue p) p w) as (r & d & -> & _).
      exists r, d, (x :: l). split; [rewrite Hw; reflexivity|]. right.
      exists x. destruct m, (ScalarParameter._storedValue p); cbn in Hw;
        try discriminate Hw; injection Hw as _ <-; reflexivity.
  - destruct Hv as [v Hv].
    unfold BlockParameter.restore. rewrite bind_self, Hv.
    unfold BlockParameter.set. rewrite (block_set_at_bound _ _ _ _ _ m Hm).
    destruct (block_write_eq m 0 v p w) as (r & d & l & E & Hl).
    exists r, d, l. split; [destruct m; rewrite E; reflexivity|].
    destruct Hl as [Hl|[cmd Hl]]; [left; exact Hl|right; eauto].
Qed.

(** *** All members *)

Lemma each_store_stored l w l' w' :
  Forall (fun entry => member_consistent entry.2) l ->
  each member_store l w = (Ok tt, l', w') ->
  Forall (fun entry => member_stored entry.2) l' /\ map fst l' = map fst l.
Proof.
  intros Hl. revert w l' w'. induction Hl as [|[name m] l Hm _ IH]; intros w l' w'.
  - cbn. intros [= <- _]. split; constructor.
  - cbn [each]. destruct (member_store m w) as [[[[]|ex] m1] w1] eqn:Hs; [|discriminate].
    destruct (each member_store l w1) as [[r l1] w2] eqn:He. intros [= -> <- <-].
    destruct (IH _ _ _ He) as [Hst Hn].
    split; [constructor; [exact (member_store_stored _ _ _ _ Hm Hs)|exact Hst]|].
    cbn. rewrite Hn. reflexivity.
Qed.

Lemma each_restore_stored l w :
  Forall (fun entry => member_stored entry.2) l ->
  exists r d cmds,
    each member_restore l w = (r, l, World d (trace w ++ cmds))
    /\ (length cmds <= length l)%nat
    /\ (r = Ok tt -> length cmds = length l).
Proof.
  intros Hl. revert w. induction Hl as [|[name m] l Hm _ IH]; intros w.
  - exists (Ok tt), (dev w), []. rewrite app_nil_r. destruct w. repeat split. cbn. lia.
  - cbn [each]. destruct (member_restore_stored m w Hm) as (r & d & x & -> & Hx).
    destruct r as [[]|ex].
    + destruct Hx as [[_ Hr]|[x1 ->]]; [contradiction Hr; reflexivity|].
      destruct (IH (World d (trace w ++ [x1]))) as (r2 & d2 & cmds & -> & Hle & Heq).
      exists r2, d2, (x1 :: cmds). cbn [trace length]. rewrite <- app_assoc.
      split; [reflexivity|]. split; [lia|]. intros Hr. rewrite (Heq Hr). reflexivity.
    + exists (Raise ex), d, x. split; [reflexivity|]. split; [|discriminate].
      destruct Hx as [[-> _]|[x1 ->]]; cbn; lia.
Qed.

(** A group whose [store] has returned can be restored without a question
    to the instrument about any type: every member holds a snapshot,
    [restore] leaves every member as it is and puts at most one command per
    member on the wire, one for each member when it returns.  The names
    are those that were registered. *)
Theorem group_restore_after_store (g : t) (w : world) (g1 : t) (w1 : world) :
  Forall (fun entry => member_consistent entry.2) (_parameterList g) ->
  store g w = (Ok tt, g1, w1) ->
  description g1 = description g
  /\ map fst (_parameterList g1) = map fst (_parameterList g)
  /\ Forall (fun entry => member_stored entry.2) (_parameterList g1)
  /\ forall w2, exists r d cmds,
       restore g1 w2 = (r, g1, World d (trace w2 ++ cmds))
       /\ (length cmds <= length (_parameterList g1))%nat
       /\ (r = Ok tt -> length cmds = length (_parameterList g1)).
Proof.
  intros Hc. unfold store.
  destruct (each member_store (_parameterList g) w) as [[r l1] w'] eqn:He.
  intros [= -> <- <-]. destruct (each_store_stored _ _ _ _ Hc He) as [Hst Hn].
  cbn [description _parameterList].
  split; [reflexivity|]. split; [exact Hn|]. split; [exact Hst|].
  intros w2. destruct (each_restore_stored l1 w2 Hst) as (r & d & cmds & E & Hle & Heq).
  exists r, d, cmds. unfold restore. cbn [description _parameterList]. rewrite E.
  split; [reflexivity|]. split; [exact Hle|exact Heq].
Qed.

End GroupSnapshots.

(** ** The parts of a query *)

Section Queries.
Import Connection.

(** The run of items without [*OPC?] that is being collected, as a list. *)
Definition pending (nonOpcItems : string) : list string :=
  if Py.truthy nonOpcItems then [nonOpcItems] else [].

Lemma truthy_nonempty (s : string) : Py.truthy s = true <-> s <> EmptyString.
Proof. destruct s; cbn; split; congruence. Qed.

Lemma join_pending (nonOpcItems : string) : Py.join ";" (pending nonOpcItems) = nonOpcItems.
Proof. destruct nonOpcItems; reflexivity. Qed.

Lemma loop_pending queryParts retval nonOpcItems :
  _splitQuery_loop queryParts retval nonOpcItems
  = match queryParts with
    | [] => (retval ++ pending nonOpcItems)%list
    | item :: rest =>
        if is_opc item
        then _splitQuery_loop rest (retval ++ pending nonOpcItems ++ [item])%list EmptyString
        else _splitQuery_loop rest retval
               (if Py.truthy nonOpcItems then Py.join ";" [nonOpcItems; item] else item)
    end.
Proof.
  destruct queryParts as [|item rest]; cbn [_splitQuery_loop]; unfold pending;
    destruct (Py.truthy nonOpcItems); rewrite ?app_nil_r, <- ?app_assoc; reflexivity.
Qed.

Lemma is_opc_nonempty (item : string) : is_opc item = true -> item <> EmptyString.
Proof. intros Ho ->. discriminate Ho. Qed.

Lemma pending_nonempty (nonOpcItems : string) :
  Forall (fun part => part <> EmptyString) (pending nonOpcItems).
Proof.
  unfold pending. destruct (Py.truthy nonOpcItems) eqn:E; constructor; [|constructor].
  apply truthy_nonempty. exact E.
Qed.

(** No part is empty. *)
Lemma loop_nonempty queryParts retval nonOpcItems :
  Forall (fun part => part <> EmptyString) retval ->
  Forall (fun part => part <> EmptyString) (_splitQuery_loop queryParts retval nonOpcItems).
Proof.
  revert retval nonOpcItems.
  induction queryParts as [|item rest IH]; intros retval nonOpcItems Hr;
    rewrite loop_pending.
  - apply Forall_app. split; [exact Hr|apply pending_nonempty].
  - destruct (is_opc item) eqn:Ho; [|apply IH; exact Hr].
    apply IH. apply Forall_app. split; [exact Hr|].
    apply Forall_app. split; [apply pending_nonempty|].
    constructor; [apply is_opc_nonempty; exact Ho|constructor].
Qed.

(** An item with [*OPC?] is a part. *)
Lemma loop_opc queryParts retval nonOpcItems item :
  item ∈ retval \/ (item ∈ queryParts /\ is_opc item = true) ->
  item ∈ _splitQuery_loop queryParts retval nonOpcItems.
Proof.
  revert retval nonOpcItems.
  induction queryParts as [|q rest IH]; intros retval nonOpcItems Hi;
    rewrite loop_pending.
  - destruct Hi as [Hi|[Hi _]]; [|inversion Hi].
    apply elem_of_app. left. exact Hi.
  - destruct (is_opc q) eqn:Ho.
    + apply IH. destruct Hi as [Hi|[Hi Hopc]].
      * left. apply elem_of_app. left. exact Hi.
      * apply elem_of_cons in Hi as [->|Hi]; [|right; split; assumption].
        left. apply elem_of_app. right. apply elem_of_app. right.
        apply list_elem_of_singleton. reflexivity.
    + apply IH. destruct Hi as [Hi|[Hi Hopc]]; [left; exact Hi|].
      apply elem_of_cons in Hi as [->|Hi]; [congruence|right; split; assumption].
Qed.

Lemma join_cons_nonempty sep (c : string) l :
  l <> [] -> Py.join sep (c :: l) = c ++ sep ++ Py.join sep l.
Proof. destruct l; [contradiction|reflexivity]. Qed.

(** Two neighbours written as one item with the separator between them. *)
Lemma join_merge sep l1 (a b : string) l2 :
  Py.join sep (l1 ++ (a ++ sep ++ b)%string :: l2)%list
  = Py.join sep (l1 ++ a :: b :: l2)%list.
Proof.
  induction l1 as [|c l1 IH].
  - cbn [app]. destruct l2 as [|x l2].
    + reflexivity.
    + rewrite !join_cons, !app_assoc_s. reflexivity.
  - cbn [app]. rewrite !join_cons_nonempty by (destruct l1; discriminate).
    rewrite IH. reflexivity.
Qed.

Lemma next_pending nonOpcItems item :
  item <> EmptyString ->
  let nonOpcItems' :=
    if Py.truthy nonOpcItems then Py.join ";" [nonOpcItems; item] else item in
  pending nonOpcItems' = [nonOpcItems']
  /\ forall l1 l2,
       Py.join ";" (l1 ++ nonOpcItems' :: l2)%list
       = Py.join ";" (l1 ++ pending nonOpcItems ++ item :: l2)%list.
Proof.
  intros Hi. unfold pending. destruct nonOpcItems as [|c s]; cbn [Py.truthy].
  - split; [|reflexivity]. destruct item; [contradiction|reflexivity].
  - split; [reflexivity|]. intros l1 l2. rewrite join_cons. cbn [Py.join app].
    apply join_merge.
Qed.

(** Where no item is empty the parts are the query cut at some of its
    semicolons. *)
Lemma loop_join queryParts retval nonOpcItems :
  Forall (fun item => item <> EmptyString) queryParts ->
  Py.join ";" (_splitQuery_loop queryParts retval nonOpcItems)
  = Py.join ";" (retval ++ pending nonOpcItems ++ queryParts)%list.
Proof.
  intros Hq. revert retval nonOpcItems.
  induction Hq as [|item rest Hi _ IH]; intros retval nonOpcItems; rewrite loop_pending.
  - rewrite app_nil_r. reflexivity.
  - destruct (is_opc item).
    + rewrite IH. cbn [pending Py.truthy app]. rewrite <- !app_assoc. reflexivity.
    + rewrite IH. destruct (next_pending nonOpcItems item Hi) as [-> Hj].
      cbn [app]. apply Hj.
Qed.

(** A run of items without [*OPC?], none of them empty, is collected into
    one text. *)
Lemma loop_run run rest retval nonOpcItems :
  Forall (fun item => item <> EmptyString /\ is_opc item = false) run ->
  _splitQuery_loop (run ++ rest) retval nonOpcItems
  = _splitQuery_loop rest retval (Py.join ";" (pending nonOpcItems ++ run)).
Proof.
  intros Hq. revert nonOpcItems.
  induction Hq as [|item run [Hi Ho] _ IH]; intros nonOpcItems.
  - rewrite app_nil_r, join_pending. reflexivity.
  - cbn [app]. rewrite loop_pending, Ho, IH.
    destruct (next_pending nonOpcItems item Hi) as [-> Hj].
    f_equal. exact (Hj [] run).
Qed.

(** The parts of a query.  [_splitQuery] gives no empty part; every item of
    the query that holds [*OPC?], in any case, is a part of its own; where
    no item of the query is empty, the parts joined with semicolons are the
    query again; and a command of any number of items, none empty and none
    with [*OPC?], that is followed by [;*OPC?] comes out as two parts, the
    command and the [*OPC?]. *)
Theorem splitQuery_parts (scpiQuery : string) :
  let parts := _splitQuery scpiQuery in
  Forall (fun part => part <> EmptyString) parts
  /\ (forall item, item ∈ Py.split ";"%char scpiQuery -> is_opc item = true -> item ∈ parts)
  /\ (Forall (fun item => item <> EmptyString) (Py.split ";"%char scpiQuery) ->
      Py.join ";" parts = scpiQuery)
  /\ (forall cmd,
        scpiQuery = cmd ++ ";*OPC?" ->
        Forall (fun item => item <> EmptyString /\ is_opc item = false)
               (Py.split ";"%char cmd) ->
        parts = [cmd; "*OPC?"]).
Proof.
  unfold _splitQuery. cbv zeta. split; [apply loop_nonempty; constructor|].
  split; [intros item Hi Ho; apply loop_opc; right; split; assumption|].
  split.
  - intros Hq. rewrite (loop_join _ _ _ Hq). cbn [pending Py.truthy app].
    apply join_split.
  - intros cmd -> Hrun.
    change (cmd ++ ";*OPC?") with (cmd ++ String ";"%char "*OPC?").
    rewrite split_snoc by reflexivity. rewrite (loop_run _ _ _ _ Hrun).
    cbn [pending Py.truthy app]. rewrite join_split, loop_pending.
    change (is_opc "*OPC?") with true. cbv iota.
    assert (cmd <> EmptyString) as Hc.
    { intros ->. inversion Hrun as [|x l [Hx _] _]. apply Hx. reflexivity. }
    unfold pending. apply truthy_nonempty in Hc. rewrite Hc. reflexivity.
Qed.

End Queries.

(** ** The name of a measurement port *)

Section PortStrings.
Import Connection.

(** The number of occurrences of a character. *)
Fixpoint count_char (c : ascii) (s : string) : nat :=
  match s with
  | EmptyString => 0
  | String d rest => (if Ascii.eqb d c then 1 else 0) + count_char c rest
  end.

Lemma split_length c s : length (Py.split c s) = S (count_char c s).
Proof.
  induction s as [|d s IH]; [reflexivity|].
  rewrite split_cons. cbn [count_char]. destruct (Ascii.eqb d c).
  - cbn [length]. rewrite IH. reflexivity.
  - rewrite (split_eta c s) in IH. cbn [length] in *. rewrite IH. reflexivity.
Qed.

(** The text [/mainframe/slot/port] after any prefix. *)
Definition port_string (prefix : string) (mainframe slot port : Z) : string :=
  prefix ++ "/" ++ Py.str_int mainframe ++ "/" ++ Py.str_int slot ++ "/" ++ Py.str_int port.

Lemma split_port_string prefix mainframe slot port :
  contains "/"%char prefix = false ->
  Py.split "/"%char (port_string prefix mainframe slot port)
  = [prefix; Py.str_int mainframe; Py.str_int slot; Py.str_int port].
Proof.
  intros Hp.
  change (port_string prefix mainframe slot port)
    with (prefix ++ String "/"%char
            (Py.str_int mainframe ++ String "/"%char
               (Py.str_int slot ++ String "/"%char (Py.str_int port)))).
  rewrite split_app_sep by exact Hp.
  rewrite split_app_sep by (apply contains_str_int; [reflexivity|discriminate]).
  rewrite split_app_sep by (apply contains_str_int; [reflexivity|discriminate]).
  rewrite split_absent by (apply contains_str_int; [reflexivity|discriminate]).
  reflexivity.
Qed.

(** The name of a measurement port.  A text that does not have exactly
    three slashes is refused with [OntRemoteError].  A text
    [/mainframe/slot/port] written with [str] of three integers gives these
    three integers back, and so does the same text after any prefix
    without a slash: what stands before the first slash is not looked
    at. *)
Theorem parsePortString_format (ontPort : string) :
  (count_char "/" ontPort <> 3%nat ->
   _parsePortString ontPort
   = Raise (OntRemoteError
              ("Invalid format of ONT measurement port: '" ++ ontPort
               ++ "' - expected: '/0/SlotNo/PortNo'")))
  /\ (forall prefix mainframe slot port,
        ontPort = port_string prefix mainframe slot port ->
        contains "/"%char prefix = false ->
        _parsePortString ontPort = Ok (mainframe, slot, port)).
Proof.
  split.
  - intros Hc. unfold _parsePortString. cbv zeta. rewrite split_length.
    destruct (Z.eqb_spec (Z.of_nat (S (count_char "/" ontPort))) 4) as [E|_]; [lia|].
    reflexivity.
  - intros prefix mainframe slot port -> Hp. unfold _parsePortString. cbv zeta.
    rewrite (split_port_string _ _ _ _ Hp). cbn [length Z.of_nat].
    change (negb (Z.of_nat 4 =? 4)) with false. cbv iota.
    change ([prefix; Py.str_int mainframe; Py.str_int slot; Py.str_int port] !! 1%nat)
      with (Some (Py.str_int mainframe)).
    change ([prefix; Py.str_int mainframe; Py.str_int slot; Py.str_int port] !! 2%nat)
      with (Some (Py.str_int slot)).
    change ([prefix; Py.str_int mainframe; Py.str_int slot; Py.str_int port] !! 3%nat)
      with (Some (Py.str_int port)).
    cbv iota. rewrite !int_str_int. reflexivity.
Qed.

End PortStrings.

(** ** The measurement *)

Section MeasurementControl.
Context `{Transport}.
Import Measurement Connection.

Definition cond_query : io := Queried ":STAT:OPER:COND?".

(** The outcomes of polling: done, a reply that is no integer, or an error
    of the connection. *)
Definition poll_outcome {A} (r : outcome A) : Prop :=
  match r with
  | Ok _ => True
  | Raise ex => ex = ValueError \/ exists msg, ex = OntRemoteError msg
  end.

Lemma isRunning_eq (m : t) w :
  exists r d,
    isRunning m w = (r, m, World d (trace w ++ [cond_query])) /\ poll_outcome r.
Proof.
  unfold isRunning. rewrite bind_receiveScpi.
  destruct (dev_receive _ (dev w)) as [[resStr|msg] d].
  - rewrite bind_lift_option. destruct (Py.int resStr) as [status|].
    + eexists _, d. split; [reflexivity|]. exact I.
    + eexists _, d. split; [reflexivity|]. left. reflexivity.
  - eexists _, d. split; [reflexivity|]. right. eauto.
Qed.

(** The loop polls once per unit of [maxWait] it uses up, and at least once
    when it is entered with time left. *)
Lemma stop_wait_polls maxWait doWait (m : t) w :
  exists r d k,
    stop_wait maxWait doWait m w = (r, m, World d (trace w ++ repeat cond_query k))
    /\ (k <= maxWait)%nat
    /\ poll_outcome r
    /\ (forall left, r = Ok left -> left = (maxWait - k)%nat)
    /\ (doWait = true -> (0 < maxWait)%nat -> (1 <= k)%nat).
Proof.
  revert doWait w. induction maxWait as [|maxWait IH]; intros doWait w.
  - exists (Ok O), (dev w), O. cbn. rewrite app_nil_r. destruct w.
    split; [reflexivity|]. split; [lia|]. split; [exact I|].
    split; [intros left [= <-]; reflexivity|lia].
  - cbn [stop_wait]. destruct doWait.
    + unfold bind. destruct (isRunning_eq m w) as (r & d & -> & Hr).
      destruct r as [doWait|ex].
      * destruct (IH doWait (World d (trace w ++ [cond_query])))
          as (r2 & d2 & k & -> & Hk & Hr2 & Hleft & _).
        exists r2, d2, (S k). cbn [trace repeat]. rewrite <- app_assoc.
        split; [reflexivity|]. split; [lia|]. split; [exact Hr2|].
        split; [intros left E; rewrite (Hleft left E); lia|lia].
      * exists (Raise ex), d, 1%nat. split; [reflexivity|]. split; [lia|].
        split; [exact Hr|]. split; [discriminate|lia].
    + exists (Ok (S maxWait)), (dev w), O. cbn [repeat]. rewrite app_nil_r. destruct w.
      split; [reflexivity|]. split; [lia|]. split; [exact I|].
      split; [intros left [= <-]; lia|discriminate].
Qed.

(** [stop()] sends the abort and then polls the status at most 60 times.
    It returns only after a poll among the first 59 has reported that the
    measurement is not running: after a 60th poll it raises, whatever that
    poll reports.  The object is unchanged. *)
Theorem stop_polls_at_most_60_times (m : t) (w : world) :
  exists r d k,
    stop m w = (r, m, World d (trace w ++ Sent ":ABOR" :: repeat cond_query k))
    /\ (k <= 60)%nat
    /\ poll_outcome r
    /\ (r = Ok tt -> (1 <= k <= 59)%nat)
    /\ (k = 60%nat -> r <> Ok tt).
Proof.
  unfold stop. rewrite bind_sendScpi.
  destruct (dev_send ":ABOR" (dev w)) as [[[]|msg] d].
  2: { exists (Raise (OntRemoteError msg)), d, O. cbn [repeat].
       split; [reflexivity|]. split; [lia|]. split; [right; eauto|].
       split; [discriminate|discriminate]. }
  unfold bind.
  destruct (stop_wait_polls 60 true m (World d (trace w ++ [Sent ":ABOR"])))
    as (r & d2 & k & -> & Hk & Hr & Hleft & Hone).
  specialize (Hone eq_refl ltac:(lia)).
  cbn [trace]. rewrite <- app_assoc. cbn [app].
  destruct r as [left|ex].
  - specialize (Hleft left eq_refl). destruct (Nat.eqb_spec left 0) as [E|E].
    + eexists _, d2, k. split; [reflexivity|]. split; [exact Hk|].
      split; [right; eauto|]. split; [discriminate|discriminate].
    + exists (Ok tt), d2, k. split; [reflexivity|]. split; [exact Hk|].
      split; [exact I|]. split; [lia|lia].
  - exists (Raise ex), d2, k. split; [reflexivity|]. split; [exact Hk|].
    split; [exact Hr|]. split; [discriminate|discriminate].
Qed.

(** *** Gating times *)

Lemma upper_char_star (c : ascii) :
  Ascii.eqb (Py.upper_char c) "*" = Ascii.eqb c "*".
Proof. destruct c as [[] [] [] [] [] [] [] []]; reflexivity. Qed.

(** A text without an asterisk holds no [*OPC?]. *)
Lemma find_opc_without_star (s : string) i :
  contains "*"%char s = false -> Py.find_str_from "*OPC?" (Py.upper s) i = -1.
Proof.
  revert i. induction s as [|d s IH]; intros i Hs; [reflexivity|].
  cbn [contains] in Hs. apply orb_false_iff in Hs as [Hd Hs].
  cbn [Py.upper Py.find_str_from Py.startswith].
  rewrite Ascii.eqb_sym, upper_char_star, Hd. cbn [andb]. apply IH. exact Hs.
Qed.

Lemma is_opc_without_star (s : string) : contains "*"%char s = false -> is_opc s = false.
Proof.
  intros Hs. unfold is_opc, Py.find_str.
  rewrite find_opc_without_star by exact Hs. reflexivity.
Qed.

(** The command that sets a gating time, without the [*OPC?]. *)
Definition sweTime_cmd (gatingTime : Z) : string :=
  ":SENS:SWE:TIME " ++ (if gatingTime =? -1 then "MAX" else Py.str_int gatingTime).

Lemma sweTimeScpi_eq gatingTime :
  gatingTime = -1 \/ 0 < gatingTime ->
  _sweTimeScpi gatingTime = Ok (sweTime_cmd gatingTime ++ ";*OPC?").
Proof.
  intros Hg. unfold _sweTimeScpi, sweTime_cmd.
  destruct (Z.eqb_spec gatingTime (-1)) as [E|E]; [reflexivity|].
  destruct (Z.ltb_spec 0 gatingTime); [|lia]. rewrite !app_assoc_s. reflexivity.
Qed.

Lemma sweTime_cmd_plain gatingTime c :
  Py.digit_value c = None -> c <> "-"%char ->
  contains c ":SENS:SWE:TIME MAX" = false ->
  contains c (sweTime_cmd gatingTime) = false.
Proof.
  intros Hc Hm Hmax. unfold sweTime_cmd.
  destruct (gatingTime =? -1); [exact Hmax|].
  rewrite contains_app, (contains_str_int c gatingTime Hc Hm), orb_false_r.
  revert Hmax. change ":SENS:SWE:TIME MAX" with (":SENS:SWE:TIME " ++ "MAX").
  rewrite contains_app. intros Hmax. apply orb_false_iff in Hmax as [Hmax _]. exact Hmax.
Qed.

(** A measurement is started with a gating time of [-1], which stands for
    a continuous measurement, or with a positive one.  Any other gating
    time is refused by [start] and by [setGatingTime] before anything is
    sent.  With a gating time that is accepted, [start] issues one query,
    which the connection cuts into four messages: the command that sets the
    gating time, [*OPC?], the command that starts the measurement, and
    [*OPC?]. *)
Theorem start_with_gating_time (gatingTime : Z) (m : t) (w : world) :
  (gatingTime = 0 \/ gatingTime < -1 ->
   start (Some gatingTime) m w
   = (Raise (OntRemoteError ("Invalid gatingTime: " ++ Py.str_int gatingTime)), m, w)
   /\ setGatingTime gatingTime m w
      = (Raise (OntRemoteError ("Invalid gatingTime: " ++ Py.str_int gatingTime)), m, w))
  /\ (gatingTime = -1 \/ 0 < gatingTime ->
      let query := sweTime_cmd gatingTime ++ ";*OPC?" ++ ";" ++ startCmd in
      (exists r d, start (Some gatingTime) m w = (r, m, World d (trace w ++ [Queried query])))
      /\ _splitQuery query = [sweTime_cmd gatingTime; "*OPC?"; ":INIT:IMM:ALL"; "*OPC?"]).
Proof.
  split.
  - intros Hg.
    assert (_sweTimeScpi gatingTime
            = Raise (OntRemoteError ("Invalid gatingTime: " ++ Py.str_int gatingTime))) as E.
    { unfold _sweTimeScpi. destruct (Z.eqb_spec gatingTime (-1)); [lia|].
      destruct (Z.ltb_spec 0 gatingTime); [lia|reflexivity]. }
    unfold start, setGatingTime. rewrite bind_assoc, !bind_lift_outcome, E.
    split; reflexivity.
  - intros Hg query. split.
    + unfold start. rewrite bind_assoc, bind_lift_outcome, (sweTimeScpi_eq _ Hg).
      rewrite bind_ret, bind_receiveScpi.
      replace ((sweTime_cmd gatingTime ++ ";*OPC?") ++ ";" ++ startCmd) with query
        by (unfold query; rewrite !app_assoc_s; reflexivity).
      destruct (dev_receive query (dev w)) as [[a|msg] d]; eexists _, d; reflexivity.
    + unfold _splitQuery, query.
      change (sweTime_cmd gatingTime ++ ";*OPC?" ++ ";" ++ startCmd)
        with (sweTime_cmd gatingTime ++ String ";"%char ("*OPC?;" ++ startCmd)).
      rewrite split_app_sep
        by (apply sweTime_cmd_plain; [reflexivity|discriminate|reflexivity]).
      cbn [_splitQuery_loop].
      rewrite is_opc_without_star
        by (apply sweTime_cmd_plain; [reflexivity|discriminate|reflexivity]).
      assert (Py.truthy (sweTime_cmd gatingTime) = true) as Ht by reflexivity.
      change (Py.split ";"%char ("*OPC?;" ++ startCmd))
        with ["*OPC?"; ":INIT:IMM:ALL"; "*OPC?"].
      cbn [_splitQuery_loop Py.truthy].
      change (is_opc "*OPC?") with true. change (is_opc ":INIT:IMM:ALL") with false.
      cbv iota. rewrite Ht. reflexivity.
Qed.

End MeasurementControl.

(** ** The TCP port of a measurement port *)

Section TcpPorts.
Import Connection.

Lemma find_str_from_range (p s : string) i :
  Py.find_str_from p s i = -1 \/ i <= Py.find_str_from p s i.
Proof.
  revert i. induction s as [|c s IH]; intros i; cbn [Py.find_str_from].
  - destruct (Py.startswith p EmptyString); [right; lia|left; reflexivity].
  - destruct (Py.startswith p (String c s)); [right; lia|].
    destruct (IH (i + 1)) as [E|E]; [left; exact E|right; lia].
Qed.

(** [s.find(p) == 0] says that [s] begins with [p]. *)
Lemma find_str_zero (p s : string) : (Py.find_str p s =? 0) = Py.startswith p s.
Proof.
  unfold Py.find_str. destruct s as [|c s]; cbn [Py.find_str_from].
  - destruct (Py.startswith p EmptyString); reflexivity.
  - destruct (Py.startswith p (String c s)); [reflexivity|].
    destruct (find_str_from_range p s (0 + 1)) as [E|E]; apply Z.eqb_neq; lia.
Qed.

(** What [_getTcpPort] reads from the description that decides. *)
Definition read_description (portDescription : string) : outcome (Z * string * bool) :=
  match Py.split ":"%char portDescription with
  | portId :: tcpPort :: userName :: protection :: _ =>
      match Py.int tcpPort with
      | Some n => Ok (n, userName, Py.startswith "protected" protection)
      | None => Raise ValueError
      end
  | _ => Raise ValueError
  end.

Lemma search_first port pre d post :
  Forall (fun pd => Py.startswith port pd = false) pre ->
  Py.startswith port d = true ->
  _getTcpPort_search port (pre ++ d :: post) = Some (read_description d).
Proof.
  intros Hpre Hd. induction Hpre as [|pd pre Hpd _ IH]; cbn [app _getTcpPort_search].
  - rewrite find_str_zero, Hd. unfold read_description.
    destruct (Py.split ":"%char d) as [|a [|b [|c [|e l]]]]; try reflexivity.
    rewrite find_str_zero. reflexivity.
  - rewrite find_str_zero, Hpd. exact IH.
Qed.

Lemma search_none port l :
  Forall (fun pd => Py.startswith port pd = false) l -> _getTcpPort_search port l = None.
Proof.
  intros Hl. induction Hl as [|pd l Hpd _ IH]; [reflexivity|].
  cbn [_getTcpPort_search]. rewrite find_str_zero, Hpd. exact IH.
Qed.

(** A description [portId:tcpPort:userName:protection], with more items
    after it or not. *)
Definition port_description (portId : string) (tcpPort : Z) (userName protection : string)
    (more : list string) : string :=
  Py.join ":" (portId :: Py.str_int tcpPort :: userName :: protection :: more).

Lemma read_description_eq portId tcpPort userName protection more :
  Forall (fun s => contains ":"%char s = false) (portId :: userName :: protection :: more) ->
  read_description (port_description portId tcpPort userName protection more)
  = Ok (tcpPort, userName, Py.startswith "protected" protection).
Proof.
  intros Hc. unfold read_description, port_description.
  apply Forall_cons in Hc as [Hid Hc].
  rewrite split_join; [|discriminate|].
  - rewrite int_str_int. reflexivity.
  - constructor; [exact Hid|]. constructor; [|exact Hc].
    apply contains_str_int; [reflexivity|discriminate].
Qed.

(** The TCP port of a measurement port is read from the first description
    of the list that begins with the name of the port, also when a later
    description names the port exactly: from a description
    [portId:tcpPort:userName:protection] it is the number [tcpPort], the
    user name, and whether [protection] begins with [protected].  When no
    description begins with the name, the call ends with an
    [OntRemoteError] that lists the port ids. *)
Theorem getTcpPort_first_prefix
    (ipAddr ontPortString : string) (descriptions : list string) :
  descriptions <> [] ->
  Forall (fun pd => contains ","%char pd = false) descriptions ->
  let prtmList := Py.join "," descriptions in
  (Forall (fun pd => Py.startswith ontPortString pd = false) descriptions ->
   _getTcpPort ipAddr ontPortString prtmList
   = Raise (OntRemoteError
              (ipAddr ++ ": Requested measurement port not found: " ++ ontPortString
               ++ ". Ports available: "
               ++ Py.join ", " (map (fun pd => hd EmptyString (Py.split ":"%char pd))
                                    descriptions))))
  /\ (forall pre post portId tcpPort userName protection more,
        descriptions
        = (pre ++ port_description portId tcpPort userName protection more :: post)%list ->
        Forall (fun pd => Py.startswith ontPortString pd = false) pre ->
        Py.startswith ontPortString
          (port_description portId tcpPort userName protection more)
        = true ->
        Forall (fun s => contains ":"%char s = false)
               (portId :: userName :: protection :: more) ->
        _getTcpPort ipAddr ontPortString prtmList
        = Ok (tcpPort, userName, Py.startswith "protected" protection)).
Proof.
  intros Hne Hcomma prtmList.
  assert (Py.split ","%char prtmList = descriptions) as Hsplit
    by (apply split_join; assumption).
  split.
  - intros Hnone. unfold _getTcpPort. cbv zeta. rewrite Hsplit, (search_none _ _ Hnone).
    reflexivity.
  - intros pre post portId tcpPort userName protection more E Hpre Hd Hcolon.
    unfold _getTcpPort. cbv zeta. rewrite Hsplit, E, (search_first _ _ _ _ Hpre Hd).
    apply read_description_eq. exact Hcolon.
Qed.

End TcpPorts.

(** ** Further properties on the worked instances *)

Section FurtherExamples.
Import Demo.

(** *** Scalar endpoints *)

Lemma restore_writes_stored_value_witness :
  let p1 := (ScalarParameter.store demo_parameter demo_world).1.2 in
  exists r d,
    ScalarParameter.restore p1 demo_world = (r, p1, World d [Sent ":SOUR:X 5"])
    /\ write_outcome r.
Proof.
  intros p1.
  assert (ScalarParameter.store demo_parameter demo_world
          = (Ok tt, p1, (ScalarParameter.store demo_parameter demo_world).2)) as Hs
    by reflexivity.
  destruct (restore_writes_stored_value demo_parameter demo_world p1 _
              (init_consistent ":SOUR:X?" false) Hs)
    as (v & m & _ & _ & Hv & Hm & Hrest).
  cbn in Hv, Hm. subst v. injection Hm as <-.
  exact (Hrest demo_world).
Defined.

Definition demo_string_parameter : ScalarParameter.t :=
  ScalarParameter.__init__ ":SYST:NAME" false.

Lemma store_restore_echoes_reply_witness :
  let w := world_of [(":SYST:NAME?", quoted "a b")] in
  let w1 := World (dev w) [Queried ":SYST:NAME?"] in
  exists p1,
    ScalarParameter.store demo_string_parameter w = (Ok tt, p1, w1)
    /\ exists r d',
         ScalarParameter.restore p1 w1
         = (r, p1, World d' [Queried ":SYST:NAME?"; Sent (":SYST:NAME " ++ quoted "a b")]).
Proof.
  intros w w1.
  assert (unbound demo_string_parameter) as Hu by (repeat split).
  assert (echo_stable (quoted "a b")) as He.
  { right. split; [reflexivity|]. left. exists "a b". reflexivity. }
  destruct (store_restore_echoes_reply demo_string_parameter w (quoted "a b") (dev w)
              Hu eq_refl He) as (p1 & Hs & r & d' & Hr & _).
  exists p1. split; [exact Hs|]. exists r, d'. exact Hr.
Defined.

(** A reply that is not the text [str] gives the number does not come
    back as it was. *)
Example restore_writes_canonical_text :
  let w := world_of [(":SOUR:X?", "007")] in
  trace (run_ops [OpStore; OpRestore] demo_parameter w).2
  = [Queried ":SOUR:X?"; Sent ":SOUR:X 7"].
Proof. reflexivity. Qed.

(** *** The event decoder *)

Lemma demo_decoder_fields strict k l :
  OntEventDecoder._decoderDict (demo_decoder strict) !! k = Some l ->
  (k = 1 /\ l = [(8, 255); (0, 15)]) \/ (k = 3 /\ l = [(8, 255)]).
Proof.
  cbn [demo_decoder OntEventDecoder._decoderDict]. intros Hk.
  apply lookup_insert_Some in Hk as [[<- <-]|[_ Hk]]; [auto|].
  apply lookup_insert_Some in Hk as [[<- <-]|[_ Hk]]; [auto|].
  rewrite lookup_empty in Hk. discriminate Hk.
Qed.

Lemma demo_tables_agree strict : tables_agree (demo_decoder strict).
Proof.
  split; [discriminate|]. split.
  - intros k l Hk.
    destruct (demo_decoder_fields strict k l Hk) as [[_ ->]|[_ ->]];
      repeat constructor; discriminate.
  - intros k [l Hk].
    destruct (demo_decoder_fields strict k l Hk) as [[-> _]|[-> _]]; eexists; reflexivity.
Qed.

Lemma decoded_fields_within_masks_witness :
  0 <= 1 <= 15
  /\ exists l, OntEventDecoder._decoderDict (demo_decoder false) !! 1 = Some l
               /\ Forall2 (fun sm x => 0 <= x <= sm.2) l [7; 2].
Proof.
  assert (0 <= OntEventDecoder._fidMask (demo_decoder false)) as Hm by discriminate.
  assert (forall k l, OntEventDecoder._decoderDict (demo_decoder false) !! k = Some l ->
                      Forall (fun sm => 0 <= sm.2) l) as Hmasks.
  { intros k l Hk.
    destruct (demo_decoder_fields false k l Hk) as [[_ ->]|[_ ->]];
      repeat constructor; discriminate. }
  exact (decoded_fields_within_masks (demo_decoder false) 1810 1 [7; 2] Hm Hmasks eq_refl).
Defined.

Lemma decodeEvent_on_agreeing_tables_witness :
  (exists r, OntEventDecoder.decodeEvent (demo_decoder false) 1810 = Ok r
             /\ forall k, is_Some (r !! k) ->
                          k = OntEventDecoder.TAG_eventID
                          \/ k = OntEventDecoder.TAG_additionalInfo)
  \/ (OntEventDecoder._strict (demo_decoder false) = true
      /\ exists msg, OntEventDecoder.decodeEvent (demo_decoder false) 1810
                     = Raise (OntEventDecoderError msg)).
Proof.
  exact (decodeEvent_on_agreeing_tables (demo_decoder false) 1810 (demo_tables_agree false)).
Defined.

(** A lenient decoder still raises on a schema with a negative shift. *)
Example negative_shift_raises :
  OntEventDecoder.decodeEvent
    {| OntEventDecoder._strict := false;
       OntEventDecoder._formatDict_nonempty := true;
       OntEventDecoder._fidShift := -1;
       OntEventDecoder._fidMask := 15;
       OntEventDecoder._decoderDict := ∅;
       OntEventDecoder._tagDict := ∅;
       OntEventDecoder._enumDict := ∅ |} 32
  = Raise ValueError.
Proof. reflexivity. Qed.

(** *** The event feed *)

Definition demo_event : EventList.event := EventList.event_dict 1810 None None 0 1 9.

Lemma demo_decode_returns :
  is_Ok (@EventList.decode _ demo_schema_reader _ demo_event demo_feed demo_schema_world).1.1
  = true.
Proof. reflexivity. Qed.

Lemma decode_keeps_record_fields_witness :
  match (@EventList.decode _ demo_schema_reader _ demo_event demo_feed demo_schema_world).1.1
  with
  | Ok ev' => ev' !! "count" = Some (EvInt 9)
  | Raise _ => False
  end.
Proof.
  pose proof demo_decode_returns as Hok.
  destruct (@EventList.decode _ demo_schema_reader _ demo_event demo_feed demo_schema_world)
    as [[[ev'|ex] e'] w'] eqn:E; [|discriminate Hok].
  cbn [fst].
  assert ("count" <> "eventID") as H1 by discriminate.
  assert ("count" <> "additionalInfo") as H2 by discriminate.
  rewrite (@decode_keeps_record_fields _ demo_schema_reader _ _ _ _ _ _ _ "count" E H1 H2).
  reflexivity.
Defined.

Definition demo_plain_feed : EventList.t := EventList.__init__ ":EVEN:LIST" false.

Lemma decoding_gate_witness :
  EventList.decode demo_event demo_plain_feed demo_feed_world
  = (Ok demo_event,
     EventList.with_decode EventList.Bound__decodeEmpty
       (EventList.with_decoder None demo_plain_feed),
     demo_feed_world).
Proof.
  destruct (decoding_gate demo_plain_feed demo_feed_world demo_event eq_refl) as [P _].
  destruct (P (or_introl eq_refl)) as [E _]. exact E.
Defined.

(** A feed on a connection that was never opened. *)
Example decoding_without_version :
  (EventList.decode demo_event demo_feed (World (Device [] None) [])).1.1 = Raise TypeError.
Proof. reflexivity. Qed.

Example get_with_filters :
  let big := fun ev : EventList.event =>
               match ev !! "count" with Some (EvInt n) => 5 <? n | _ => false end in
  let count := fun filter =>
    match (@EventList.get _ demo_schema_reader _ 5 filter demo_feed demo_schema_world).1.1 with
    | Ok l => Some (length l)
    | Raise _ => None
    end in
  count None = Some 1%nat
  /\ count (Some (EventList.FilterId 1810)) = Some 1%nat
  /\ count (Some (EventList.FilterId 7)) = Some 0%nat
  /\ count (Some (EventList.FilterCallable big)) = Some 1%nat.
Proof. repeat split; vm_compute; reflexivity. Qed.

Lemma get_count_witness :
  exists res,
    (EventList.get 250 None demo_feed demo_feed_world).1.1 = Ok res
    /\ Z.of_nat (length res) = 180.
Proof.
  pose proof demo_get_returns as Hok.
  destruct (EventList.get 250 None demo_feed demo_feed_world) as [[[res|ex] e'] w'] eqn:E;
    [|discriminate Hok].
  exists res. split; [reflexivity|].
  destruct (get_count demo_feed demo_feed_world 250 None "180" (dev demo_feed_world) 180
              res e' w' eq_refl eq_refl eq_refl E) as [_ Heq].
  exact (Heq eq_refl).
Defined.

Definition demo_empty_feed_world : world := world_of [(":EVEN:LIST:NUMB?", "0")].

Lemma next_is_get_one_witness :
  EventList.get 1 None demo_feed demo_empty_feed_world
  = (Ok [], demo_feed, World (dev demo_empty_feed_world) [Queried ":EVEN:LIST:NUMB?"]).
Proof.
  assert (EventList.next demo_feed demo_empty_feed_world
          = (Ok ∅, demo_feed,
             World (dev demo_empty_feed_world) [Queried ":EVEN:LIST:NUMB?"])) as E
    by reflexivity.
  destruct (proj1 (next_is_get_one demo_feed demo_empty_feed_world ∅ _ _ eq_refl) E)
    as [[_ Hg]|[Hne _]]; [exact Hg|].
  exfalso. apply Hne. reflexivity.
Defined.

Example next_reads_one_record :
  (@EventList.next _ demo_schema_reader _ _ demo_feed demo_schema_world).1.1
  = Ok (<["additionalInfo" := EvInfo [("lane", (2, "second"))]]>
          (<["eventID" := EvField 7 ""]>
             (EventList.event_dict 1810 None None 93784005000006 1 9))).
Proof. reflexivity. Qed.

Lemma form_parameter_name_witness :
  EventList.form_name ":EVEN:LIST:SEC" = ":EVEN:LIST:FORM"
  /\ EventList.form_name "SEC" = "FORM".
Proof.
  exact (form_parameter_name ":EVEN:LIST" "SEC" eq_refl).
Defined.

(** *** Groups of results *)

Definition demo_group : ResultGroup.t :=
  {| ResultGroup.description := "errors";
     ResultGroup.nameList := [("ber", ":SENS:BER"); ("los", ":SENS:LOS")];
     ResultGroup._cmd := ":SENS:BER?;:SENS:LOS?" |}.

Definition demo_group_world : world := world_of [(":SENS:BER?;:SENS:LOS?", "1,5;0,7")].

Lemma group_get_by_position_witness :
  let resDict : gmap string pyval := <["los" := VNone]> (<["ber" := VInt 5]> ∅) in
  dom resDict = (list_to_set ["ber"; "los"] : gset string)
  /\ exists item valid value,
       Py.split ";"%char "1,5;0,7" !! 1%nat = Some item
       /\ _decodeResult item ":SENS:LOS" = Ok (valid, value)
       /\ resDict !! "los" = Some (if valid : bool then value else VNone).
Proof.
  intros resDict.
  assert (ResultGroup.get demo_group demo_group_world
          = (Ok resDict, demo_group,
             World (dev demo_group_world) [Queried ":SENS:BER?;:SENS:LOS?"])) as E
    by reflexivity.
  destruct (group_get_by_position _ _ _ _ _ E)
    as (_ & reply & d & Hq & _ & _ & Hdom & Hpos).
  injection Hq as <- _.
  split; [exact Hdom|].
  assert (NoDup (ResultGroup.nameList demo_group).*1) as Hnd.
  { cbn. apply NoDup_cons. split; [|apply NoDup_singleton].
    intros Hin. apply list_elem_of_singleton in Hin. discriminate Hin. }
  exact (Hpos Hnd 1%nat "los" ":SENS:LOS" eq_refl).
Defined.

Definition demo_items : list ResultGroup.item :=
  [ResultGroup.Plain "BER"; ResultGroup.Named "los" ":LOS?"].

Lemma demo_addResults_returns :
  (ResultGroup.addResults ":SENS:DATA:...:AVG?" demo_items
     (ResultGroup.__init__ "errors") demo_world).1.1 = Ok tt.
Proof. reflexivity. Qed.

Lemma addResults_keeps_registered_witness :
  registered
    (ResultGroup.addResults ":SENS:DATA:...:AVG?" demo_items
       (ResultGroup.__init__ "errors") demo_world).1.2.
Proof.
  pose proof demo_addResults_returns as Hr.
  destruct (ResultGroup.addResults ":SENS:DATA:...:AVG?" demo_items
              (ResultGroup.__init__ "errors") demo_world) as [[r g'] w'] eqn:E.
  cbn [fst snd] in Hr |- *.
  assert (demo_items <> []) as Hne by discriminate.
  destruct (addResults_keeps_registered _ _ _ _ _ _ _ (init_registered "errors") Hne E)
    as (_ & Hok & _).
  exact (proj1 (Hok Hr)).
Defined.

Example addResults_builds_command :
  ResultGroup._cmd
    (ResultGroup.fields
       (ResultGroup.addResults ":SENS:DATA:...:AVG?" demo_items
          (ResultGroup.__init__ "errors") demo_world).1.2)
  = ":SENS:DATA:BER:AVG?;:SENS:DATA:LOS:AVG?".
Proof. reflexivity. Qed.

(** A second item with the name of the first is refused, and the first
    stays in [nameList] although the command is still empty. *)
Example addResults_duplicate :
  let '(r, g, _) := ResultGroup.addResults ":SENS" [ResultGroup.Plain "BER"; ResultGroup.Plain "BER"]
                      (ResultGroup.__init__ "errors") demo_world in
  r = Raise (OntRemoteError "ResultGroup errors: Result name must be unique: BER")
  /\ ResultGroup.nameList (ResultGroup.fields g) = [("BER", ":SENS:BER?")]
  /\ ResultGroup._cmd (ResultGroup.fields g) = EmptyString.
Proof. repeat split. Qed.

(** *** Final values *)

Definition demo_block_result : BlockResult.t := BlockResult.__init__ ":SENS:DATA:BLOC?".

Definition demo_final_world (reply : string) : world :=
  world_of [(fin_cmd ":SENS:DATA", reply)].

Lemma block_final_window_witness :
  BlockResult.final 1 (Some 1) demo_block_result (demo_final_world "3,1,2,3")
  = (Ok (BlockResult.RValues [VInt 2]), demo_block_result,
     World (dev (demo_final_world "3,1,2,3")) [Queried (fin_cmd ":SENS:DATA")]).
Proof.
  assert (BlockResult._readValues (fin_cmd (BlockResult.name demo_block_result))
            demo_block_result (demo_final_world "3,1,2,3")
          = (Ok (true, [VInt 1; VInt 2; VInt 3]), demo_block_result,
             World (dev (demo_final_world "3,1,2,3")) [Queried (fin_cmd ":SENS:DATA")])) as E
    by reflexivity.
  exact (proj1 (block_final_window _ _ 1 (Some 1) _ _ _ E)).
Defined.

Definition demo_extended_result : ExtendedBlockResult.t :=
  ExtendedBlockResult.__init__ ":SENS:DATA:EBLOC?".

Lemma extended_final_window_witness :
  ExtendedBlockResult.final 0 (Some (-1)) demo_extended_result (demo_final_world "2,1,5,0,7")
  = (Ok (ExtendedBlockResult.RValues [VInt 5]), demo_extended_result,
     World (dev (demo_final_world "2,1,5,0,7")) [Queried (fin_cmd ":SENS:DATA")]).
Proof.
  assert (ExtendedBlockResult._readValues (fin_cmd (ExtendedBlockResult.name demo_extended_result))
            demo_extended_result (demo_final_world "2,1,5,0,7")
          = (Ok (true, [VInt 5; VNone]), demo_extended_result,
             World (dev (demo_final_world "2,1,5,0,7")) [Queried (fin_cmd ":SENS:DATA")])) as E
    by reflexivity.
  exact (proj1 (extended_final_window _ _ 0 (Some (-1)) _ _ _ E)).
Defined.

(** A valid result without values: [get] returns the empty list, [final]
    raises. *)
Example final_of_empty_result :
  (BlockResult.final 0 None demo_block_result (demo_final_world "0")).1.1 = Raise TypeError
  /\ (BlockResult.get 0 None demo_block_result (world_of [(":SENS:DATA:BLOC?", "0")])).1.1
     = Ok (BlockResult.RValues [])
  /\ (BlockResult.length demo_block_result (world_of [(":SENS:DATA:LENG?", "x")])).1.1
     = Raise TypeError.
Proof. repeat split. Qed.

(** *** Vector endpoints of strings *)

Definition demo_block : BlockParameter.t := BlockParameter.__init__ ":SOUR:NAME:BLOC" false.

Lemma block_store_restore_strings_witness :
  let reply := Py.join "," (map enclosed ["a"; "b c"]) in
  let w := world_of [(":SOUR:NAME:BLOC?", reply)] in
  let w1 := World (dev w) [Queried ":SOUR:NAME:BLOC?"] in
  exists p1,
    BlockParameter.store demo_block w = (Ok tt, p1, w1)
    /\ exists r d',
         BlockParameter.restore p1 w1
         = (r, p1,
            World d' [Queried ":SOUR:NAME:BLOC?"; Sent (":SOUR:NAME 0,2," ++ reply)]).
Proof.
  intros reply w w1.
  assert (Forall plain_item ["a"; "b c"]) as Hall.
  { repeat constructor; try (eexists; split; [reflexivity|discriminate]). }
  assert (["a"; "b c"] <> []) as Hne by discriminate.
  destruct (block_store_restore_strings demo_block w ["a"; "b c"] (dev w)
              eq_refl eq_refl Hne Hall eq_refl eq_refl)
    as (p1 & Hs & _ & r & d' & Hr & _).
  exists p1. split; [exact Hs|]. exists r, d'. exact Hr.
Defined.

Lemma string_block_write_refused_witness :
  exists ex,
    BlockParameter._setScpiString 0 (BlockParameter.BList [VStr "a"; VStr ""])
      demo_block demo_world
    = (Raise ex, demo_block, demo_world).
Proof.
  assert (Exists unwritable [VStr "a"; VStr ""]) as Hex.
  { apply Exists_cons_tl, Exists_cons_hd. reflexivity. }
  destruct (string_block_write_refused 0 _ demo_block demo_world Hex) as (ex & E & _).
  exists ex. exact E.
Defined.

(** A block that holds an empty string is stored but cannot be written
    back. *)
Example empty_string_is_not_restored :
  let reply := Py.join "," (map enclosed ["a"; ""]) in
  let w := world_of [(":SOUR:NAME:BLOC?", reply)] in
  let '(p1, w1) := run_block_ops [BOpStore] demo_block w in
  trace w1 = [Queried ":SOUR:NAME:BLOC?"]
  /\ BlockParameter._storedValue p1 = Some (BlockParameter.BList [VStr "a"; VStr ""])
  /\ BlockParameter.restore p1 w1 = (Raise IndexError, p1, w1).
Proof. repeat split. Qed.

(** *** Groups of parameters *)

Definition demo_definitions : list ParameterGroup.definition :=
  [ParameterGroup.Def2 "laser" ":SOUR:LAS";
   ParameterGroup.Def3 "names" ":SOUR:NAME:BLOC" true].

Lemma demo_addParameters_returns :
  (ParameterGroup.addParameters demo_definitions (ParameterGroup.__init__ "port") demo_world).1.1
  = Ok tt.
Proof. reflexivity. Qed.

Lemma addParameters_registers_in_order_witness :
  distinct_names
    (ParameterGroup.addParameters
       (demo_definitions ++ [ParameterGroup.Def2 "laser" ":SOUR:X"])
       (ParameterGroup.__init__ "port") demo_world).1.2.
Proof.
  destruct (ParameterGroup.addParameters
              (demo_definitions ++ [ParameterGroup.Def2 "laser" ":SOUR:X"])
              (ParameterGroup.__init__ "port") demo_world) as [[r g'] w'] eqn:E.
  destruct (addParameters_registers_in_order _ _ _ _ _ _ (init_distinct_names "port") E)
    as (_ & _ & Hd & _).
  exact Hd.
Defined.

Example addParameters_members :
  ParameterGroup._parameterList
    (ParameterGroup.addParameters
       (demo_definitions ++ [ParameterGroup.Def2 "laser" ":SOUR:X"])
       (ParameterGroup.__init__ "port") demo_world).1.2
  = [("laser", ParameterGroup.Scalar (ScalarParameter.__init__ ":SOUR:LAS" false));
     ("names", ParameterGroup.Block (BlockParameter.__init__ ":SOUR:NAME:BLOC" true))]
  /\ (ParameterGroup.addParameters [ParameterGroup.Def2 "description" ":SOUR:X"]
        (ParameterGroup.__init__ "port") demo_world).1.1
     = Raise (OntRemoteError "ParameterGroup port: Registered name must be unique: description").
Proof. split; reflexivity. Qed.

Lemma group_restore_before_store_witness :
  let g := (ParameterGroup.addParameters demo_definitions
              (ParameterGroup.__init__ "port") demo_world).1.2 in
  exists msg, ParameterGroup.restore g demo_world = (Raise (OntRemoteError msg), g, demo_world).
Proof.
  intros g.
  assert (ParameterGroup.addParameters demo_definitions (ParameterGroup.__init__ "port")
            demo_world = (Ok tt, g, demo_world)) as E by reflexivity.
  assert (demo_definitions <> []) as Hne by discriminate.
  exact (group_restore_before_store "port" demo_definitions demo_world g demo_world
           demo_world E Hne).
Defined.

(** *** The version *)


Example parseVersionInfo_edges :
  parseVersionInfo "37.0.2" = Raise IndexError
  /\ parseVersionInfo "ONT-37.0-1" = Raise ValueError
  /\ parseVersionInfo "ONT-37.0.2-beta" = Raise ValueError
  /\ parseVersionInfo EmptyString = Raise IndexError
  /\ parseVersionInfo "ONT-37.0.2.9-r1b2" = Ok (37, 0, 2, 12).
Proof. repeat split. Qed.

(** *** Skipping *)

Lemma demo_plain_get_returns :
  is_Ok (EventList.get 250 None demo_plain_feed demo_feed_world).1.1 = true.
Proof. vm_compute. reflexivity. Qed.

Lemma skip_follows_get_witness :
  exists (res : list EventList.event) w',
    EventList.skip 250 demo_plain_feed demo_feed_world
    = (Ok (Z.of_nat (length res)), demo_plain_feed, w').
Proof.
  pose proof demo_plain_get_returns as Hok.
  destruct (EventList.get 250 None demo_plain_feed demo_feed_world)
    as [[[res|ex] e'] w'] eqn:E; [|discriminate Hok].
  exists res, w'.
  destruct (skip_follows_get demo_plain_feed demo_feed_world 250 None res e' w'
              eq_refl (or_intror eq_refl) ltac:(lia) E) as (skipped & Hs & _ & Heq).
  rewrite (Heq eq_refl). exact Hs.
Defined.

Example skip_asks_what_get_asks :
  (EventList.skip 250 demo_plain_feed demo_feed_world).1.1 = Ok 180
  /\ (EventList.skip 250 demo_plain_feed demo_feed_world).2
     = (EventList.get 250 None demo_plain_feed demo_feed_world).2.
Proof. split; vm_compute; reflexivity. Qed.

(** *** Vector endpoints: the resolved type *)

Definition demo_numeric_block_world : world := world_of [(":SOUR:NAME:BLOC?", "1,2,3")].

Lemma block_resolved_type_is_stable_witness :
  let p := (run_block_ops [BOpGet 0 None] demo_block demo_numeric_block_world).1 in
  let w := (run_block_ops [BOpGet 0 None] demo_block demo_numeric_block_world).2 in
  block_resolved p /\ (forall ops, block_same_binding p (run_block_ops ops p w).1).
Proof.
  intros p w.
  pose proof (block_resolved_type_is_stable ":SOUR:NAME:BLOC" false [BOpGet 0 None]
                demo_numeric_block_world) as P.
  assert (is_Some (BlockParameter._type p)) as Ht by (exists TInt; reflexivity).
  destruct (P Ht) as (R & S & _).
  split; [exact R|exact S].
Defined.

(** Before a type is recorded the binding of [set] can still change: a read
    that got an empty reply leaves [set] bound to [_set], and a later read
    of quoted items binds it again. *)
Example set_is_bound_again_before_a_type :
  let w := world_of [(":SOUR:NAME? 0,1", EmptyString); (":SOUR:NAME:BLOC?", enclosed "a")] in
  let p1 := (run_block_ops [BOpGet 0 (Some 1)] demo_block w).1 in
  let p2 := (run_block_ops [BOpGet 0 (Some 1); BOpGet 0 None] demo_block w).1 in
  (BlockParameter.get 0 (Some 1) demo_block w).1.1 = Raise IndexError
  /\ BlockParameter._type p1 = None
  /\ BlockParameter.attr_set p1 = Some BlockParameter.Bound__set
  /\ BlockParameter._type p2 = Some TStr
  /\ BlockParameter.attr_set p2 = Some BlockParameter.Bound__setScpiString.
Proof. repeat split. Qed.

(** *** The names of vector endpoints *)

(** The node is recognised in any case and before question marks, but not
    without a base and not inside the name; a [BlockParameter] built on a
    name with the node inside is cut at the node all the same. *)
Example block_names :
  ParameterGroup._isBlockParameter ":SOUR:DATA:BLOC?" = true
  /\ ParameterGroup._isBlockParameter ":sour:data:Bloc??" = true
  /\ ParameterGroup._isBlockParameter ":BLOC?" = false
  /\ ParameterGroup._isBlockParameter ":SOUR:BLOCK:X" = false
  /\ BlockParameter.block_name ":bloc" ":SOUR:DATA:BLOC?" = ":SOUR:DATA"
  /\ BlockParameter.block_name ":bloc" ":BLOC?" = ":BLOC"
  /\ BlockParameter.block_name ":bloc" ":SOUR:BLOCK:X" = ":SOUR".
Proof. repeat split. Qed.

(** *** Groups of parameters: the snapshot *)

Definition demo_parameter_group : ParameterGroup.t :=
  (ParameterGroup.addParameters demo_definitions (ParameterGroup.__init__ "port") demo_world).1.2.

Definition demo_parameter_group_world : world :=
  world_of [(":SOUR:LAS?", "5");
            (":SOUR:NAME:BLOC?", Py.join "," (map enclosed ["a"; "b c"]))].

Lemma demo_group_store_returns :
  (ParameterGroup.store demo_parameter_group demo_parameter_group_world).1.1 = Ok tt.
Proof. reflexivity. Qed.

Lemma group_restore_after_store_witness :
  let g1 := (ParameterGroup.store demo_parameter_group demo_parameter_group_world).1.2 in
  exists r d cmds,
    ParameterGroup.restore g1 demo_world = (r, g1, World d (trace demo_world ++ cmds))
    /\ (length cmds <= 2)%nat.
Proof.
  intros g1.
  pose proof demo_group_store_returns as Hok.
  assert (Forall (fun entry => member_consistent entry.2)
            (ParameterGroup._parameterList demo_parameter_group)) as Hc.
  { repeat constructor. }
  destruct (ParameterGroup.store demo_parameter_group demo_parameter_group_world)
    as [[r0 g] w1] eqn:E.
  cbn in Hok. subst r0.
  destruct (group_restore_after_store _ _ _ _ Hc E) as (_ & Hn & _ & Hr).
  destruct (Hr demo_world) as (r & d & cmds & Er & Hle & _).
  exists r, d, cmds. split; [exact Er|].
  apply (f_equal (@length string)) in Hn. rewrite !length_map in Hn.
  change g1 with g. rewrite Hn in Hle. exact Hle.
Defined.

Example group_restore_writes_in_order :
  let g1 := (ParameterGroup.store demo_parameter_group demo_parameter_group_world).1.2 in
  trace (ParameterGroup.restore g1 demo_world).2
  = [Sent ":SOUR:LAS 5";
     Queried (":SOUR:NAME 0,2," ++ Py.join "," (map enclosed ["a"; "b c"]) ++ ";*OPC?")].
Proof. reflexivity. Qed.

(** *** The connection *)

(** A write with [*OPC?] goes out as the command and the query; an empty
    query has no part; an empty item at the head of a run is dropped. *)
Example splitQuery_edges :
  Connection._splitQuery ":SOUR:X 5;*OPC?" = [":SOUR:X 5"; "*OPC?"]
  /\ Connection._splitQuery EmptyString = []
  /\ Connection._splitQuery ";a" = ["a"]
  /\ Connection._splitQuery "a;*opc?;;b;c" = ["a"; "*opc?"; "b;c"].
Proof. repeat split. Qed.

Example parsePortString_edges :
  Connection._parsePortString "/0/4/1" = Ok (0, 4, 1)
  /\ Connection._parsePortString "x/0/4/1" = Ok (0, 4, 1)
  /\ Connection._parsePortString "/0/a/1" = Raise ValueError
  /\ Connection._parsePortString "/0/4"
     = Raise (OntRemoteError
                "Invalid format of ONT measurement port: '/0/4' - expected: '/0/SlotNo/PortNo'").
Proof. repeat split. Qed.

(** *** The measurement *)

(** An instrument that answers the queries from a list, one reply after
    the other, and accepts every command. *)
Definition polled : Transport := {|
  conn := list string;
  dev_send := fun _ d => (Reply tt, d);
  dev_receive := fun _ d =>
    match d with
    | [] => (Fault "no answer", [])
    | a :: rest => (Reply a, rest)
    end;
  dev_version := fun _ => None
|}.

Definition polled_stop (replies : list string) : outcome unit * nat :=
  let '(r, _, w) :=
    @Measurement.stop polled Measurement.__init__ (@World polled replies []) in
  (r, length (@trace polled w)).

(** A measurement that stops at the second poll, one that stops at the
    59th, and one that is reported stopped by the 60th poll only. *)
Example stop_at_the_last_poll :
  polled_stop ["16"; "0"; "16"] = (Ok tt, 3%nat)
  /\ polled_stop (repeat "16" 58 ++ ["0"]) = (Ok tt, 60%nat)
  /\ polled_stop (repeat "16" 59 ++ ["0"])
     = (Raise (OntRemoteError "Timeout while waiting for measurement stop."), 61%nat).
Proof. repeat split; vm_compute; reflexivity. Qed.

Example gating_times :
  Measurement._sweTimeScpi 5 = Ok ":SENS:SWE:TIME 5;*OPC?"
  /\ Measurement._sweTimeScpi (-1) = Ok ":SENS:SWE:TIME MAX;*OPC?"
  /\ Measurement._sweTimeScpi 0 = Raise (OntRemoteError "Invalid gatingTime: 0")
  /\ Connection._splitQuery ":SENS:SWE:TIME 5;*OPC?;:INIT:IMM:ALL;*OPC?"
     = [":SENS:SWE:TIME 5"; "*OPC?"; ":INIT:IMM:ALL"; "*OPC?"].
Proof. repeat split. Qed.

(** *** The TCP port *)

(** The port [/0/1/1] is asked for, and the description of [/0/1/10], which
    comes first, decides. *)
Lemma getTcpPort_first_prefix_witness :
  Connection._getTcpPort "10.0.0.1" "/0/1/1"
    "/0/1/10:5010:guest:free,/0/1/1:5001:admin:protected"
  = Ok (5010, "guest", false).
Proof.
  assert (["/0/1/10:5010:guest:free"; "/0/1/1:5001:admin:protected"] <> []) as Hne
    by discriminate.
  assert (Forall (fun pd => contains ","%char pd = false)
            ["/0/1/10:5010:guest:free"; "/0/1/1:5001:admin:protected"]) as Hc
    by (repeat constructor).
  destruct (getTcpPort_first_prefix "10.0.0.1" "/0/1/1" _ Hne Hc) as [_ P].
  apply (P [] ["/0/1/1:5001:admin:protected"] "/0/1/10" 5010 "guest" "free" []).
  - reflexivity.
  - constructor.
  - reflexivity.
  - repeat constructor.
Defined.

Example getTcpPort_edges :
  Connection._getTcpPort "10.0.0.1" "/0/1/1" "/0/1/1:5001:admin:protected:x"
  = Ok (5001, "admin", true)
  /\ Connection._getTcpPort "10.0.0.1" "/0/1/1" "/0/1/1:5001:admin" = Raise ValueError
  /\ Connection._getTcpPort "10.0.0.1" "/0/2/1" "/0/1/1:5001:admin:free,/0/1/2:5002::free"
     = Raise (OntRemoteError
                "10.0.0.1: Requested measurement port not found: /0/2/1. Ports available: /0/1/1, /0/1/2").
Proof. repeat split. Qed.

End FurtherExamples.
